(** * Task_tracker: the task store of [task_manager.py]

    A shallow embedding of the [TaskManager] class and of the part of
    Python it runs on: the values that [json.load] produces, the built-in
    operations the methods apply to them, the [json] encoder and decoder,
    the backing file, the clock and the standard output.

    Conventions.
    - A Python [str] is a list of code points ([N]); a text file holds a
      [str] once its bytes are decoded, and the standard output encodes as
      UTF-8, as the file does.
    - A method is a function from the world (file, clock, output) to a
      result: either a value with the new world, or an uncaught exception.
      What an uncaught exception leaves behind is not described: the
      process is over.
    - A method that assigns to [self.tasks] or to one of its items returns
      the object as it is afterwards.

    Outside the development.
    - Floating point: a JSON document with a float literal is reported as
      such by the decoder ([FloatLiteral]), and nothing is stated about a
      run that meets one.
    - The limits of the interpreter on the depth of recursion and on the
      number of digits of an int. *)

From Stdlib Require Import String Ascii List ZArith NArith Lia Bool.
From Stdlib Require Import Permutation.
From Stdlib Require DecimalZ DecimalPos DecimalN DecimalFacts.
Import ListNotations.
#[local] Open Scope list_scope.
#[local] Open Scope N_scope.

(** ** Strings *)

Definition str := list N.
Definition text := list N.

(** An ASCII literal of the source as a Python string. *)
Definition py (s : string) : str := map N_of_ascii (list_ascii_of_string s).

Fixpoint str_eqb (a b : str) : bool :=
  match a, b with
  | [], [] => true
  | x :: a', y :: b' => N.eqb x y && str_eqb a' b'
  | _, _ => false
  end.

(** ** Python values

    The values [json.load] builds (ints, strings, lists, dicts, booleans
    and [None]).  A dict keeps its keys in insertion order, and its keys are
    strings, as every dict decoded from JSON or built by [add_task] has. *)

#[local] Unset Elimination Schemes.

Inductive pyval : Type :=
| PNone
| PBool (b : bool)
| PInt (z : Z)
| PStr (s : str)
| PList (items : list pyval)
| PDict (entries : list (str * pyval)).

#[local] Set Elimination Schemes.

Inductive exn : Type :=
| JSONDecodeError
| FileNotFoundError
| PermissionError
| UnicodeDecodeError
| UnicodeEncodeError
| TypeError
| KeyError
| AttributeError
| FloatLiteral.  (* not a Python exception: the document holds a float *)

(** *** Built-in operations *)

(** [len(v)] *)
Definition py_len (v : pyval) : exn + nat :=
  match v with
  | PStr s => inr (length s)
  | PList l => inr (length l)
  | PDict d => inr (length d)
  | PNone | PBool _ | PInt _ => inl TypeError
  end.

(** [for x in v]: the items the iteration yields. *)
Definition py_iter (v : pyval) : exn + list pyval :=
  match v with
  | PList l => inr l
  | PDict d => inr (map (fun kv => PStr (fst kv)) d)
  | PStr s => inr (map (fun c => PStr [c]) s)
  | PNone | PBool _ | PInt _ => inl TypeError
  end.

(** [not v] is [negb (truthy v)]. *)
Definition truthy (v : pyval) : bool :=
  match v with
  | PNone => false
  | PBool b => b
  | PInt z => negb (Z.eqb z 0%Z)
  | PStr s => negb (Nat.eqb (length s) 0%nat)
  | PList l => negb (Nat.eqb (length l) 0%nat)
  | PDict d => negb (Nat.eqb (length d) 0%nat)
  end.

Fixpoint dict_get (d : list (str * pyval)) (k : str) : option pyval :=
  match d with
  | [] => None
  | (k', v) :: d' => if str_eqb k' k then Some v else dict_get d' k
  end.

(** [d[k] = v] on a dict: an existing key keeps its place. *)
Fixpoint dict_set (d : list (str * pyval)) (k : str) (v : pyval)
  : list (str * pyval) :=
  match d with
  | [] => [(k, v)]
  | (k', v') :: d' =>
      if str_eqb k' k then (k', v) :: d' else (k', v') :: dict_set d' k v
  end.

(** [v[k]] with a string key [k]. *)
Definition getitem (v : pyval) (k : str) : exn + pyval :=
  match v with
  | PDict d => match dict_get d k with Some x => inr x | None => inl KeyError end
  | _ => inl TypeError
  end.

(** [v[k] = x] with a string key [k]. *)
Definition setitem (v : pyval) (k : str) (x : pyval) : exn + pyval :=
  match v with
  | PDict d => inr (PDict (dict_set d k x))
  | _ => inl TypeError
  end.

(** [v == n] for an int [n]; [True == 1] and [False == 0] hold in Python. *)
Definition eq_int (v : pyval) (n : Z) : bool :=
  match v with
  | PInt z => Z.eqb z n
  | PBool b => Z.eqb (Z.b2z b) n
  | _ => false
  end.

(** [v == s] for a string [s]. *)
Definition eq_str (v : pyval) (s : str) : bool :=
  match v with
  | PStr s' => str_eqb s' s
  | _ => false
  end.

(** [l.append(x)]: only a list has the method. *)
Definition append (v : pyval) (x : pyval) : exn + pyval :=
  match v with
  | PList l => inr (PList (l ++ [x]))
  | _ => inl AttributeError
  end.

(** [del l[i]] on a list. *)
Fixpoint del_nth (l : list pyval) (i : nat) : list pyval :=
  match l, i with
  | [], _ => []
  | _ :: l', O => l'
  | x :: l', S i' => x :: del_nth l' i'
  end.

(** ** The [json] module

    [json.dump(obj, f, indent=2, ensure_ascii=False)] and [json.load(f)],
    after the pure-Python encoder and decoder of the standard library. *)

(** *** Encoder *)

Definition hexdigit (n : N) : N := (if n <? 10 then 48 + n else 87 + n).

(** [ESCAPE_DCT] of [json.encoder]: the replacement of one character. *)
Definition escape_char (c : N) : text :=
  if N.eqb c 92 then py "\\"
  else if N.eqb c 34 then [92; 34]
  else if N.eqb c 8 then py "\b"
  else if N.eqb c 12 then py "\f"
  else if N.eqb c 10 then py "\n"
  else if N.eqb c 13 then py "\r"
  else if N.eqb c 9 then py "\t"
  else if N.ltb c 32 then py "\u00" ++ [hexdigit (c / 16); hexdigit (c mod 16)]
  else [c].

(** [py_encode_basestring]: with [ensure_ascii=False] every other character
    is written as it is. *)
Definition encode_basestring (s : str) : text :=
  34 :: flat_map escape_char s ++ [34].

Fixpoint uint_chars (u : Decimal.uint) : text :=
  match u with
  | Decimal.Nil => []
  | Decimal.D0 u' => 48 :: uint_chars u'
  | Decimal.D1 u' => 49 :: uint_chars u'
  | Decimal.D2 u' => 50 :: uint_chars u'
  | Decimal.D3 u' => 51 :: uint_chars u'
  | Decimal.D4 u' => 52 :: uint_chars u'
  | Decimal.D5 u' => 53 :: uint_chars u'
  | Decimal.D6 u' => 54 :: uint_chars u'
  | Decimal.D7 u' => 55 :: uint_chars u'
  | Decimal.D8 u' => 56 :: uint_chars u'
  | Decimal.D9 u' => 57 :: uint_chars u'
  end.

(** [int.__repr__] *)
Definition int_repr (z : Z) : text :=
  match Z.to_int z with
  | Decimal.Pos u => uint_chars u
  | Decimal.Neg u => 45 :: uint_chars u
  end.

(** ['\n' + ' ' * (indent * level)] with [indent = 2]. *)
Definition newline_indent (level : nat) : text :=
  10 :: repeat 32 (2 * level)%nat.

Fixpoint join (sep : text) (chunks : list text) : text :=
  match chunks with
  | [] => []
  | [c] => c
  | c :: cs => c ++ sep ++ join sep cs
  end.

(** [_iterencode(o, _current_indent_level)], its chunks concatenated. *)
Fixpoint encode (level : nat) (o : pyval) : text :=
  match o with
  | PNone => py "null"
  | PBool true => py "true"
  | PBool false => py "false"
  | PInt z => int_repr z
  | PStr s => encode_basestring s
  | PList [] => py "[]"
  | PList l =>
      py "[" ++ newline_indent (S level)
        ++ join (py "," ++ newline_indent (S level)) (map (encode (S level)) l)
        ++ newline_indent level ++ py "]"
  | PDict [] => py "{}"
  | PDict d =>
      py "{" ++ newline_indent (S level)
        ++ join (py "," ++ newline_indent (S level))
             (map (fun kv => encode_basestring (fst kv) ++ py ": "
                               ++ encode (S level) (snd kv)) d)
        ++ newline_indent level ++ py "}"
  end.

Definition json_dumps (o : pyval) : text := encode 0 o.

(** *** Decoder *)

(** The outcome of scanning a prefix of the input: a value and the rest of
    the input, a [JSONDecodeError], or a float literal met on the way. *)
Inductive scan (A : Type) : Type :=
| Parsed (a : A) (rest : text)
| Malformed
| Float.
Arguments Parsed {A}.
Arguments Malformed {A}.
Arguments Float {A}.

Definition is_ws (c : N) : bool :=
  N.eqb c 32 || N.eqb c 9 || N.eqb c 10 || N.eqb c 13.

Fixpoint skip_ws (s : text) : text :=
  match s with
  | c :: r => if is_ws c then skip_ws r else s
  | [] => []
  end.

Definition is_digit (c : N) : bool := N.leb 48 c && N.leb c 57.

Definition hexval (c : N) : option N :=
  if is_digit c then Some (c - 48)
  else if N.leb 97 c && N.leb c 102 then Some (c - 87)
  else if N.leb 65 c && N.leb c 70 then Some (c - 55)
  else None.

(** The four hex digits of a [\uXXXX] escape. *)
Definition hex4 (a b c d : N) : option N :=
  match hexval a, hexval b, hexval c, hexval d with
  | Some x, Some y, Some z, Some w =>
      Some (((x * 16 + y) * 16 + z) * 16 + w)
  | _, _, _, _ => None
  end.

(** The [BACKSLASH] table of [json.decoder]. *)
Definition backslash (c : N) : option N :=
  if N.eqb c 34 then Some 34
  else if N.eqb c 92 then Some 92
  else if N.eqb c 47 then Some 47
  else if N.eqb c 98 then Some 8
  else if N.eqb c 102 then Some 12
  else if N.eqb c 110 then Some 10
  else if N.eqb c 114 then Some 13
  else if N.eqb c 116 then Some 9
  else None.

Definition is_high (u : N) : bool := N.leb 55296 u && N.leb u 56319.
Definition is_low (u : N) : bool := N.leb 56320 u && N.leb u 57343.
Definition surrogate_pair (u u2 : N) : N :=
  (65536 + N.lor (N.shiftl (u - 55296) 10) (u2 - 56320)).

Definition cons_chr (c : N) (r : option (str * text)) : option (str * text) :=
  match r with
  | Some (s, rest) => Some (c :: s, rest)
  | None => None
  end.

(** [scanstring(s, end, strict=True)], from the character after the opening
    quote: the string and the input after the closing quote. *)
Fixpoint scanstring (s : text) : option (str * text) :=
  match s with
  | [] => None
  | c :: r =>
      if N.eqb c 34 then Some ([], r)
      else if N.eqb c 92 then
        match r with
        | [] => None
        | e :: r1 =>
            if N.eqb e 117 then
              match r1 with
              | h1 :: h2 :: h3 :: h4 :: r2 =>
                  match hex4 h1 h2 h3 h4 with
                  | None => None
                  | Some u =>
                      match r2 with
                      | b :: x :: k1 :: k2 :: k3 :: k4 :: r3 =>
                          if is_high u && N.eqb b 92 && N.eqb x 117 then
                            match hex4 k1 k2 k3 k4 with
                            | None => None
                            | Some u2 =>
                                if is_low u2
                                then cons_chr (surrogate_pair u u2) (scanstring r3)
                                else cons_chr u (scanstring r2)
                            end
                          else cons_chr u (scanstring r2)
                      | b :: x :: _ =>
                          if is_high u && N.eqb b 92 && N.eqb x 117 then None
                          else cons_chr u (scanstring r2)
                      | _ => cons_chr u (scanstring r2)
                      end
                  end
              | _ => None
              end
            else
              match backslash e with
              | Some c' => cons_chr c' (scanstring r1)
              | None => None
              end
        end
      else if N.ltb c 32 then None
      else cons_chr c (scanstring r)
  end.

Definition digit (c : N) (u : Decimal.uint) : Decimal.uint :=
  match (c - 48) with
  | 0 => Decimal.D0 u
  | 1 => Decimal.D1 u
  | 2 => Decimal.D2 u
  | 3 => Decimal.D3 u
  | 4 => Decimal.D4 u
  | 5 => Decimal.D5 u
  | 6 => Decimal.D6 u
  | 7 => Decimal.D7 u
  | 8 => Decimal.D8 u
  | _ => Decimal.D9 u
  end.

(** The longest run of digits at the head of the input. *)
Fixpoint scan_digits (s : text) : Decimal.uint * text :=
  match s with
  | c :: r =>
      if is_digit c
      then let (u, r') := scan_digits r in (digit c u, r')
      else (Decimal.Nil, s)
  | [] => (Decimal.Nil, [])
  end.

(** The integer group of [NUMBER_RE]: an optional minus sign, then a single
    0 or a run of digits that starts with 1 to 9. *)
Definition match_integer (s : text) : option (Decimal.signed_int * text) :=
  let (sign, s1) :=
    match s with
    | c :: r => if N.eqb c 45 then (Decimal.Neg, r) else (Decimal.Pos, s)
    | [] => (Decimal.Pos, s)
    end in
  match s1 with
  | c :: r =>
      if N.eqb c 48 then Some (sign (Decimal.D0 Decimal.Nil), r)
      else if is_digit c
           then let (u, r') := scan_digits s1 in Some (sign u, r')
           else None
  | [] => None
  end.

(** Whether the fraction or the exponent group of [NUMBER_RE] matches next:
    the number is then a float. *)
Definition float_tail (s : text) : bool :=
  match s with
  | c :: d :: r =>
      if N.eqb c 46 then is_digit d
      else if N.eqb c 101 || N.eqb c 69
           then is_digit d
                || ((N.eqb d 43 || N.eqb d 45)
                    && match r with x :: _ => is_digit x | [] => false end)
           else false
  | _ => false
  end.

(** [s[idx:idx + len(p)] == p], with the input after the match. *)
Fixpoint starts_with (p s : text) : option text :=
  match p, s with
  | [], _ => Some s
  | a :: p', b :: s' => if N.eqb a b then starts_with p' s' else None
  | _ :: _, [] => None
  end.

(** [dict(pairs)]: a repeated key keeps its first place and its last value. *)
Definition dict_of_pairs (pairs : list (str * pyval)) : list (str * pyval) :=
  fold_left (fun d kv => dict_set d (fst kv) (snd kv)) pairs [].

Section Containers.
(** The scanner for the values inside an array or an object. *)
Variable scan_value : text -> scan pyval.

(** The loop of [JSONArray], from the first character of a value. *)
Fixpoint array_loop (n : nat) (s : text) : scan (list pyval) :=
  match n with
  | O => Malformed
  | S n' =>
      match scan_value s with
      | Parsed v r =>
          match skip_ws r with
          | c :: r' =>
              if N.eqb c 93 then Parsed [v] r'
              else if N.eqb c 44 then
                match array_loop n' (skip_ws r') with
                | Parsed vs r'' => Parsed (v :: vs) r''
                | Malformed => Malformed
                | Float => Float
                end
              else Malformed
          | [] => Malformed
          end
      | Malformed => Malformed
      | Float => Float
      end
  end.

(** [JSONArray], from the character after the opening bracket. *)
Definition JSONArray (n : nat) (s : text) : scan pyval :=
  match skip_ws s with
  | c :: r =>
      if N.eqb c 93 then Parsed (PList []) r
      else match array_loop n (c :: r) with
           | Parsed vs r' => Parsed (PList vs) r'
           | Malformed => Malformed
           | Float => Float
           end
  | [] => Malformed
  end.

(** The loop of [JSONObject], from the character after the opening quote
    of a key. *)
Fixpoint object_loop (n : nat) (s : text) : scan (list (str * pyval)) :=
  match n with
  | O => Malformed
  | S n' =>
      match scanstring s with
      | None => Malformed
      | Some (key, r) =>
          match skip_ws r with
          | c :: r1 =>
              if N.eqb c 58 then
                match scan_value (skip_ws r1) with
                | Parsed v r2 =>
                    match skip_ws r2 with
                    | c' :: r3 =>
                        if N.eqb c' 125 then Parsed [(key, v)] r3
                        else if N.eqb c' 44 then
                          match skip_ws r3 with
                          | q :: r4 =>
                              if N.eqb q 34 then
                                match object_loop n' r4 with
                                | Parsed kvs r5 => Parsed ((key, v) :: kvs) r5
                                | Malformed => Malformed
                                | Float => Float
                                end
                              else Malformed
                          | [] => Malformed
                          end
                        else Malformed
                    | [] => Malformed
                    end
                | Malformed => Malformed
                | Float => Float
                end
              else Malformed
          | [] => Malformed
          end
      end
  end.

(** [JSONObject], from the character after the opening brace. *)
Definition JSONObject (n : nat) (s : text) : scan pyval :=
  match skip_ws s with
  | c :: r =>
      if N.eqb c 125 then Parsed (PDict []) r
      else if N.eqb c 34 then
        match object_loop n r with
        | Parsed kvs r' => Parsed (PDict (dict_of_pairs kvs)) r'
        | Malformed => Malformed
        | Float => Float
        end
      else Malformed
  | [] => Malformed
  end.
End Containers.

(** [scan_once(string, idx)] of [json.scanner].  The recursion of the
    scanner is bounded by [fuel]; the length of the input is enough. *)
Fixpoint scan_once (fuel : nat) (s : text) : scan pyval :=
  match fuel with
  | O => Malformed
  | S fuel' =>
      match s with
      | [] => Malformed
      | c :: r =>
          if N.eqb c 34 then
            match scanstring r with
            | Some (x, r') => Parsed (PStr x) r'
            | None => Malformed
            end
          else if N.eqb c 123 then JSONObject (scan_once fuel') fuel' r
          else if N.eqb c 91 then JSONArray (scan_once fuel') fuel' r
          else
            match starts_with (py "null") s with
            | Some r' => Parsed PNone r'
            | None =>
            match starts_with (py "true") s with
            | Some r' => Parsed (PBool true) r'
            | None =>
            match starts_with (py "false") s with
            | Some r' => Parsed (PBool false) r'
            | None =>
            match match_integer s with
            | Some (i, r') =>
                if float_tail r' then Float else Parsed (PInt (Z.of_int i)) r'
            | None =>
                match starts_with (py "NaN") s, starts_with (py "Infinity") s,
                      starts_with (py "-Infinity") s with
                | None, None, None => Malformed
                | _, _, _ => Float
                end
            end end end end
      end
  end.

(** [json.loads(s)]: one value, with white space around it and nothing
    else. *)
Definition json_loads (s : text) : exn + pyval :=
  match scan_once (S (length s)) (skip_ws s) with
  | Parsed v r =>
      match skip_ws r with
      | [] => inr v
      | _ :: _ => inl JSONDecodeError
      end
  | Malformed => inl JSONDecodeError
  | Float => inl FloatLiteral
  end.

(** ** The world of one run

    The backing file, the clock behind [datetime.now()] and the standard
    output.  [self.filename] names the one file of the world. *)

(** The backing file as [os.path.exists], [open] and [read] see it. *)
Inductive fstate : Type :=
| Missing                (* no file of that name *)
| Denied                 (* the path exists; [open] raises [PermissionError] *)
| Garbled                (* a file whose bytes are not valid UTF-8 *)
| Content (t : text).    (* a file that decodes to [t] *)

Inductive icon : Type := Hourglass | Cycle | CheckMark | Memo | Clipboard.

(** The lines the methods print, each with the values its f-string
    interpolates. *)
Inductive line : Type :=
| TaskAdded (id : Z)                      (* Tarea agregada (ID: ...) *)
| TaskUpdated (task_id : Z)               (* Tarea ... actualizada *)
| TaskDeleted (task_id : Z)               (* Tarea ... eliminada *)
| TaskMarked (task_id : Z) (status : str) (* Tarea ... marcada como '...' *)
| TaskNotFound (task_id : Z)              (* Tarea con ID ... no encontrada *)
| InvalidStatus (valid : list str)        (* Estado invalido. Usa: ... *)
| NothingToShow (i : icon)                (* No hay tareas ... *)
| Banner (i : icon)                       (* the three lines of a heading *)
| Row (i : icon) (id description status : pyval)
| Item (i : icon) (id description : pyval)
| Blank
| Usage.                                  (* the help of the parser *)

Record world : Type := {
  disk : fstate;
  clock : nat -> str;     (* the successive readings of the clock *)
  ticks : nat;            (* how many readings were taken *)
  stdout : list line
}.

(** A run ends with a value and a world, or with an uncaught exception,
    after which the process is over. *)
Inductive result (A : Type) : Type :=
| Ok (a : A) (w : world)
| Raise (e : exn).
Arguments Ok {A}.
Arguments Raise {A}.

Definition M (A : Type) : Type := world -> result A.

Definition ret {A} (a : A) : M A := fun w => Ok a w.

Definition bind {A B} (c : M A) (k : A -> M B) : M B :=
  fun w => match c w with
           | Ok a w' => k a w'
           | Raise e => Raise e
           end.

Notation "x <- c ;; k" := (bind c (fun x => k))
  (at level 61, c at next level, right associativity).
Notation "c ;;; k" := (bind c (fun _ => k))
  (at level 61, right associativity).

Definition lift {A} (r : exn + A) : M A :=
  fun w => match r with
           | inr a => Ok a w
           | inl e => Raise e
           end.

(** [try: body except (caught): handler].  The handler starts from the
    world the body started from: the body of the one [try] of the program
    changes nothing before it raises. *)
Definition try_except {A} (body : M A) (caught : exn -> bool) (handler : M A)
  : M A :=
  fun w => match body w with
           | Ok a w' => Ok a w'
           | Raise e => if caught e then handler w else Raise e
           end.

(** [datetime.now().isoformat()] *)
Definition now : M str :=
  fun w => Ok (clock w (ticks w))
              {| disk := disk w; clock := clock w; ticks := S (ticks w);
                 stdout := stdout w |}.

(** The code points UTF-8 encodes: all but the surrogates. *)
Definition encodable (c : N) : bool :=
  N.ltb c 55296 || (N.ltb 57343 c && N.leb c 1114111).

Definition str_ok (s : str) : bool := forallb encodable s.

(** Whether [str(v)] can be written to the output: a string is written as
    it is, any other value by its [repr], which is ASCII. *)
Definition printable (v : pyval) : bool :=
  match v with
  | PStr s => str_ok s
  | _ => true
  end.

Definition line_ok (l : line) : bool :=
  match l with
  | TaskMarked _ status => str_ok status
  | Row _ id description status =>
      printable id && printable description && printable status
  | Item _ id description => printable id && printable description
  | _ => true
  end.

(** [print(...)], the output encoded as UTF-8. *)
Definition print (l : line) : M unit :=
  fun w => if line_ok l
           then Ok tt {| disk := disk w; clock := clock w; ticks := ticks w;
                         stdout := stdout w ++ [l] |}
           else Raise UnicodeEncodeError.

(** [os.path.exists(self.filename)] *)
Definition os_path_exists : M bool :=
  fun w => Ok (match disk w with Missing => false | _ => true end) w.

(** [open(self.filename, 'r', encoding='utf-8')] and [f.read()]. *)
Definition open_read : M text :=
  fun w => match disk w with
           | Missing => Raise FileNotFoundError
           | Denied => Raise PermissionError
           | Garbled => Raise UnicodeDecodeError
           | Content t => Ok t w
           end.

(** [open(self.filename, 'w', encoding='utf-8')] and [f.write(t)]: the file
    is replaced by [t]. *)
Definition open_write (t : text) : M unit :=
  fun w => match disk w with
           | Denied => Raise PermissionError
           | _ =>
               if forallb encodable t
               then Ok tt {| disk := Content t; clock := clock w;
                             ticks := ticks w; stdout := stdout w |}
               else Raise UnicodeEncodeError
           end.

(** [json.load(f)] on the file just opened. *)
Definition json_load : M pyval :=
  t <- open_read ;; lift (json_loads t).

(** [for i, x in enumerate(items): body], where the body may [return]. *)
Fixpoint for_each {R} (body : nat -> pyval -> M (option R)) (i : nat)
  (items : list pyval) : M (option R) :=
  match items with
  | [] => ret None
  | x :: rest =>
      r <- body i x ;;
      match r with
      | Some v => ret (Some v)
      | None => for_each body (S i) rest
      end
  end.

(** ** The [TaskManager] class *)

Record TaskManager : Type := { tasks : pyval }.

Definition caught_by_load (e : exn) : bool :=
  match e with
  | JSONDecodeError | FileNotFoundError => true
  | _ => false
  end.

Definition load_tasks : M pyval :=
  try_except
    (exists_ <- os_path_exists ;;
     if exists_ then json_load else ret (PList []))
    caught_by_load
    (ret (PList [])).

(** [__init__] *)
Definition init : M TaskManager :=
  t <- load_tasks ;; ret {| tasks := t |}.

Definition save_tasks (self : TaskManager) : M unit :=
  open_write (json_dumps (tasks self)).

Definition add_task (self : TaskManager) (description : str) : M TaskManager :=
  n <- lift (py_len (tasks self)) ;;
  created_at <- now ;;
  updated_at <- now ;;
  let task := PDict [ (py "id", PInt (Z.of_nat n + 1));
                      (py "description", PStr description);
                      (py "status", PStr (py "pendiente"));
                      (py "created_at", PStr created_at);
                      (py "updated_at", PStr updated_at) ] in
  tasks' <- lift (append (tasks self) task) ;;
  let self' := {| tasks := tasks' |} in
  save_tasks self' ;;;
  print (TaskAdded (Z.of_nat n + 1)) ;;;
  ret self'.

Fixpoint replace_nth (l : list pyval) (i : nat) (x : pyval) : list pyval :=
  match l, i with
  | [], _ => []
  | _ :: l', O => x :: l'
  | y :: l', S i' => y :: replace_nth l' i' x
  end.

(** The task a loop over a list yields is the list's own item: an
    assignment to one of its keys shows in the list. *)
Definition assigned (v : pyval) (i : nat) (task : pyval) : pyval :=
  match v with
  | PList l => PList (replace_nth l i task)
  | _ => v
  end.

(** [del v[i]] with an int [i]. *)
Definition delitem (v : pyval) (i : nat) : exn + pyval :=
  match v with
  | PList l => inr (PList (del_nth l i))
  | PDict _ => inl KeyError
  | _ => inl TypeError
  end.

Definition update_task (self : TaskManager) (task_id : Z) (description : str)
  : M TaskManager :=
  items <- lift (py_iter (tasks self)) ;;
  r <- for_each (fun i task =>
         id <- lift (getitem task (py "id")) ;;
         if eq_int id task_id then
           task1 <- lift (setitem task (py "description") (PStr description)) ;;
           t <- now ;;
           task2 <- lift (setitem task1 (py "updated_at") (PStr t)) ;;
           let self' := {| tasks := assigned (tasks self) i task2 |} in
           save_tasks self' ;;;
           print (TaskUpdated task_id) ;;;
           ret (Some self')
         else ret None) 0 items ;;
  match r with
  | Some self' => ret self'
  | None => print (TaskNotFound task_id) ;;; ret self
  end.

Definition delete_task (self : TaskManager) (task_id : Z) : M TaskManager :=
  items <- lift (py_iter (tasks self)) ;;
  r <- for_each (fun i task =>
         id <- lift (getitem task (py "id")) ;;
         if eq_int id task_id then
           tasks' <- lift (delitem (tasks self) i) ;;
           let self' := {| tasks := tasks' |} in
           save_tasks self' ;;;
           print (TaskDeleted task_id) ;;;
           ret (Some self')
         else ret None) 0 items ;;
  match r with
  | Some self' => ret self'
  | None => print (TaskNotFound task_id) ;;; ret self
  end.

Definition valid_statuses : list str :=
  [py "pendiente"; py "en_progreso"; py "terminada"].

(** [x in l] for a string [x] and a list [l] of strings. *)
Definition str_in (x : str) (l : list str) : bool :=
  existsb (fun y => str_eqb y x) l.

Definition update_status (self : TaskManager) (task_id : Z) (status : str)
  : M TaskManager :=
  if negb (str_in status valid_statuses) then
    print (InvalidStatus valid_statuses) ;;; ret self
  else
    items <- lift (py_iter (tasks self)) ;;
    r <- for_each (fun i task =>
           id <- lift (getitem task (py "id")) ;;
           if eq_int id task_id then
             task1 <- lift (setitem task (py "status") (PStr status)) ;;
             t <- now ;;
             task2 <- lift (setitem task1 (py "updated_at") (PStr t)) ;;
             let self' := {| tasks := assigned (tasks self) i task2 |} in
             save_tasks self' ;;;
             print (TaskMarked task_id status) ;;;
             ret (Some self')
           else ret None) 0 items ;;
    match r with
    | Some self' => ret self'
    | None => print (TaskNotFound task_id) ;;; ret self
    end.

(** [icons.get(status, default)]: the key must be hashable. *)
Definition _get_status_icon (status : pyval) : exn + icon :=
  match status with
  | PList _ | PDict _ => inl TypeError
  | PStr s =>
      inr (if str_eqb s (py "pendiente") then Hourglass
           else if str_eqb s (py "en_progreso") then Cycle
           else if str_eqb s (py "terminada") then CheckMark
           else Memo)
  | _ => inr Memo
  end.

(** [for x in items: body] *)
Fixpoint for_all (body : pyval -> M unit) (items : list pyval) : M unit :=
  match items with
  | [] => ret tt
  | x :: rest => body x ;;; for_all body rest
  end.

Definition list_all_tasks (self : TaskManager) : M unit :=
  if negb (truthy (tasks self)) then print (NothingToShow Memo)
  else
    print (Banner Clipboard) ;;;
    items <- lift (py_iter (tasks self)) ;;
    for_all (fun task =>
      status <- lift (getitem task (py "status")) ;;
      status_icon <- lift (_get_status_icon status) ;;
      id <- lift (getitem task (py "id")) ;;
      description <- lift (getitem task (py "description")) ;;
      status' <- lift (getitem task (py "status")) ;;
      print (Row status_icon id description status')) items ;;;
    print Blank.

(** [[task for task in items if task["status"] == status]] *)
Fixpoint with_status (status : str) (items : list pyval) : exn + list pyval :=
  match items with
  | [] => inr []
  | task :: rest =>
      match getitem task (py "status") with
      | inl e => inl e
      | inr s =>
          match with_status status rest with
          | inl e => inl e
          | inr found => inr (if eq_str s status then task :: found else found)
          end
      end
  end.

(** The body the three listings by status share: the status compared and
    the icon printed are all that differ. *)
Definition list_tasks_with (status : str) (i : icon) (self : TaskManager)
  : M unit :=
  items <- lift (py_iter (tasks self)) ;;
  found <- lift (with_status status items) ;;
  if negb (truthy (PList found)) then print (NothingToShow i)
  else
    print (Banner i) ;;;
    for_all (fun task =>
      id <- lift (getitem task (py "id")) ;;
      description <- lift (getitem task (py "description")) ;;
      print (Item i id description)) found ;;;
    print Blank.

Definition list_in_progress_tasks : TaskManager -> M unit :=
  list_tasks_with (py "en_progreso") Cycle.

Definition list_pending_tasks : TaskManager -> M unit :=
  list_tasks_with (py "pendiente") Hourglass.

Definition list_completed_tasks : TaskManager -> M unit :=
  list_tasks_with (py "terminada") CheckMark.

(** ** The command line

    [main]: every run of the program builds a [TaskManager] from the file
    and calls one method. *)

(** The choices of the argument [estado]. *)
Inductive estado : Type := Pendiente | EnProgreso | Terminada.

Definition estado_str (e : estado) : str :=
  match e with
  | Pendiente => py "pendiente"
  | EnProgreso => py "en_progreso"
  | Terminada => py "terminada"
  end.

(** The arguments as [parser.parse_args()] returns them. *)
Inductive command : Type :=
| Agregar (descripcion : str)
| Actualizar (id : Z) (descripcion : str)
| Eliminar (id : Z)
| Estado (id : Z) (e : estado)
| Listar
| Pendientes
| EnProgresoCmd
| Terminadas
| NoCommand.

Definition main (args : command) : M unit :=
  task_manager <- init ;;
  match args with
  | Agregar d => add_task task_manager d ;;; ret tt
  | Actualizar i d => update_task task_manager i d ;;; ret tt
  | Eliminar i => delete_task task_manager i ;;; ret tt
  | Estado i e => update_status task_manager i (estado_str e) ;;; ret tt
  | Listar => list_all_tasks task_manager
  | Pendientes => list_pending_tasks task_manager
  | EnProgresoCmd => list_in_progress_tasks task_manager
  | Terminadas => list_completed_tasks task_manager
  | NoCommand => print Usage
  end.

(** One process after the other on the same file. *)
Fixpoint invoke (cmds : list command) : M unit :=
  match cmds with
  | [] => ret tt
  | c :: rest => main c ;;; invoke rest
  end.

(** ** Well-formed values

    A Python dict holds each key once; the association lists that stand
    for dicts are the ones with distinct keys. *)

Fixpoint distinct (ks : list str) : bool :=
  match ks with
  | [] => true
  | k :: r => negb (str_in k r) && distinct r
  end.

Fixpoint well_formed (v : pyval) : bool :=
  match v with
  | PList l => forallb well_formed l
  | PDict d => distinct (map fst d) && forallb (fun kv => well_formed (snd kv)) d
  | _ => true
  end.

(** What may follow a value in a document: the end, white space, a comma or
    a closing bracket. *)
Definition delimited (rest : text) : bool :=
  match rest with
  | [] => true
  | c :: _ => is_ws c || N.eqb c 44 || N.eqb c 93 || N.eqb c 125
  end.

(** ** Stores and runs *)

(** The store before the first task: what [load_tasks] gives when there is
    no file. *)
Definition empty_store : TaskManager := {| tasks := PList [] |}.

(** The operations that change the store. *)
Inductive op : Type :=
| Add (description : str)
| UpdateDescription (task_id : Z) (description : str)
| UpdateStatus (task_id : Z) (status : str)
| Delete (task_id : Z).

Definition step (self : TaskManager) (o : op) : M TaskManager :=
  match o with
  | Add d => add_task self d
  | UpdateDescription i d => update_task self i d
  | UpdateStatus i s => update_status self i s
  | Delete i => delete_task self i
  end.

(** The operations of a list, one after the other on the same object. *)
Fixpoint run (ops : list op) (self : TaskManager) : M TaskManager :=
  match ops with
  | [] => ret self
  | o :: rest => self' <- step self o ;; run rest self'
  end.

(** The command that calls each operation. *)
Definition op_of (c : command) : option op :=
  match c with
  | Agregar d => Some (Add d)
  | Actualizar i d => Some (UpdateDescription i d)
  | Eliminar i => Some (Delete i)
  | Estado i e => Some (UpdateStatus i (estado_str e))
  | _ => None
  end.

(** The commands that show something and call no operation. *)
Definition shows_only (c : command) : bool :=
  match c with
  | Listar | Pendientes | EnProgresoCmd | Terminadas | NoCommand => true
  | _ => false
  end.

Definition is_add (o : op) : bool :=
  match o with Add _ => true | _ => false end.

(** How many of the operations are [add_task]. *)
Definition adds (ops : list op) : nat := length (filter is_add ops).

(** The value under ["id"] of each item of the store, in order; [None]
    for an item that has none. *)
Definition id_of (task : pyval) : option pyval :=
  match getitem task (py "id") with
  | inr v => Some v
  | inl _ => None
  end.

Definition store_ids (self : TaskManager) : list (option pyval) :=
  match tasks self with
  | PList l => map id_of l
  | _ => []
  end.

(** The ints [1; ...; n]. *)
Definition ids_upto (n : nat) : list Z := map Z.of_nat (seq 1 n).

(** The task [add_task] builds for a store of [n] items. *)
Definition new_task (n : nat) (description created_at updated_at : str)
  : pyval :=
  PDict [ (py "id", PInt (Z.of_nat n + 1));
          (py "description", PStr description);
          (py "status", PStr (py "pendiente"));
          (py "created_at", PStr created_at);
          (py "updated_at", PStr updated_at) ].

(** A task of the data model: a dict with an int under ["id"] and strings
    under the four other keys. *)
Definition is_int (v : option pyval) : bool :=
  match v with Some (PInt _) => true | _ => false end.

Definition is_str (v : option pyval) : bool :=
  match v with Some (PStr _) => true | _ => false end.

Definition is_task (task : pyval) : bool :=
  match task with
  | PDict d =>
      is_int (dict_get d (py "id"))
      && is_str (dict_get d (py "description"))
      && is_str (dict_get d (py "status"))
      && is_str (dict_get d (py "created_at"))
      && is_str (dict_get d (py "updated_at"))
  | _ => false
  end.

(** [task["id"] == task_id], false for an item without the key. *)
Definition has_id (task_id : Z) (task : pyval) : bool :=
  match getitem task (py "id") with
  | inr v => eq_int v task_id
  | inl _ => false
  end.

(** [task["status"] == status], false for an item without the key. *)
Definition has_status (status : str) (task : pyval) : bool :=
  match getitem task (py "status") with
  | inr v => eq_str v status
  | inl _ => false
  end.

(** A task whose status is one of the three of [valid_statuses]. *)
Definition valid_status (task : pyval) : bool :=
  existsb (fun status => has_status status task) valid_statuses.

(** A store of the data model: a list of tasks, each with a valid
    status. *)
Definition task_list (v : pyval) : bool :=
  match v with
  | PList l => forallb (fun task => is_task task && valid_status task) l
  | _ => false
  end.

(** A task whose id is an int from 1 to [n]. *)
Definition id_within (n : nat) (task : pyval) : bool :=
  match id_of task with
  | Some (PInt z) => (1 <=? z)%Z && (z <=? Z.of_nat n)%Z
  | _ => false
  end.

(** A list of at most [n] tasks with ids from 1 to [n]. *)
Definition ids_within (n : nat) (v : pyval) : bool :=
  match v with
  | PList l => Nat.leb (length l) n && forallb (id_within n) l
  | _ => false
  end.

(** ** What can be written

    [f.write] encodes its text as UTF-8: every string of the value has to
    be free of surrogates. *)

Fixpoint storable (v : pyval) : bool :=
  match v with
  | PStr s => str_ok s
  | PList l => forallb storable l
  | PDict d => forallb (fun kv => str_ok (fst kv) && storable (snd kv)) d
  | _ => true
  end.

Definition writable (w : world) : bool :=
  match disk w with Denied => false | _ => true end.

(** The world after one more line of output. *)
Definition printed (w : world) (l : line) : world :=
  {| disk := disk w; clock := clock w; ticks := ticks w;
     stdout := stdout w ++ [l] |}.

(** The world after the file is replaced by the document of [v]. *)
Definition saved (w : world) (v : pyval) : world :=
  {| disk := Content (json_dumps v); clock := clock w; ticks := ticks w;
     stdout := stdout w |}.

(** The world after [n] more readings of the clock. *)
Definition later (w : world) (n : nat) : world :=
  {| disk := disk w; clock := clock w; ticks := n + ticks w;
     stdout := stdout w |}.

(** The file a store of the items [l] leaves; none before the first
    task. *)
Definition file_of (l : list pyval) (d : fstate) : Prop :=
  (l = [] /\ d = Missing) \/ d = Content (json_dumps (PList l)).

(** ** Worlds and files of the examples *)

(** A clock that advances by a microsecond at each reading. *)
Definition counting_clock (n : nat) : str :=
  py "2025-01-01T09:00:00." ++ int_repr (100000 + Z.of_nat n)%Z.

Definition world_with (d : fstate) : world :=
  {| disk := d; clock := counting_clock; ticks := 0; stdout := [] |}.

(** ** What the listings show *)

(** [task[k]], [None] standing for a key the task does not have. *)
Definition field (task : pyval) (k : string) : pyval :=
  match getitem task (py k) with
  | inr v => v
  | inl _ => PNone
  end.

Definition status_icon (status : pyval) : icon :=
  match _get_status_icon status with
  | inr i => i
  | inl _ => Memo
  end.

(** The line of [list_all_tasks] for a task. *)
Definition row_line (task : pyval) : line :=
  Row (status_icon (field task "status")) (field task "id")
    (field task "description") (field task "status").

(** The line of a listing by status for a task. *)
Definition item_line (i : icon) (task : pyval) : line :=
  Item i (field task "id") (field task "description").

(** The lines a listing prints for the tasks it found. *)
Definition listing (i heading : icon) (lines : list line) : list line :=
  match lines with
  | [] => [NothingToShow i]
  | _ :: _ => Banner heading :: lines ++ [Blank]
  end.

(** The world after more lines of output. *)
Definition output (w : world) (ls : list line) : world :=
  {| disk := disk w; clock := clock w; ticks := ticks w;
     stdout := stdout w ++ ls |}.

(** A row of [list_all_tasks] read as a line of a listing by status. *)
Definition row_status_is (status : str) (l : line) : bool :=
  match l with
  | Row _ _ _ s => eq_str s status
  | _ => false
  end.

Definition row_as_item (i : icon) (l : line) : line :=
  match l with
  | Row _ id description _ => Item i id description
  | _ => l
  end.

(** The tasks [add_task] appends for the descriptions [ds], from a store of
    [n] items and a clock read [t] times. *)
Fixpoint added (clk : nat -> str) (n t : nat) (ds : list str) : list pyval :=
  match ds with
  | [] => []
  | d :: rest =>
      new_task n d (clk t) (clk (S t)) :: added clk (S n) (S (S t)) rest
  end.

(** ** Induction on values

    The induction principle that reaches the values inside lists and
    dicts. *)

Section PyvalInd.
Variable P : pyval -> Prop.
Hypothesis HNone : P PNone.
Hypothesis HBool : forall b, P (PBool b).
Hypothesis HInt : forall z, P (PInt z).
Hypothesis HStr : forall s, P (PStr s).
Hypothesis HList : forall l, Forall P l -> P (PList l).
Hypothesis HDict : forall d, Forall (fun kv => P (snd kv)) d -> P (PDict d).

Fixpoint pyval_ind' (v : pyval) : P v :=
  match v with
  | PNone => HNone
  | PBool b => HBool b
  | PInt z => HInt z
  | PStr s => HStr s
  | PList l =>
      HList l ((fix all (l : list pyval) : Forall P l :=
                match l with
                | [] => Forall_nil _
                | x :: l' => Forall_cons x (pyval_ind' x) (all l')
                end) l)
  | PDict d =>
      HDict d ((fix all (d : list (str * pyval))
                : Forall (fun kv => P (snd kv)) d :=
                match d with
                | [] => Forall_nil _
                | kv :: d' => Forall_cons kv (pyval_ind' (snd kv)) (all d')
                end) d)
  end.
End PyvalInd.

(** ** Statements about the decoder *)

(** An encoded value starts with a character that is neither white space
    nor a closing bracket. *)
Definition value_head (s : text) : Prop :=
  exists c r, s = c :: r /\ is_ws c = false /\ N.eqb c 93 = false.

(** The scanner reads the value back from what the encoder wrote for it,
    whatever the indentation level and whatever delimited text follows. *)
Definition round_trips (v : pyval) : Prop :=
  forall level rest fuel,
    delimited rest = true ->
    (length (encode level v ++ rest) < fuel)%nat ->
    scan_once fuel (encode level v ++ rest) = Parsed v rest.

(** A scanner that consumes input: what is left is shorter. *)
Definition consumes (scan_value : text -> scan pyval) : Prop :=
  forall s v r, scan_value s = Parsed v r -> (length r < length s)%nat.

(** What follows the value of a member in the document of a dict: the end
    of the object, or a separator and the members left. *)
Definition members_tail (level : nat) (rest : text) (d : list (str * pyval))
  : text :=
  match d with
  | [] => newline_indent level ++ 125 :: rest
  | _ :: _ =>
      (44 :: newline_indent (S level))
        ++ join (44 :: newline_indent (S level))
             (map (fun kv => encode_basestring (fst kv) ++ py ": "
                               ++ encode (S level) (snd kv)) d)
        ++ newline_indent level ++ 125 :: rest
  end.

(** ** The loop of the two updates

    [update_task] and [update_status] run the same loop: the key
    assigned, its value and the line printed are all that differ. *)

Definition assign_to_task (self : TaskManager) (task_id : Z) (key : str)
  (x : pyval) (done : line) : M TaskManager :=
  items <- lift (py_iter (tasks self)) ;;
  r <- for_each (fun i task =>
         id <- lift (getitem task (py "id")) ;;
         if eq_int id task_id then
           task1 <- lift (setitem task key x) ;;
           t <- now ;;
           task2 <- lift (setitem task1 (py "updated_at") (PStr t)) ;;
           let self' := {| tasks := assigned (tasks self) i task2 |} in
           save_tasks self' ;;;
           print done ;;;
           ret (Some self')
         else ret None) 0 items ;;
  match r with
  | Some self' => ret self'
  | None => print (TaskNotFound task_id) ;;; ret self
  end.

(** ** Stores of the examples *)

Definition sample_store : TaskManager :=
  {| tasks := PList [new_task 0 (py "buy milk") (counting_clock 0)
                       (counting_clock 1)] |}.

(** Three tasks, the second deleted, then one more. *)
Definition reuse_ops : list op :=
  [Add (py "a"); Add (py "b"); Add (py "c"); Delete 2; Add (py "d")].

(** A task with its status replaced. *)
Definition marked (task : pyval) (status : str) : pyval :=
  match setitem task (py "status") (PStr status) with
  | inr task' => task'
  | inl _ => task
  end.

Definition mixed_tasks : list pyval :=
  [ new_task 0 (py "buy milk") (counting_clock 0) (counting_clock 1);
    marked (new_task 1 (py "walk the dog") (counting_clock 2)
              (counting_clock 3)) (py "en_progreso");
    marked (new_task 2 (py "pay rent") (counting_clock 4) (counting_clock 5))
      (py "terminada");
    new_task 3 (py "call home") (counting_clock 6) (counting_clock 7) ].

(** Two task records with the same id, as a hand-edited file may hold. *)
Definition twin_tasks : pyval :=
  PList [ new_task 0 (py "buy milk") (counting_clock 0) (counting_clock 1);
          new_task 0 (py "walk the dog") (counting_clock 2)
            (counting_clock 3) ].

(** * Proofs *)

#[local] Arguments newline_indent : simpl never.

(** ** Strings *)

Lemma str_eqb_refl (s : str) : str_eqb s s = true.
Proof. induction s as [|c s IH]; simpl; [reflexivity|]. now rewrite N.eqb_refl. Qed.

Lemma str_eqb_eq (a b : str) : str_eqb a b = true <-> a = b.
Proof.
  split.
  - revert b. induction a as [|x a IH]; intros [|y b] H; simpl in H;
      try discriminate; [reflexivity|].
    apply andb_true_iff in H. destruct H as [Hx Hs].
    apply N.eqb_eq in Hx. subst y. f_equal. now apply IH.
  - intros ->. apply str_eqb_refl.
Qed.

Lemma str_in_In (x : str) (l : list str) : str_in x l = true <-> In x l.
Proof.
  unfold str_in. rewrite existsb_exists. split.
  - intros [y [Hy E]]. apply str_eqb_eq in E. now subst.
  - intros H. exists x. split; [assumption | apply str_eqb_refl].
Qed.

Lemma distinct_NoDup (l : list str) : distinct l = true <-> NoDup l.
Proof.
  induction l as [|k l IH]; simpl.
  - split; [constructor | reflexivity].
  - rewrite andb_true_iff, negb_true_iff, IH. split.
    + intros [Hk Hl]. constructor; [|assumption].
      intro Hin. apply str_in_In in Hin. congruence.
    + intros H. inversion H as [|? ? Hk Hl]; subst. split; [|assumption].
      destruct (str_in k l) eqn:E; [|reflexivity].
      apply str_in_In in E. contradiction.
Qed.

(** ** Dicts *)

Lemma dict_set_fresh (d : list (str * pyval)) (k : str) (v : pyval) :
  ~ In k (map fst d) -> dict_set d k v = d ++ [(k, v)].
Proof.
  induction d as [|[k' v'] d IH]; simpl; intros H; [reflexivity|].
  destruct (str_eqb k' k) eqn:E.
  - apply str_eqb_eq in E. tauto.
  - rewrite IH; tauto.
Qed.

Lemma fold_dict_set (kvs acc : list (str * pyval)) :
  NoDup (map fst (acc ++ kvs)) ->
  fold_left (fun d kv => dict_set d (fst kv) (snd kv)) kvs acc = acc ++ kvs.
Proof.
  revert acc. induction kvs as [|[k v] kvs IH]; intros acc H; simpl.
  - now rewrite app_nil_r.
  - rewrite dict_set_fresh.
    + rewrite IH; rewrite <- app_assoc; [reflexivity | exact H].
    + rewrite map_app in H. simpl in H. apply NoDup_remove_2 in H.
      intro Hin. apply H. apply in_or_app. now left.
Qed.

Lemma dict_of_pairs_distinct (kvs : list (str * pyval)) :
  distinct (map fst kvs) = true -> dict_of_pairs kvs = kvs.
Proof.
  intros H. apply distinct_NoDup in H. unfold dict_of_pairs.
  now rewrite fold_dict_set.
Qed.

(** ** White space *)

Lemma skip_ws_spaces (n : nat) (s : text) : skip_ws (repeat 32 n ++ s) = skip_ws s.
Proof. induction n as [|n IH]; simpl; [reflexivity | exact IH]. Qed.

Lemma skip_ws_newline_indent (level : nat) (s : text) :
  skip_ws (newline_indent level ++ s) = skip_ws s.
Proof. unfold newline_indent. simpl. apply skip_ws_spaces. Qed.

Lemma skip_ws_head (c : N) (s : text) : is_ws c = false -> skip_ws (c :: s) = c :: s.
Proof. intros H. simpl. now rewrite H. Qed.

(** ** Strings of the encoder *)

Lemma below_32 (c : N) :
  c < 32 ->
  c = 0 \/ c = 1 \/ c = 2 \/ c = 3 \/ c = 4 \/ c = 5 \/ c = 6 \/ c = 7 \/
  c = 8 \/ c = 9 \/ c = 10 \/ c = 11 \/ c = 12 \/ c = 13 \/ c = 14 \/ c = 15 \/
  c = 16 \/ c = 17 \/ c = 18 \/ c = 19 \/ c = 20 \/ c = 21 \/ c = 22 \/ c = 23 \/
  c = 24 \/ c = 25 \/ c = 26 \/ c = 27 \/ c = 28 \/ c = 29 \/ c = 30 \/ c = 31.
Proof. lia. Qed.

Lemma scanstring_escape (c : N) (r : text) :
  scanstring (escape_char c ++ r) = cons_chr c (scanstring r).
Proof.
  unfold escape_char.
  destruct (N.eqb c 92) eqn:E92; [apply N.eqb_eq in E92; subst; reflexivity|].
  destruct (N.eqb c 34) eqn:E34; [apply N.eqb_eq in E34; subst; reflexivity|].
  destruct (N.eqb c 8) eqn:E8; [apply N.eqb_eq in E8; subst; reflexivity|].
  destruct (N.eqb c 12) eqn:E12; [apply N.eqb_eq in E12; subst; reflexivity|].
  destruct (N.eqb c 10) eqn:E10; [apply N.eqb_eq in E10; subst; reflexivity|].
  destruct (N.eqb c 13) eqn:E13; [apply N.eqb_eq in E13; subst; reflexivity|].
  destruct (N.eqb c 9) eqn:E9; [apply N.eqb_eq in E9; subst; reflexivity|].
  destruct (N.ltb c 32) eqn:E32.
  - apply N.ltb_lt in E32. apply below_32 in E32.
    repeat (destruct E32 as [E32|E32]; [subst c; try discriminate;
      destruct r as [|b [|x [|k1 [|k2 [|k3 [|k4 r3]]]]]]; reflexivity|]).
    subst c; destruct r as [|b [|x [|k1 [|k2 [|k3 [|k4 r3]]]]]]; reflexivity.
  - simpl. now rewrite E34, E92, E32.
Qed.

Lemma scanstring_encode (s : str) (rest : text) :
  scanstring (flat_map escape_char s ++ 34 :: rest) = Some (s, rest).
Proof.
  induction s as [|c s IH]; simpl; [reflexivity|].
  rewrite <- app_assoc, scanstring_escape, IH. reflexivity.
Qed.

(** ** Integers of the encoder *)

Lemma delimited_not_digit (rest : text) :
  delimited rest = true -> scan_digits rest = (Decimal.Nil, rest).
Proof.
  destruct rest as [|c r]; [reflexivity|]. simpl. intros H.
  destruct (is_digit c) eqn:D; [|reflexivity].
  unfold is_digit in D. unfold is_ws in H.
  apply andb_true_iff in D. destruct D as [D1 D2].
  apply N.leb_le in D1, D2.
  repeat (apply orb_true_iff in H; destruct H as [H|H]);
    apply N.eqb_eq in H; lia.
Qed.

Lemma delimited_not_float (rest : text) :
  delimited rest = true -> float_tail rest = false.
Proof.
  destruct rest as [|c [|d r]]; try reflexivity. simpl. intros H.
  unfold is_ws in H.
  assert (c = 32 \/ c = 9 \/ c = 10 \/ c = 13 \/ c = 44 \/ c = 93 \/ c = 125)
    as Hc.
  { repeat (apply orb_true_iff in H; destruct H as [H|H]);
      apply N.eqb_eq in H; tauto. }
  repeat (destruct Hc as [Hc|Hc]; [subst c; reflexivity|]).
  subst c; reflexivity.
Qed.

Lemma scan_digits_chars (u : Decimal.uint) (rest : text) :
  delimited rest = true ->
  scan_digits (uint_chars u ++ rest) = (u, rest).
Proof.
  intros H. induction u; simpl;
    try (rewrite IHu; reflexivity).
  now apply delimited_not_digit.
Qed.

Lemma to_uint_head (p : positive) :
  match Pos.to_uint p with
  | Decimal.Nil | Decimal.D0 _ => False
  | _ => True
  end.
Proof.
  pose proof (DecimalPos.Unsigned.to_uint_nonnil p) as Hnil.
  pose proof (DecimalPos.Unsigned.to_uint_nonzero p) as Hzero.
  pose proof (DecimalN.Unsigned.to_of (Pos.to_uint p)) as Hn.
  rewrite DecimalPos.Unsigned.of_to in Hn. simpl in Hn.
  destruct (Pos.to_uint p) as [|u| | | | | | | | |] eqn:E; try exact I.
  - congruence.
  - unfold Decimal.unorm in Hn. rewrite DecimalFacts.nzhead_D0 in Hn.
    pose proof (DecimalFacts.nzhead_nonzero u) as Hnz.
    destruct (Decimal.nzhead u) eqn:En;
      try (injection Hn as Hn; congruence);
      try discriminate.
Qed.

Lemma match_integer_repr (z : Z) (rest : text) :
  delimited rest = true ->
  match_integer (int_repr z ++ rest) = Some (Z.to_int z, rest).
Proof.
  intros H. unfold int_repr.
  destruct z as [|p|p]; simpl Z.to_int.
  - reflexivity.
  - pose proof (to_uint_head p) as Hh.
    destruct (Pos.to_uint p) eqn:E; try contradiction;
      unfold match_integer; simpl; rewrite scan_digits_chars by assumption;
      reflexivity.
  - pose proof (to_uint_head p) as Hh.
    destruct (Pos.to_uint p) eqn:E; try contradiction;
      unfold match_integer; simpl; rewrite scan_digits_chars by assumption;
      reflexivity.
Qed.

Lemma scan_once_int (z : Z) (rest : text) (fuel : nat) :
  delimited rest = true ->
  scan_once (S fuel) (int_repr z ++ rest) = Parsed (PInt z) rest.
Proof.
  intros H.
  pose proof (match_integer_repr z rest H) as Hm.
  pose proof (DecimalZ.of_to z) as Hz.
  pose proof (delimited_not_float _ H) as Hf.
  unfold int_repr in *.
  destruct z as [|p|p]; simpl Z.to_int in *.
  - simpl in *. rewrite Hf. reflexivity.
  - pose proof (to_uint_head p) as Hh.
    destruct (Pos.to_uint p) eqn:E; try contradiction;
      simpl uint_chars in *; simpl app in *;
      unfold scan_once; simpl N.eqb; cbv iota;
      simpl starts_with; cbv iota; rewrite Hm, Hf, Hz; reflexivity.
  - pose proof (to_uint_head p) as Hh.
    simpl app in *.
    unfold scan_once; simpl N.eqb; cbv iota;
      simpl starts_with; cbv iota; rewrite Hm, Hf, Hz; reflexivity.
Qed.

(** ** The first character of an encoded value *)

Lemma encode_head (level : nat) (v : pyval) : value_head (encode level v).
Proof.
  unfold value_head.
  destruct v as [|[|]|z|s|[|x l]|[|kv d]]; simpl;
    try (eexists; eexists; split; [reflexivity | split; reflexivity]).
  unfold int_repr. destruct z as [|p|p]; simpl;
    try (eexists; eexists; split; [reflexivity | split; reflexivity]).
  pose proof (to_uint_head p) as Hh.
  destruct (Pos.to_uint p); try contradiction; simpl;
    eexists; eexists; (split; [reflexivity | split; reflexivity]).
Qed.

Lemma skip_ws_value (s rest : text) :
  value_head s -> skip_ws (s ++ rest) = s ++ rest.
Proof.
  intros (c & r & -> & Hw & _). simpl. now rewrite Hw.
Qed.

Lemma join_cons2 (sep c c' : text) (cs : list text) :
  join sep (c :: c' :: cs) = c ++ sep ++ join sep (c' :: cs).
Proof. reflexivity. Qed.

Lemma join_head (sep : text) (f : pyval -> text) (x : pyval) (l : list pyval) :
  value_head (f x) -> value_head (join sep (map f (x :: l))).
Proof.
  intros (c & r & E & Hw & Hb). unfold value_head.
  destruct l as [|y l]; simpl; rewrite E; simpl; eauto.
Qed.

(** ** The decoder reads what the encoder writes *)

Lemma scan_once_array (f : nat) (r : text) :
  scan_once (S f) (91 :: r) = JSONArray (scan_once f) f r.
Proof. reflexivity. Qed.

Lemma scan_once_object (f : nat) (r : text) :
  scan_once (S f) (123 :: r) = JSONObject (scan_once f) f r.
Proof. reflexivity. Qed.

Lemma array_loop_step (scan_value : text -> scan pyval) (n : nat) (s : text) :
  array_loop scan_value (S n) s =
  match scan_value s with
  | Parsed v r =>
      match skip_ws r with
      | c :: r' =>
          if N.eqb c 93 then Parsed [v] r'
          else if N.eqb c 44 then
            match array_loop scan_value n (skip_ws r') with
            | Parsed vs r'' => Parsed (v :: vs) r''
            | Malformed => Malformed
            | Float => Float
            end
          else Malformed
      | [] => Malformed
      end
  | Malformed => Malformed
  | Float => Float
  end.
Proof. reflexivity. Qed.

Ltac lengths :=
  repeat (progress (repeat rewrite length_app in *; cbn [length] in *)).

Lemma array_loop_encode (level : nat) (rest : text) (f : nat) (l : list pyval) :
  l <> [] ->
  Forall round_trips l ->
  forall n,
    let input := join (44 :: newline_indent (S level)) (map (encode (S level)) l)
                   ++ newline_indent level ++ 93 :: rest in
    (length input < n)%nat ->
    (length input < f)%nat ->
    array_loop (scan_once f) n input = Parsed l rest.
Proof.
  induction l as [|x l IH]; [congruence|].
  intros _ HF n input Hn Hf. subst input.
  inversion HF as [|? ? Hx Hl]; subst.
  destruct n as [|n]; [inversion Hn|].
  destruct l as [|y l].
  - simpl join in *. rewrite array_loop_step.
    rewrite Hx; [|reflexivity|exact Hf].
    rewrite skip_ws_newline_indent. simpl. reflexivity.
  - simpl map in *. rewrite join_cons2 in *.
    repeat rewrite <- app_assoc in *.
    rewrite array_loop_step.
    rewrite Hx; [|reflexivity|exact Hf].
    change ((44 :: newline_indent (S level)) ++ ?t)
      with (44 :: (newline_indent (S level) ++ t)).
    rewrite skip_ws_head by reflexivity.
    change (N.eqb 44 93) with false. change (N.eqb 44 44) with true.
    cbv iota.
    rewrite skip_ws_newline_indent.
    rewrite skip_ws_value by (apply join_head, encode_head).
    rewrite IH; [reflexivity|discriminate|assumption| |].
    + lengths. lia.
    + lengths. lia.
Qed.

Lemma object_loop_step (scan_value : text -> scan pyval) (n : nat) (s : text) :
  object_loop scan_value (S n) s =
  match scanstring s with
  | None => Malformed
  | Some (key, r) =>
      match skip_ws r with
      | c :: r1 =>
          if N.eqb c 58 then
            match scan_value (skip_ws r1) with
            | Parsed v r2 =>
                match skip_ws r2 with
                | c' :: r3 =>
                    if N.eqb c' 125 then Parsed [(key, v)] r3
                    else if N.eqb c' 44 then
                      match skip_ws r3 with
                      | q :: r4 =>
                          if N.eqb q 34 then
                            match object_loop scan_value n r4 with
                            | Parsed kvs r5 => Parsed ((key, v) :: kvs) r5
                            | Malformed => Malformed
                            | Float => Float
                            end
                          else Malformed
                      | [] => Malformed
                      end
                    else Malformed
                | [] => Malformed
                end
            | Malformed => Malformed
            | Float => Float
            end
          else Malformed
      | [] => Malformed
      end
  end.
Proof. reflexivity. Qed.

Lemma members_unfold (level : nat) (rest : text) (k : str) (v : pyval)
  (d : list (str * pyval)) :
  join (44 :: newline_indent (S level))
    (map (fun kv => encode_basestring (fst kv) ++ py ": "
                      ++ encode (S level) (snd kv)) ((k, v) :: d))
    ++ newline_indent level ++ 125 :: rest =
  34 :: flat_map escape_char k
     ++ 34 :: 58 :: 32 :: encode (S level) v ++ members_tail level rest d.
Proof.
  destruct d as [|kv d].
  - cbn [map]. cbn [join].
    unfold encode_basestring, members_tail. cbn [fst snd].
    repeat rewrite <- app_assoc. repeat rewrite <- app_comm_cons.
    repeat rewrite <- app_assoc. reflexivity.
  - cbn [map]. rewrite join_cons2.
    unfold members_tail. cbn [map fst snd].
    unfold encode_basestring at 1.
    repeat rewrite <- app_assoc. repeat rewrite <- app_comm_cons.
    repeat rewrite <- app_assoc. reflexivity.
Qed.

Lemma members_tail_delimited (level : nat) (rest : text)
  (d : list (str * pyval)) :
  delimited (members_tail level rest d) = true.
Proof. destruct d; reflexivity. Qed.

Lemma object_loop_encode (level : nat) (rest : text) (f : nat)
  (d : list (str * pyval)) :
  Forall (fun kv => round_trips (snd kv)) d ->
  forall k v n,
    round_trips v ->
    let input := flat_map escape_char k
                   ++ 34 :: 58 :: 32 :: encode (S level) v
                   ++ members_tail level rest d in
    (length input < n)%nat ->
    (length input < f)%nat ->
    object_loop (scan_once f) n input = Parsed ((k, v) :: d) rest.
Proof.
  induction d as [|[k' v'] d IH]; intros HF k v n Hv input Hn Hf;
    subst input; (destruct n as [|n]; [inversion Hn|]);
    rewrite object_loop_step, scanstring_encode;
    rewrite skip_ws_head by reflexivity;
    change (N.eqb 58 58) with true; cbv iota;
    change (skip_ws (32 :: ?t)) with (skip_ws t);
    rewrite skip_ws_value by apply encode_head;
    (rewrite Hv; [|apply members_tail_delimited|lengths; lia]).
  - unfold members_tail. rewrite skip_ws_newline_indent.
    reflexivity.
  - inversion HF as [|? ? Hv' Hd]; subst. cbn [snd] in Hv'.
    unfold members_tail at 1.
    change ((44 :: newline_indent (S level)) ++ ?t)
      with (44 :: (newline_indent (S level) ++ t)).
    rewrite skip_ws_head by reflexivity.
    change (N.eqb 44 125) with false. change (N.eqb 44 44) with true.
    cbv iota.
    rewrite skip_ws_newline_indent, members_unfold.
    rewrite skip_ws_head by reflexivity.
    change (N.eqb 34 34) with true. cbv iota.
    rewrite IH; [reflexivity|assumption|assumption| |].
    + unfold members_tail at 1 in Hn. rewrite members_unfold in Hn.
      lengths. lia.
    + unfold members_tail at 1 in Hf. rewrite members_unfold in Hf.
      lengths. lia.
Qed.

Lemma encode_list_cons (level : nat) (x : pyval) (l : list pyval) :
  encode level (PList (x :: l)) =
  91 :: newline_indent (S level)
     ++ join (44 :: newline_indent (S level)) (map (encode (S level)) (x :: l))
     ++ newline_indent level ++ [93].
Proof. reflexivity. Qed.

Lemma encode_dict_cons (level : nat) (kv : str * pyval) (d : list (str * pyval)) :
  encode level (PDict (kv :: d)) =
  123 :: newline_indent (S level)
      ++ join (44 :: newline_indent (S level))
           (map (fun kv => encode_basestring (fst kv) ++ py ": "
                             ++ encode (S level) (snd kv)) (kv :: d))
      ++ newline_indent level ++ [125].
Proof. reflexivity. Qed.

Lemma well_formed_list (l : list pyval) :
  well_formed (PList l) = true <-> Forall (fun v => well_formed v = true) l.
Proof.
  change (well_formed (PList l)) with (forallb well_formed l).
  rewrite forallb_forall, Forall_forall. reflexivity.
Qed.

Lemma well_formed_dict (d : list (str * pyval)) :
  well_formed (PDict d) = true <->
  NoDup (map fst d) /\ Forall (fun kv => well_formed (snd kv) = true) d.
Proof.
  change (well_formed (PDict d))
    with (distinct (map fst d) && forallb (fun kv => well_formed (snd kv)) d).
  rewrite andb_true_iff, distinct_NoDup, forallb_forall, Forall_forall.
  reflexivity.
Qed.

Lemma well_formed_round_trips (v : pyval) :
  well_formed v = true -> round_trips v.
Proof.
  induction v as [| b | z | s | l IH | d IH] using pyval_ind';
    intros Hwf level rest fuel Hd Hfuel;
    (destruct fuel as [|fuel]; [inversion Hfuel|]).
  - reflexivity.
  - destruct b; reflexivity.
  - now apply scan_once_int.
  - unfold encode, encode_basestring. rewrite <- app_comm_cons, <- app_assoc.
    simpl. rewrite scanstring_encode. reflexivity.
  - destruct l as [|x l]; [reflexivity|].
    assert (Forall round_trips (x :: l)) as HF.
    { apply well_formed_list in Hwf. rewrite Forall_forall in *.
      intros y Hy. apply IH; [assumption|]. now apply Hwf. }
    rewrite encode_list_cons in *.
    rewrite <- app_comm_cons in *. repeat rewrite <- app_assoc in *.
    change ([93] ++ rest) with (93 :: rest) in *.
    rewrite scan_once_array. unfold JSONArray.
    rewrite skip_ws_newline_indent.
    destruct (join_head (44 :: newline_indent (S level)) (encode (S level)) x l
                (encode_head (S level) x)) as (c & r & E & Hw & Hb).
    rewrite E in *. rewrite <- app_comm_cons in *.
    rewrite skip_ws_head by assumption. rewrite Hb.
    rewrite app_comm_cons, <- E.
    rewrite array_loop_encode; [reflexivity|discriminate|assumption| |];
      rewrite E; lengths; lia.
  - destruct d as [|[k v] d]; [reflexivity|].
    apply well_formed_dict in Hwf. destruct Hwf as [Hkeys Hvals].
    assert (Forall (fun kv => round_trips (snd kv)) ((k, v) :: d)) as HF.
    { rewrite Forall_forall in *.
      intros y Hy. apply IH; [assumption|]. now apply Hvals. }
    inversion HF as [|? ? Hv HFd]; subst. simpl snd in Hv.
    rewrite encode_dict_cons in *.
    rewrite <- app_comm_cons in *. repeat rewrite <- app_assoc in *.
    change ([125] ++ rest) with (125 :: rest) in *.
    rewrite scan_once_object. unfold JSONObject.
    rewrite skip_ws_newline_indent.
    rewrite (members_unfold level rest k v d) in *.
    rewrite skip_ws_head by reflexivity.
    change (N.eqb 34 125) with false. change (N.eqb 34 34) with true.
    cbv iota.
    rewrite object_loop_encode; [|assumption|assumption| |].
    + rewrite dict_of_pairs_distinct; [reflexivity|].
      now apply distinct_NoDup.
    + lengths. lia.
    + lengths. lia.
Qed.

Theorem json_loads_dumps (v : pyval) :
  well_formed v = true -> json_loads (json_dumps v) = inr v.
Proof.
  intros Hwf. unfold json_loads, json_dumps.
  rewrite <- (app_nil_r (encode 0 v)) at 2.
  rewrite skip_ws_value by apply encode_head.
  rewrite (well_formed_round_trips v Hwf 0%nat [] (S (length (encode 0 v)))).
  - reflexivity.
  - reflexivity.
  - rewrite app_nil_r. lia.
Qed.

(** ** The fuel of the scanner *)

Lemma skip_ws_length (s : text) : (length (skip_ws s) <= length s)%nat.
Proof.
  induction s as [|c s IH]; cbn [skip_ws length]; [lia|].
  destruct (is_ws c); cbn [length]; lia.
Qed.

Lemma cons_chr_some (c : N) (o : option (str * text)) (x : str) (r : text) :
  cons_chr c o = Some (x, r) -> exists x', o = Some (x', r).
Proof.
  destruct o as [[x' r']|]; cbn; [|discriminate].
  intros E. injection E as _ <-. now exists x'.
Qed.

Lemma scanstring_length (n : nat) :
  forall s x r,
    (length s <= n)%nat -> scanstring s = Some (x, r) ->
    (length r < length s)%nat.
Proof.
  induction n as [|n IH]; intros s x r Hn H.
  - destruct s; [discriminate | cbn in Hn; lia].
  - destruct s as [|c s]; [discriminate|]. cbn [length] in *.
    cbn [scanstring] in H.
    repeat match type of H with
           | Some _ = Some _ => injection H as <- <-
           | None = Some _ => discriminate H
           | cons_chr _ (scanstring ?t) = Some _ =>
               apply cons_chr_some in H; destruct H as [? H];
               apply IH in H; cbn [length] in *; try lia
           | context [match ?t with _ => _ end] =>
               destruct t eqn:?; cbn [length] in *
           | context [if ?b then _ else _] => destruct b eqn:?
           end; cbn [length] in *; try lia.
Qed.

Lemma scan_digits_length (s : text) :
  (length (snd (scan_digits s)) <= length s)%nat.
Proof.
  induction s as [|c s IH]; cbn [scan_digits]; [cbn; lia|].
  destruct (is_digit c); [|cbn; lia].
  destruct (scan_digits s) as [u r]. cbn [snd length] in *. lia.
Qed.

Lemma match_integer_length (s : text) (i : Decimal.signed_int) (r : text) :
  match_integer s = Some (i, r) -> (length r < length s)%nat.
Proof.
  unfold match_integer. intros H.
  assert (forall s1 sign,
             match s1 with
             | [] => None
             | c :: r0 =>
                 if N.eqb c 48 then Some (sign (Decimal.D0 Decimal.Nil), r0)
                 else if is_digit c
                      then let (u, r') := scan_digits s1 in Some (sign u, r')
                      else None
             end = Some (i, r) -> (length r < length s1)%nat) as Hs1.
  { intros s1 sign E. destruct s1 as [|c r0]; [discriminate|].
    destruct (N.eqb c 48).
    - injection E as _ <-. cbn. lia.
    - destruct (is_digit c) eqn:D; [|discriminate].
      cbn [scan_digits] in E. rewrite D in E.
      pose proof (scan_digits_length r0) as Hl.
      destruct (scan_digits r0) as [u r']. injection E as _ <-.
      cbn [snd length] in *. lia. }
  destruct s as [|c s]; [discriminate|].
  destruct (N.eqb c 45).
  - apply (Hs1 s Decimal.Neg) in H. cbn [length]. lia.
  - now apply (Hs1 (c :: s) Decimal.Pos) in H.
Qed.

Lemma starts_with_length (p s r : text) :
  starts_with p s = Some r -> (length s = length p + length r)%nat.
Proof.
  revert s. induction p as [|a p IH]; intros s H.
  - cbn in H. injection H as <-. reflexivity.
  - destruct s as [|b s]; [discriminate|]. cbn [starts_with] in H.
    destruct (N.eqb a b); [|discriminate].
    apply IH in H. cbn [length]. lia.
Qed.

Lemma array_loop_length (scan_value : text -> scan pyval) (n : nat) :
  consumes scan_value ->
  forall s vs r,
    array_loop scan_value n s = Parsed vs r -> (length r < length s)%nat.
Proof.
  intros Hsv. induction n as [|n IH]; intros s vs r H; [discriminate|].
  cbn [array_loop] in H.
  destruct (scan_value s) as [v r0| |] eqn:E; try discriminate.
  apply Hsv in E. pose proof (skip_ws_length r0) as Hw.
  destruct (skip_ws r0) as [|c r1]; [discriminate|]. cbn [length] in Hw.
  destruct (N.eqb c 93).
  - injection H as _ <-. lia.
  - destruct (N.eqb c 44); [|discriminate].
    destruct (array_loop scan_value n (skip_ws r1)) as [vs' r2| |] eqn:E2;
      try discriminate.
    injection H as _ <-. apply IH in E2.
    pose proof (skip_ws_length r1). lia.
Qed.

Lemma object_loop_length (scan_value : text -> scan pyval) (n : nat) :
  consumes scan_value ->
  forall s kvs r,
    object_loop scan_value n s = Parsed kvs r -> (length r < length s)%nat.
Proof.
  intros Hsv. induction n as [|n IH]; intros s kvs r H; [discriminate|].
  cbn [object_loop] in H.
  destruct (scanstring s) as [[key r0]|] eqn:Ek; [|discriminate].
  apply (scanstring_length (length s)) in Ek; [|lia].
  pose proof (skip_ws_length r0) as Hw0.
  destruct (skip_ws r0) as [|c r1]; [discriminate|]. cbn [length] in Hw0.
  destruct (N.eqb c 58); [|discriminate].
  destruct (scan_value (skip_ws r1)) as [v r2| |] eqn:E; try discriminate.
  apply Hsv in E. pose proof (skip_ws_length r1) as Hw1.
  pose proof (skip_ws_length r2) as Hw2.
  destruct (skip_ws r2) as [|c' r3]; [discriminate|]. cbn [length] in Hw2.
  destruct (N.eqb c' 125).
  - injection H as _ <-. lia.
  - destruct (N.eqb c' 44); [|discriminate].
    pose proof (skip_ws_length r3) as Hw3.
    destruct (skip_ws r3) as [|q r4]; [discriminate|]. cbn [length] in Hw3.
    destruct (N.eqb q 34); [|discriminate].
    destruct (object_loop scan_value n r4) as [kvs' r5| |] eqn:E2;
      try discriminate.
    injection H as _ <-. apply IH in E2. lia.
Qed.

Lemma scan_once_consumes (fuel : nat) : consumes (scan_once fuel).
Proof.
  induction fuel as [|fuel IH]; intros s v r H; [discriminate|].
  cbn [scan_once] in H.
  destruct s as [|c s]; [discriminate|].
  destruct (N.eqb c 34).
  { destruct (scanstring s) as [[x r']|] eqn:E; [|discriminate].
    injection H as _ <-.
    apply (scanstring_length (length s)) in E; cbn [length]; lia. }
  destruct (N.eqb c 123).
  { unfold JSONObject in H. pose proof (skip_ws_length s) as Hw.
    destruct (skip_ws s) as [|c0 r0]; [discriminate|]. cbn [length] in *.
    destruct (N.eqb c0 125); [injection H as _ <-; lia|].
    destruct (N.eqb c0 34); [|discriminate].
    destruct (object_loop (scan_once fuel) fuel r0) as [kvs r'| |] eqn:E;
      try discriminate.
    injection H as _ <-. apply (object_loop_length _ fuel IH) in E. lia. }
  destruct (N.eqb c 91).
  { unfold JSONArray in H. pose proof (skip_ws_length s) as Hw.
    destruct (skip_ws s) as [|c0 r0]; [discriminate|]. cbn [length] in *.
    destruct (N.eqb c0 93); [injection H as _ <-; lia|].
    destruct (array_loop (scan_once fuel) fuel (c0 :: r0)) as [vs r'| |] eqn:E;
      try discriminate.
    injection H as _ <-. apply (array_loop_length _ fuel IH) in E.
    cbn [length] in E. lia. }
  destruct (starts_with (py "null") (c :: s)) as [r'|] eqn:E1.
  { injection H as _ <-. apply starts_with_length in E1.
    cbn [length] in *. cbn in E1. lia. }
  destruct (starts_with (py "true") (c :: s)) as [r'|] eqn:E2.
  { injection H as _ <-. apply starts_with_length in E2.
    cbn [length] in *. cbn in E2. lia. }
  destruct (starts_with (py "false") (c :: s)) as [r'|] eqn:E3.
  { injection H as _ <-. apply starts_with_length in E3.
    cbn [length] in *. cbn in E3. lia. }
  destruct (match_integer (c :: s)) as [[i r']|] eqn:E4.
  { destruct (float_tail r'); [discriminate|]. injection H as _ <-.
    now apply match_integer_length in E4. }
  destruct (starts_with (py "NaN") (c :: s));
    destruct (starts_with (py "Infinity") (c :: s));
    destruct (starts_with (py "-Infinity") (c :: s)); discriminate.
Qed.

(** Two scanners that agree on the inputs no longer than [s] give loops
    that agree on [s], once the fuel of each loop covers [s]. *)
Lemma array_loop_fuel (sv1 sv2 : text -> scan pyval) (n1 : nat) :
  consumes sv1 ->
  forall n2 s,
    (forall t, (length t <= length s)%nat -> sv1 t = sv2 t) ->
    (length s < n1)%nat -> (length s < n2)%nat ->
    array_loop sv1 n1 s = array_loop sv2 n2 s.
Proof.
  intros Hsv. induction n1 as [|n1 IH]; intros n2 s Hext H1 H2; [lia|].
  destruct n2 as [|n2]; [lia|]. cbn [array_loop].
  rewrite <- Hext by lia.
  destruct (sv1 s) as [v r| |] eqn:E; try reflexivity.
  apply Hsv in E. pose proof (skip_ws_length r) as Hw.
  destruct (skip_ws r) as [|c r1]; [reflexivity|]. cbn [length] in Hw.
  destruct (N.eqb c 93); [reflexivity|].
  destruct (N.eqb c 44); [|reflexivity].
  pose proof (skip_ws_length r1) as Hw1.
  rewrite (IH n2 (skip_ws r1)); [reflexivity| |lia|lia].
  intros t Ht. apply Hext. lia.
Qed.

Lemma object_loop_fuel (sv1 sv2 : text -> scan pyval) (n1 : nat) :
  consumes sv1 ->
  forall n2 s,
    (forall t, (length t <= length s)%nat -> sv1 t = sv2 t) ->
    (length s < n1)%nat -> (length s < n2)%nat ->
    object_loop sv1 n1 s = object_loop sv2 n2 s.
Proof.
  intros Hsv. induction n1 as [|n1 IH]; intros n2 s Hext H1 H2; [lia|].
  destruct n2 as [|n2]; [lia|]. cbn [object_loop].
  destruct (scanstring s) as [[key r0]|] eqn:Ek; [|reflexivity].
  apply (scanstring_length (length s)) in Ek; [|lia].
  pose proof (skip_ws_length r0) as Hw0.
  destruct (skip_ws r0) as [|c r1]; [reflexivity|]. cbn [length] in Hw0.
  destruct (N.eqb c 58); [|reflexivity].
  pose proof (skip_ws_length r1) as Hw1.
  rewrite <- Hext by lia.
  destruct (sv1 (skip_ws r1)) as [v r2| |] eqn:E; try reflexivity.
  apply Hsv in E. pose proof (skip_ws_length r2) as Hw2.
  destruct (skip_ws r2) as [|c' r3]; [reflexivity|]. cbn [length] in Hw2.
  destruct (N.eqb c' 125); [reflexivity|].
  destruct (N.eqb c' 44); [|reflexivity].
  pose proof (skip_ws_length r3) as Hw3.
  destruct (skip_ws r3) as [|q r4]; [reflexivity|]. cbn [length] in Hw3.
  destruct (N.eqb q 34); [|reflexivity].
  rewrite (IH n2 r4); [reflexivity| |lia|lia].
  intros t Ht. apply Hext. lia.
Qed.

(** The scanner gives the same answer for every fuel above the length of
    its input: the fuel does not run out. *)
Lemma scan_once_fuel (f1 : nat) :
  forall f2 s,
    (length s < f1)%nat -> (length s < f2)%nat ->
    scan_once f1 s = scan_once f2 s.
Proof.
  induction f1 as [|f1 IH]; intros f2 s H1 H2; [lia|].
  destruct f2 as [|f2]; [lia|]. cbn [scan_once].
  destruct s as [|c s]; [reflexivity|]. cbn [length] in *.
  destruct (N.eqb c 34); [reflexivity|].
  destruct (N.eqb c 123).
  { unfold JSONObject. pose proof (skip_ws_length s) as Hw.
    destruct (skip_ws s) as [|c0 r0]; [reflexivity|]. cbn [length] in Hw.
    destruct (N.eqb c0 125); [reflexivity|].
    destruct (N.eqb c0 34); [|reflexivity].
    rewrite (object_loop_fuel (scan_once f1) (scan_once f2) f1
               (scan_once_consumes f1) f2 r0); [reflexivity| |lia|lia].
    intros t Ht. apply IH; lia. }
  destruct (N.eqb c 91); [|reflexivity].
  unfold JSONArray. pose proof (skip_ws_length s) as Hw.
  destruct (skip_ws s) as [|c0 r0]; [reflexivity|]. cbn [length] in Hw.
  destruct (N.eqb c0 93); [reflexivity|].
  rewrite (array_loop_fuel (scan_once f1) (scan_once f2) f1
             (scan_once_consumes f1) f2 (c0 :: r0));
    [reflexivity| |cbn [length]; lia|cbn [length]; lia].
  intros t Ht. cbn [length] in Ht. apply IH; lia.
Qed.

(** [json_loads] with more fuel than the length of the text is the same
    function. *)
Theorem json_loads_fuel (s : text) (fuel : nat) :
  (length s < fuel)%nat ->
  scan_once fuel (skip_ws s) = scan_once (S (length s)) (skip_ws s).
Proof.
  intros H. pose proof (skip_ws_length s).
  apply scan_once_fuel; lia.
Qed.

(** ** Decoded values are well formed *)

Lemma dict_set_keys (d : list (str * pyval)) (k : str) (v : pyval) :
  map fst (dict_set d k v) =
  if str_in k (map fst d) then map fst d else map fst d ++ [k].
Proof.
  induction d as [|[k' v'] d IH]; [reflexivity|].
  cbn [dict_set map fst]. unfold str_in in *. cbn [existsb].
  destruct (str_eqb k' k) eqn:E; cbn [orb map fst]; [reflexivity|].
  rewrite IH. destruct (existsb _ _); reflexivity.
Qed.

Lemma dict_set_distinct (d : list (str * pyval)) (k : str) (v : pyval) :
  NoDup (map fst d) -> NoDup (map fst (dict_set d k v)).
Proof.
  intros H. rewrite dict_set_keys.
  destruct (str_in k (map fst d)) eqn:E; [assumption|].
  apply NoDup_app; [assumption | repeat constructor; intros [] | ].
  intros x Hx [<-|[]]. apply str_in_In in Hx. congruence.
Qed.

Lemma dict_set_values (P : pyval -> Prop) (d : list (str * pyval)) (k : str)
  (v : pyval) :
  Forall (fun kv => P (snd kv)) d -> P v ->
  Forall (fun kv => P (snd kv)) (dict_set d k v).
Proof.
  intros Hd Hv. induction Hd as [|[k' v'] d Hkv Hd IH]; cbn [dict_set].
  - now repeat constructor.
  - destruct (str_eqb k' k); constructor; assumption.
Qed.

Lemma dict_of_pairs_well_formed (kvs : list (str * pyval)) :
  Forall (fun kv => well_formed (snd kv) = true) kvs ->
  well_formed (PDict (dict_of_pairs kvs)) = true.
Proof.
  intros H. apply well_formed_dict. unfold dict_of_pairs.
  assert (NoDup (map fst (@nil (str * pyval)))
          /\ Forall (fun kv => well_formed (snd kv) = true)
               (@nil (str * pyval))) as Hacc
      by (split; constructor).
  revert Hacc. generalize (@nil (str * pyval)) as acc.
  induction H as [|[k v] kvs Hv Hkvs IH]; intros acc [Hd Hw]; cbn [fold_left].
  - now split.
  - apply IH. split.
    + now apply dict_set_distinct.
    + now apply (dict_set_values (fun x => well_formed x = true)).
Qed.

Lemma array_loop_well_formed (scan_value : text -> scan pyval) (n : nat) :
  (forall s v r, scan_value s = Parsed v r -> well_formed v = true) ->
  forall s vs r,
    array_loop scan_value n s = Parsed vs r ->
    Forall (fun v => well_formed v = true) vs.
Proof.
  intros Hsv. induction n as [|n IH]; intros s vs r H; [discriminate|].
  cbn [array_loop] in H.
  destruct (scan_value s) as [v r0| |] eqn:E; try discriminate.
  apply Hsv in E.
  destruct (skip_ws r0) as [|c r1]; [discriminate|].
  destruct (N.eqb c 93).
  - injection H as <- _. now repeat constructor.
  - destruct (N.eqb c 44); [|discriminate].
    destruct (array_loop scan_value n (skip_ws r1)) as [vs' r2| |] eqn:E2;
      try discriminate.
    injection H as <- _. constructor; [assumption|]. now apply IH in E2.
Qed.

Lemma object_loop_well_formed (scan_value : text -> scan pyval) (n : nat) :
  (forall s v r, scan_value s = Parsed v r -> well_formed v = true) ->
  forall s kvs r,
    object_loop scan_value n s = Parsed kvs r ->
    Forall (fun kv => well_formed (snd kv) = true) kvs.
Proof.
  intros Hsv. induction n as [|n IH]; intros s kvs r H; [discriminate|].
  cbn [object_loop] in H.
  destruct (scanstring s) as [[key r0]|]; [|discriminate].
  destruct (skip_ws r0) as [|c r1]; [discriminate|].
  destruct (N.eqb c 58); [|discriminate].
  destruct (scan_value (skip_ws r1)) as [v r2| |] eqn:E; try discriminate.
  apply Hsv in E.
  destruct (skip_ws r2) as [|c' r3]; [discriminate|].
  destruct (N.eqb c' 125).
  - injection H as <- _. now repeat constructor.
  - destruct (N.eqb c' 44); [|discriminate].
    destruct (skip_ws r3) as [|q r4]; [discriminate|].
    destruct (N.eqb q 34); [|discriminate].
    destruct (object_loop scan_value n r4) as [kvs' r5| |] eqn:E2;
      try discriminate.
    injection H as <- _. constructor; [assumption|]. now apply IH in E2.
Qed.

Lemma scan_once_well_formed (fuel : nat) :
  forall s v r, scan_once fuel s = Parsed v r -> well_formed v = true.
Proof.
  induction fuel as [|fuel IH]; intros s v r H; [discriminate|].
  cbn [scan_once] in H.
  destruct s as [|c s]; [discriminate|].
  destruct (N.eqb c 34).
  { destruct (scanstring s) as [[x r']|]; [|discriminate].
    injection H as <- _. reflexivity. }
  destruct (N.eqb c 123).
  { unfold JSONObject in H.
    destruct (skip_ws s) as [|c0 r0]; [discriminate|].
    destruct (N.eqb c0 125); [injection H as <- _; reflexivity|].
    destruct (N.eqb c0 34); [|discriminate].
    destruct (object_loop (scan_once fuel) fuel r0) as [kvs r'| |] eqn:E;
      try discriminate.
    injection H as <- _. apply dict_of_pairs_well_formed.
    exact (object_loop_well_formed (scan_once fuel) fuel IH r0 kvs r' E). }
  destruct (N.eqb c 91).
  { unfold JSONArray in H.
    destruct (skip_ws s) as [|c0 r0]; [discriminate|].
    destruct (N.eqb c0 93); [injection H as <- _; reflexivity|].
    destruct (array_loop (scan_once fuel) fuel (c0 :: r0)) as [vs r'| |] eqn:E;
      try discriminate.
    injection H as <- _. apply well_formed_list.
    exact (array_loop_well_formed (scan_once fuel) fuel IH _ vs r' E). }
  destruct (starts_with (py "null") (c :: s));
    [injection H as <- _; reflexivity|].
  destruct (starts_with (py "true") (c :: s));
    [injection H as <- _; reflexivity|].
  destruct (starts_with (py "false") (c :: s));
    [injection H as <- _; reflexivity|].
  destruct (match_integer (c :: s)) as [[i r']|].
  { destruct (float_tail r'); [discriminate|]. injection H as <- _.
    reflexivity. }
  destruct (starts_with (py "NaN") (c :: s));
    destruct (starts_with (py "Infinity") (c :: s));
    destruct (starts_with (py "-Infinity") (c :: s)); discriminate.
Qed.

(** Every value [json.loads] returns has dicts with distinct keys. *)
Theorem json_loads_well_formed (s : text) (v : pyval) :
  json_loads s = inr v -> well_formed v = true.
Proof.
  unfold json_loads. intros H.
  destruct (scan_once (S (length s)) (skip_ws s)) as [v' r| |] eqn:E;
    try discriminate.
  destruct (skip_ws r); [|discriminate]. injection H as <-.
  exact (scan_once_well_formed _ _ _ _ E).
Qed.

(** ** What the encoder writes can be written *)

Lemma escape_char_ok (c : N) :
  encodable c = true -> forallb encodable (escape_char c) = true.
Proof.
  intros H. unfold escape_char.
  repeat match goal with
         | |- context [if N.eqb c ?k then _ else _] =>
             destruct (N.eqb c k); [reflexivity|]
         end.
  destruct (N.ltb c 32) eqn:E.
  - apply N.ltb_lt in E. apply below_32 in E.
    repeat (destruct E as [E|E]; [subst c; reflexivity|]).
    subst c; reflexivity.
  - simpl. now rewrite H.
Qed.

Lemma encode_basestring_ok (s : str) :
  str_ok s = true -> forallb encodable (encode_basestring s) = true.
Proof.
  unfold str_ok, encode_basestring. intros H.
  change (34 :: ?t) with ([34] ++ t). rewrite !forallb_app.
  rewrite andb_true_iff. split; [reflexivity|].
  rewrite andb_true_iff. split; [|reflexivity].
  induction s as [|c s IH]; [reflexivity|].
  simpl in H. apply andb_true_iff in H. destruct H as [Hc Hs].
  simpl flat_map. rewrite forallb_app, escape_char_ok, IH by assumption.
  reflexivity.
Qed.

Lemma uint_chars_ok (u : Decimal.uint) : forallb encodable (uint_chars u) = true.
Proof. induction u; simpl; try assumption; reflexivity. Qed.

Lemma int_repr_ok (z : Z) : forallb encodable (int_repr z) = true.
Proof.
  unfold int_repr. destruct (Z.to_int z); simpl; apply uint_chars_ok.
Qed.

Lemma newline_indent_ok (level : nat) :
  forallb encodable (newline_indent level) = true.
Proof.
  unfold newline_indent. simpl.
  induction (level + (level + 0))%nat; simpl; [reflexivity | assumption].
Qed.

Lemma join_ok (sep : text) (chunks : list text) :
  forallb encodable sep = true ->
  Forall (fun c => forallb encodable c = true) chunks ->
  forallb encodable (join sep chunks) = true.
Proof.
  intros Hsep H. induction chunks as [|c cs IH]; [reflexivity|].
  inversion H as [|? ? Hc Hcs]; subst.
  destruct cs as [|c' cs]; [exact Hc|].
  rewrite join_cons2, !forallb_app.
  rewrite (IH Hcs), Hc, Hsep. reflexivity.
Qed.

Lemma encode_ok (v : pyval) :
  storable v = true -> forall level, forallb encodable (encode level v) = true.
Proof.
  induction v as [| b | z | s | l IH | d IH] using pyval_ind';
    intros Hs level.
  - reflexivity.
  - destruct b; reflexivity.
  - apply int_repr_ok.
  - now apply encode_basestring_ok.
  - destruct l as [|x l]; [reflexivity|].
    rewrite encode_list_cons.
    change (91 :: ?t) with ([91] ++ t). rewrite !forallb_app.
    rewrite !newline_indent_ok, join_ok; [reflexivity| |].
    + change (44 :: ?t) with ([44] ++ t). rewrite forallb_app.
      now rewrite newline_indent_ok.
    + change (storable (PList (x :: l))) with (forallb storable (x :: l)) in Hs.
      rewrite forallb_forall in Hs. rewrite Forall_forall in *.
      intros c Hc. apply in_map_iff in Hc. destruct Hc as (y & <- & Hy).
      apply IH; [assumption|]. now apply Hs.
  - destruct d as [|kv d]; [reflexivity|].
    rewrite encode_dict_cons.
    change (123 :: ?t) with ([123] ++ t). rewrite !forallb_app.
    rewrite !newline_indent_ok, join_ok; [reflexivity| |].
    + change (44 :: ?t) with ([44] ++ t). rewrite forallb_app.
      now rewrite newline_indent_ok.
    + change (storable (PDict (kv :: d)))
        with (forallb (fun kv => str_ok (fst kv) && storable (snd kv)) (kv :: d))
        in Hs.
      rewrite forallb_forall in Hs. rewrite Forall_forall in *.
      intros c Hc. apply in_map_iff in Hc. destruct Hc as (y & <- & Hy).
      specialize (Hs y Hy). apply andb_true_iff in Hs. destruct Hs as [Hk Hv].
      rewrite !forallb_app, encode_basestring_ok, IH by assumption.
      reflexivity.
Qed.

Lemma json_dumps_ok (v : pyval) :
  storable v = true -> forallb encodable (json_dumps v) = true.
Proof. intros H. now apply encode_ok. Qed.

(** ** [save_tasks] and [load_tasks] *)

Lemma save_tasks_spec (self : TaskManager) (w : world) :
  save_tasks self w =
  if writable w
  then if forallb encodable (json_dumps (tasks self))
       then Ok tt (saved w (tasks self))
       else Raise UnicodeEncodeError
  else Raise PermissionError.
Proof.
  destruct w as [[| | |doc] c n out]; reflexivity.
Qed.

Lemma save_tasks_ok (self : TaskManager) (w : world) :
  writable w = true ->
  storable (tasks self) = true ->
  save_tasks self w = Ok tt (saved w (tasks self)).
Proof.
  intros Hw Hs. rewrite save_tasks_spec, Hw, json_dumps_ok by assumption.
  reflexivity.
Qed.

Lemma load_tasks_spec (w : world) :
  load_tasks w =
  match disk w with
  | Missing => Ok (PList []) w
  | Denied => Raise PermissionError
  | Garbled => Raise UnicodeDecodeError
  | Content t =>
      match json_loads t with
      | inr v => Ok v w
      | inl e => if caught_by_load e then Ok (PList []) w else Raise e
      end
  end.
Proof.
  destruct w as [[| | |doc] c n out]; try reflexivity.
  cbv [load_tasks try_except bind os_path_exists json_load open_read lift ret
       disk].
  destruct (json_loads doc) as [e|v]; reflexivity.
Qed.

(** ** [add_task] *)

Lemma add_task_spec (l : list pyval) (description : str) (w : world) :
  let task := new_task (length l) description
                (clock w (ticks w)) (clock w (S (ticks w))) in
  let v := PList (l ++ [task]) in
  add_task {| tasks := PList l |} description w =
  if writable w
  then if forallb encodable (json_dumps v)
       then Ok {| tasks := v |}
              (printed (saved (later w 2) v)
                 (TaskAdded (Z.of_nat (length l) + 1)))
       else Raise UnicodeEncodeError
  else Raise PermissionError.
Proof.
  intros task v. subst task v.
  destruct w as [[| | |doc] c n out]; try reflexivity;
    cbv [add_task bind lift now save_tasks open_write print ret py_len append
         tasks disk clock ticks stdout writable printed saved later new_task
         line_ok];
    match goal with
    | |- context [forallb encodable ?t] => destruct (forallb encodable t)
    end; reflexivity.
Qed.

(** ** Looking a task up by its id *)

Lemma is_task_id (task : pyval) :
  is_task task = true -> exists z, getitem task (py "id") = inr (PInt z).
Proof.
  destruct task as [| | | | |d]; try discriminate. unfold is_task, getitem.
  destruct (dict_get d (py "id")) as [[| |z| | |]|]; try discriminate.
  intros _. now exists z.
Qed.

Lemma for_each_miss {R : Type} (task_id : Z)
  (hit : nat -> pyval -> M (option R)) (items : list pyval) :
  forallb is_task items = true ->
  existsb (has_id task_id) items = false ->
  forall i w,
    for_each (fun i task =>
                id <- lift (getitem task (py "id")) ;;
                if eq_int id task_id then hit i task else ret None)
      i items w = Ok None w.
Proof.
  induction items as [|task items IH]; intros Ht Hid i w; [reflexivity|].
  cbn [forallb existsb] in Ht, Hid.
  apply andb_true_iff in Ht. destruct Ht as [Htask Hitems].
  apply orb_false_iff in Hid. destruct Hid as [Hid Hids].
  destruct (is_task_id task Htask) as [z Hz].
  unfold has_id in Hid. rewrite Hz in Hid.
  cbn [for_each]. unfold bind at 1. unfold bind at 1. unfold lift at 1.
  rewrite Hz, Hid. unfold ret at 1.
  now apply IH.
Qed.

Lemma update_task_missing (l : list pyval) (task_id : Z) (description : str)
  (w : world) :
  forallb is_task l = true ->
  existsb (has_id task_id) l = false ->
  update_task {| tasks := PList l |} task_id description w =
  Ok {| tasks := PList l |} (printed w (TaskNotFound task_id)).
Proof.
  intros Ht Hid. unfold update_task.
  unfold bind at 1. cbn [tasks py_iter lift].
  unfold bind at 1. rewrite for_each_miss by assumption.
  reflexivity.
Qed.

Lemma delete_task_missing (l : list pyval) (task_id : Z) (w : world) :
  forallb is_task l = true ->
  existsb (has_id task_id) l = false ->
  delete_task {| tasks := PList l |} task_id w =
  Ok {| tasks := PList l |} (printed w (TaskNotFound task_id)).
Proof.
  intros Ht Hid. unfold delete_task.
  unfold bind at 1. cbn [tasks py_iter lift].
  unfold bind at 1. rewrite for_each_miss by assumption.
  reflexivity.
Qed.

Lemma update_status_missing (l : list pyval) (task_id : Z) (status : str)
  (w : world) :
  str_in status valid_statuses = true ->
  forallb is_task l = true ->
  existsb (has_id task_id) l = false ->
  update_status {| tasks := PList l |} task_id status w =
  Ok {| tasks := PList l |} (printed w (TaskNotFound task_id)).
Proof.
  intros Hs Ht Hid. unfold update_status. rewrite Hs. cbn [negb].
  unfold bind at 1. cbn [tasks py_iter lift].
  unfold bind at 1. rewrite for_each_miss by assumption.
  reflexivity.
Qed.

Lemma update_status_invalid (self : TaskManager) (task_id : Z) (status : str)
  (w : world) :
  str_in status valid_statuses = false ->
  update_status self task_id status w =
  Ok self (printed w (InvalidStatus valid_statuses)).
Proof.
  intros Hs. unfold update_status. rewrite Hs. reflexivity.
Qed.

(** ** The listings *)

Lemma is_task_fields (task : pyval) :
  is_task task = true ->
  exists z d s,
    getitem task (py "id") = inr (PInt z)
    /\ getitem task (py "description") = inr (PStr d)
    /\ getitem task (py "status") = inr (PStr s).
Proof.
  destruct task as [| | | | |e]; try discriminate. unfold is_task, getitem.
  destruct (dict_get e (py "id")) as [[| |z| | |]|]; try discriminate.
  destruct (dict_get e (py "description")) as [[| | |d| |]|]; try discriminate.
  destruct (dict_get e (py "status")) as [[| | |s| |]|]; try discriminate.
  intros _. now exists z, d, s.
Qed.

Lemma dict_get_storable (d : list (str * pyval)) (k : str) (v : pyval) :
  storable (PDict d) = true -> dict_get d k = Some v -> storable v = true.
Proof.
  change (storable (PDict d))
    with (forallb (fun kv => str_ok (fst kv) && storable (snd kv)) d).
  induction d as [|[k' v'] d IH]; cbn [forallb dict_get fst snd];
    [discriminate|].
  intros H. apply andb_true_iff in H. destruct H as [Hkv Hd].
  apply andb_true_iff in Hkv. destruct Hkv as [_ Hv'].
  destruct (str_eqb k' k); [|now apply IH].
  intros E. injection E as <-. exact Hv'.
Qed.

Lemma is_task_printable (task : pyval) :
  is_task task = true ->
  storable task = true ->
  exists z d s,
    getitem task (py "id") = inr (PInt z)
    /\ getitem task (py "description") = inr (PStr d)
    /\ getitem task (py "status") = inr (PStr s)
    /\ str_ok d = true /\ str_ok s = true.
Proof.
  intros Ht Hs.
  destruct (is_task_fields task Ht) as (z & d & s & Hz & Hd & Hst).
  exists z, d, s. repeat split; try assumption;
    destruct task as [| | | | |e]; try discriminate; unfold getitem in *.
  - destruct (dict_get e (py "description")) eqn:E; [|discriminate].
    injection Hd as ->. exact (dict_get_storable e _ _ Hs E).
  - destruct (dict_get e (py "status")) eqn:E; [|discriminate].
    injection Hst as ->. exact (dict_get_storable e _ _ Hs E).
Qed.

Lemma storable_items (l : list pyval) (x : pyval) :
  storable (PList l) = true -> In x l -> storable x = true.
Proof.
  change (storable (PList l)) with (forallb storable l).
  rewrite forallb_forall. auto.
Qed.

Lemma storable_filter (f : pyval -> bool) (l : list pyval) :
  storable (PList l) = true -> storable (PList (filter f l)) = true.
Proof.
  change (storable (PList ?x)) with (forallb storable x).
  rewrite !forallb_forall. intros H x Hx. apply filter_In in Hx. now apply H.
Qed.

Lemma output_nil (w : world) : output w [] = w.
Proof. destruct w. unfold output. cbn. now rewrite app_nil_r. Qed.

Lemma output_printed (w : world) (l : line) (ls : list line) :
  output (printed w l) ls = output w (l :: ls).
Proof. unfold output, printed. cbn. now rewrite <- app_assoc. Qed.

Lemma with_status_filter (status : str) (l : list pyval) :
  forallb is_task l = true ->
  with_status status l = inr (filter (has_status status) l).
Proof.
  induction l as [|task l IH]; intros Ht; [reflexivity|].
  cbn [forallb] in Ht. apply andb_true_iff in Ht. destruct Ht as [Htask Hl].
  destruct (is_task_fields task Htask) as (z & d & s & _ & _ & Hs).
  cbn [with_status filter]. unfold has_status. rewrite Hs, (IH Hl).
  reflexivity.
Qed.

Lemma filter_is_task (f : pyval -> bool) (l : list pyval) :
  forallb is_task l = true -> forallb is_task (filter f l) = true.
Proof.
  rewrite !forallb_forall. intros H x Hx. apply filter_In in Hx. now apply H.
Qed.

Lemma for_all_print (body : pyval -> M unit) (f : pyval -> line)
  (l : list pyval) :
  (forall x w, In x l -> body x w = Ok tt (printed w (f x))) ->
  forall w, for_all body l w = Ok tt (output w (map f l)).
Proof.
  induction l as [|x l IH]; intros H w.
  - cbn. now rewrite output_nil.
  - cbn [for_all map]. unfold bind at 1.
    rewrite H by (now left).
    rewrite IH by (intros; apply H; now right).
    now rewrite output_printed.
Qed.

Lemma print_items (i : icon) (found : list pyval) :
  forallb is_task found = true ->
  storable (PList found) = true ->
  forall w,
    for_all (fun task =>
               id <- lift (getitem task (py "id")) ;;
               description <- lift (getitem task (py "description")) ;;
               print (Item i id description)) found w =
    Ok tt (output w (map (item_line i) found)).
Proof.
  intros Ht Hs. apply for_all_print. intros task w Hin.
  rewrite forallb_forall in Ht.
  destruct (is_task_printable task (Ht task Hin) (storable_items _ _ Hs Hin))
    as (z & d & s & Hz & Hd & _ & Hdok & _).
  unfold item_line, field. cbv [bind lift]. rewrite Hz, Hd.
  unfold print, printed. cbn [line_ok printable]. rewrite Hdok. reflexivity.
Qed.

Lemma print_rows (l : list pyval) :
  forallb is_task l = true ->
  storable (PList l) = true ->
  forall w,
    for_all (fun task =>
               status <- lift (getitem task (py "status")) ;;
               status_icon <- lift (_get_status_icon status) ;;
               id <- lift (getitem task (py "id")) ;;
               description <- lift (getitem task (py "description")) ;;
               status' <- lift (getitem task (py "status")) ;;
               print (Row status_icon id description status')) l w =
    Ok tt (output w (map row_line l)).
Proof.
  intros Ht Hst. apply for_all_print. intros task w Hin.
  rewrite forallb_forall in Ht.
  destruct (is_task_printable task (Ht task Hin) (storable_items _ _ Hst Hin))
    as (z & d & s & Hz & Hd & Hs & Hdok & Hsok).
  unfold row_line, status_icon, field. cbv [bind lift].
  rewrite Hs, Hz, Hd.
  unfold print, printed. cbn [line_ok printable _get_status_icon].
  rewrite Hdok, Hsok. reflexivity.
Qed.

Lemma list_tasks_with_spec (status : str) (i : icon) (l : list pyval)
  (w : world) :
  forallb is_task l = true ->
  storable (PList l) = true ->
  list_tasks_with status i {| tasks := PList l |} w =
  Ok tt (output w
           (listing i i (map (item_line i) (filter (has_status status) l)))).
Proof.
  intros Ht Hs. unfold list_tasks_with.
  unfold bind at 1. cbn [tasks py_iter lift].
  unfold bind at 1. rewrite with_status_filter by assumption. cbn [lift].
  pose proof (filter_is_task (has_status status) l Ht) as Hf.
  pose proof (storable_filter (has_status status) l Hs) as Hsf.
  destruct (filter (has_status status) l) as [|task found] eqn:E.
  - reflexivity.
  - cbn [truthy length Nat.eqb negb].
    unfold bind at 1.
    change (print (Banner i) w) with (Ok tt (printed w (Banner i))).
    cbv beta iota.
    unfold bind at 1. rewrite print_items by assumption.
    unfold print. rewrite output_printed.
    unfold listing. cbn [map]. unfold output. cbn.
    now rewrite <- app_assoc.
Qed.

Lemma list_all_tasks_spec (l : list pyval) (w : world) :
  forallb is_task l = true ->
  storable (PList l) = true ->
  list_all_tasks {| tasks := PList l |} w =
  Ok tt (output w (listing Memo Clipboard (map row_line l))).
Proof.
  intros Ht Hs. unfold list_all_tasks. cbn [tasks truthy].
  destruct l as [|task l].
  - reflexivity.
  - cbn [length Nat.eqb negb].
    unfold bind at 1.
    change (print (Banner Clipboard) w)
      with (Ok tt (printed w (Banner Clipboard))).
    cbv beta iota.
    unfold bind at 1. cbn [py_iter lift].
    unfold bind at 1. rewrite print_rows by assumption.
    unfold print. rewrite output_printed.
    unfold listing. cbn [map]. unfold output. cbn.
    now rewrite <- app_assoc.
Qed.

Lemma rows_with_status (status : str) (i : icon) (l : list pyval) :
  forallb is_task l = true ->
  map (item_line i) (filter (has_status status) l) =
  map (row_as_item i) (filter (row_status_is status) (map row_line l)).
Proof.
  induction l as [|task l IH]; intros Ht; [reflexivity|].
  cbn [forallb] in Ht. apply andb_true_iff in Ht. destruct Ht as [Htask Hl].
  destruct (is_task_fields task Htask) as (z & d & s & Hz & Hd & Hs).
  cbn [map filter].
  assert (row_status_is status (row_line task) = has_status status task) as E.
  { unfold row_line, row_status_is, has_status, field. now rewrite Hs. }
  rewrite E. destruct (has_status status task); cbn [map]; rewrite (IH Hl);
    reflexivity.
Qed.

(** ** Sequences of [add_task] *)

Lemma new_task_storable (n : nat) (d c u : str) :
  str_ok d = true -> str_ok c = true -> str_ok u = true ->
  storable (new_task n d c u) = true.
Proof.
  intros Hd Hc Hu. unfold new_task. cbn [storable forallb fst snd].
  rewrite Hd, Hc, Hu. reflexivity.
Qed.

Lemma storable_snoc (l : list pyval) (task : pyval) :
  storable (PList l) = true -> storable task = true ->
  storable (PList (l ++ [task])) = true.
Proof.
  change (storable (PList ?x)) with (forallb storable x).
  intros Hl Ht. rewrite forallb_app, Hl. cbn. now rewrite Ht.
Qed.

Lemma add_task_ok (l : list pyval) (description : str) (w : world) :
  writable w = true ->
  storable (PList l) = true ->
  str_ok description = true ->
  str_ok (clock w (ticks w)) = true ->
  str_ok (clock w (S (ticks w))) = true ->
  add_task {| tasks := PList l |} description w =
  Ok {| tasks := PList (l ++ [new_task (length l) description
                                (clock w (ticks w)) (clock w (S (ticks w)))]) |}
     (printed
        (saved (later w 2)
           (PList (l ++ [new_task (length l) description
                           (clock w (ticks w)) (clock w (S (ticks w)))])))
        (TaskAdded (Z.of_nat (length l) + 1))).
Proof.
  intros Hw Hl Hd Hc Hu.
  pose proof (add_task_spec l description w) as E. cbv zeta in E.
  rewrite E, Hw, json_dumps_ok; [reflexivity|].
  apply storable_snoc; [assumption|]. now apply new_task_storable.
Qed.

Lemma run_adds (ds : list str) :
  forall (l : list pyval) (w : world),
    writable w = true ->
    storable (PList l) = true ->
    forallb str_ok ds = true ->
    (forall n, str_ok (clock w n) = true) ->
    exists w',
      run (map Add ds) {| tasks := PList l |} w =
        Ok {| tasks := PList (l ++ added (clock w) (length l) (ticks w) ds) |} w'
      /\ stdout w' =
           stdout w ++ map (fun k => TaskAdded (Z.of_nat k + 1))
                         (seq (length l) (length ds))
      /\ writable w' = true.
Proof.
  induction ds as [|d ds IH]; intros l w Hw Hl Hds Hclk.
  - exists w. cbn. rewrite !app_nil_r. auto.
  - cbn [forallb] in Hds. apply andb_true_iff in Hds. destruct Hds as [Hd Hds].
    cbn [map run step]. unfold bind at 1.
    rewrite add_task_ok by auto.
    set (task := new_task (length l) d (clock w (ticks w))
                   (clock w (S (ticks w)))).
    set (w1 := printed _ _).
    destruct (IH (l ++ [task]) w1) as (w' & Hrun & Hout & Hw').
    + reflexivity.
    + apply storable_snoc; [assumption|]. now apply new_task_storable.
    + assumption.
    + intros n. apply Hclk.
    + exists w'. rewrite Hrun.
      rewrite length_app in *. cbn [length] in *.
      rewrite Nat.add_1_r in *.
      split; [|split; [|assumption]].
      * cbn [added]. rewrite <- app_assoc. reflexivity.
      * rewrite Hout. subst w1. cbn [stdout printed saved later seq map length].
        rewrite <- app_assoc. reflexivity.
Qed.

Lemma added_ids (clk : nat -> str) (ds : list str) :
  forall n t,
    map id_of (added clk n t ds) =
    map (fun k => Some (PInt (Z.of_nat k + 1))) (seq n (length ds)).
Proof.
  induction ds as [|d ds IH]; intros n t; [reflexivity|].
  cbn [added map length seq]. rewrite IH. reflexivity.
Qed.

Lemma seq_succ (n : nat) :
  map (fun k => (Z.of_nat k + 1)%Z) (seq 0 n) = ids_upto n.
Proof.
  unfold ids_upto. rewrite <- seq_shift, map_map.
  apply map_ext. intros k. lia.
Qed.

(** ** The command [agregar], one process per task *)

Lemma init_file_of (l : list pyval) (w : world) :
  file_of l (disk w) ->
  well_formed (PList l) = true ->
  init w = Ok {| tasks := PList l |} w.
Proof.
  intros Hf Hwf. unfold init, bind. rewrite load_tasks_spec.
  destruct Hf as [[-> ->]| ->]; [reflexivity|].
  now rewrite json_loads_dumps.
Qed.

Lemma file_of_writable (l : list pyval) (w : world) :
  file_of l (disk w) -> writable w = true.
Proof. unfold writable. now intros [[_ ->]| ->]. Qed.

Lemma main_agregar (l : list pyval) (d : str) (w : world) :
  file_of l (disk w) ->
  well_formed (PList l) = true ->
  storable (PList l) = true ->
  str_ok d = true ->
  str_ok (clock w (ticks w)) = true ->
  str_ok (clock w (S (ticks w))) = true ->
  main (Agregar d) w =
  Ok tt (printed
           (saved (later w 2)
              (PList (l ++ [new_task (length l) d (clock w (ticks w))
                              (clock w (S (ticks w)))])))
           (TaskAdded (Z.of_nat (length l) + 1))).
Proof.
  intros Hf Hwf Hs Hd Hc Hu. unfold main. unfold bind at 1.
  rewrite (init_file_of l w Hf Hwf). unfold bind at 1.
  rewrite add_task_ok by eauto using file_of_writable.
  reflexivity.
Qed.

Lemma well_formed_snoc (l : list pyval) (task : pyval) :
  well_formed (PList l) = true -> well_formed task = true ->
  well_formed (PList (l ++ [task])) = true.
Proof.
  intros Hl Ht. apply well_formed_list. apply well_formed_list in Hl.
  apply Forall_app. split; [assumption | now repeat constructor].
Qed.

(** ** The operations keep the store well formed *)

Lemma setitem_well_formed (task : pyval) (k : str) (x task' : pyval) :
  well_formed task = true -> well_formed x = true ->
  setitem task k x = inr task' -> well_formed task' = true.
Proof.
  destruct task as [| | | | |d]; try discriminate. cbn [setitem].
  intros Hd Hx E. injection E as <-.
  apply well_formed_dict in Hd. destruct Hd as [Hk Hv].
  apply well_formed_dict. split.
  - now apply dict_set_distinct.
  - now apply (dict_set_values (fun v => well_formed v = true)).
Qed.

Lemma replace_nth_well_formed (l : list pyval) (i : nat) (x : pyval) :
  Forall (fun v => well_formed v = true) l -> well_formed x = true ->
  Forall (fun v => well_formed v = true) (replace_nth l i x).
Proof.
  intros Hl Hx. revert i. induction Hl as [|y l Hy Hl IH]; intros i.
  - constructor.
  - destruct i; cbn [replace_nth]; constructor; auto.
Qed.

Lemma del_nth_well_formed (l : list pyval) (i : nat) :
  Forall (fun v => well_formed v = true) l ->
  Forall (fun v => well_formed v = true) (del_nth l i).
Proof.
  intros Hl. revert i. induction Hl as [|y l Hy Hl IH]; intros i.
  - constructor.
  - destruct i; cbn [del_nth]; [assumption | constructor; auto].
Qed.

(** A loop that returned from its body did so at the item of its index. *)
Lemma for_each_found {R : Type} (body : nat -> pyval -> M (option R))
  (items : list pyval) :
  forall i w x w',
    for_each body i items w = Ok (Some x) w' ->
    exists pre task post wj,
      items = pre ++ task :: post
      /\ body (i + length pre)%nat task wj = Ok (Some x) w'.
Proof.
  induction items as [|task items IH]; intros i w x w' H; [discriminate|].
  cbn [for_each] in H. unfold bind at 1 in H.
  destruct (body i task w) as [[y|] w1|e] eqn:E; try discriminate.
  - unfold ret in H. injection H as <- <-.
    exists [], task, items, w. cbn [length app]. rewrite Nat.add_0_r.
    split; [reflexivity | assumption].
  - apply IH in H. destruct H as (pre & t & post & wj & -> & Hb).
    exists (task :: pre), t, post, wj. cbn [length app].
    rewrite Nat.add_succ_r. split; [reflexivity | assumption].
Qed.

Lemma for_each_some {R : Type} (body : nat -> pyval -> M (option R))
  (items : list pyval) :
  forall i w x w',
    for_each body i items w = Ok (Some x) w' ->
    exists j task wj, In task items /\ body j task wj = Ok (Some x) w'.
Proof.
  intros i w x w' H. apply for_each_found in H.
  destruct H as (pre & task & post & wj & -> & Hb).
  exists (i + length pre)%nat, task, wj. split; [apply in_elt | exact Hb].
Qed.

Lemma iter_well_formed (v : pyval) (items : list pyval) :
  well_formed v = true -> py_iter v = inr items ->
  Forall (fun x => well_formed x = true) items.
Proof.
  destruct v as [| | |s|l|d]; try discriminate; cbn [py_iter];
    intros Hv E; injection E as <-.
  - apply Forall_forall. intros x Hx. apply in_map_iff in Hx.
    destruct Hx as (c & <- & _). reflexivity.
  - now apply well_formed_list.
  - apply Forall_forall. intros x Hx. apply in_map_iff in Hx.
    destruct Hx as (c & <- & _). reflexivity.
Qed.

Lemma assigned_well_formed (v : pyval) (i : nat) (task : pyval) :
  well_formed v = true -> well_formed task = true ->
  well_formed (assigned v i task) = true.
Proof.
  intros Hv Ht. destruct v as [| | | |l|]; try assumption.
  cbn [assigned]. apply well_formed_list. apply well_formed_list in Hv.
  now apply replace_nth_well_formed.
Qed.

Lemma delitem_well_formed (v : pyval) (i : nat) (v' : pyval) :
  well_formed v = true -> delitem v i = inr v' -> well_formed v' = true.
Proof.
  destruct v as [| | | |l|]; try discriminate. cbn [delitem].
  intros Hv E. injection E as <-.
  apply well_formed_list. apply well_formed_list in Hv.
  now apply del_nth_well_formed.
Qed.

Lemma add_task_well_formed (self : TaskManager) (d : str) (w : world)
  (self' : TaskManager) (w' : world) :
  well_formed (tasks self) = true ->
  add_task self d w = Ok self' w' ->
  well_formed (tasks self') = true.
Proof.
  destruct self as [v]. cbn [tasks]. intros Hv H.
  destruct v as [| | |s|l|e]; try discriminate.
  pose proof (add_task_spec l d w) as E. cbv zeta in E. rewrite E in H.
  destruct (writable w); [|discriminate].
  destruct (forallb encodable _); [|discriminate].
  injection H as <- _. cbn [tasks].
  apply well_formed_list. apply well_formed_list in Hv.
  apply Forall_app. split; [assumption|]. now repeat constructor.
Qed.

(** The body the loops of [update_task] and [update_status] share: the
    task found gets a new value under [key] and a new time stamp. *)
Lemma assign_body_well_formed (self : TaskManager) (task_id : Z) (key : str)
  (x : pyval) (l : line) (i : nat) (task : pyval) (w : world)
  (self' : TaskManager) (w' : world) :
  well_formed (tasks self) = true ->
  well_formed task = true ->
  well_formed x = true ->
  (id <- lift (getitem task (py "id")) ;;
   if eq_int id task_id then
     task1 <- lift (setitem task key x) ;;
     t <- now ;;
     task2 <- lift (setitem task1 (py "updated_at") (PStr t)) ;;
     let self' := {| tasks := assigned (tasks self) i task2 |} in
     save_tasks self' ;;;
     print l ;;;
     ret (Some self')
   else ret None) w = Ok (Some self') w' ->
  well_formed (tasks self') = true.
Proof.
  intros Hs Ht Hx. unfold bind at 1. unfold lift at 1.
  destruct (getitem task (py "id")) as [e|id]; [discriminate|].
  destruct (eq_int id task_id); [|discriminate].
  unfold bind at 1. unfold lift at 1.
  destruct (setitem task key x) as [e|task1] eqn:E1; [discriminate|].
  unfold bind at 1. cbn [now]. unfold bind at 1. unfold lift at 1.
  destruct (setitem task1 (py "updated_at") _) as [e|task2] eqn:E2;
    [discriminate|].
  cbv zeta. unfold bind at 1.
  destruct (save_tasks _ _) as [[] w1|e]; [|discriminate].
  unfold bind at 1. destruct (print l w1) as [[] w2|e]; [|discriminate].
  unfold ret. intros H. injection H as <- _. cbn [tasks].
  apply assigned_well_formed; [assumption|].
  refine (setitem_well_formed task1 (py "updated_at")
            (PStr (clock w (ticks w))) task2 _ eq_refl E2).
  exact (setitem_well_formed task key x task1 Ht Hx E1).
Qed.

Lemma update_task_well_formed (self : TaskManager) (task_id : Z) (d : str)
  (w : world) (self' : TaskManager) (w' : world) :
  well_formed (tasks self) = true ->
  update_task self task_id d w = Ok self' w' ->
  well_formed (tasks self') = true.
Proof.
  intros Hs. unfold update_task. unfold bind at 1. unfold lift at 1.
  destruct (py_iter (tasks self)) as [e|items] eqn:Ei; [discriminate|].
  pose proof (iter_well_formed _ _ Hs Ei) as Hitems.
  unfold bind at 1.
  destruct (for_each _ 0%nat items w) as [[found|] w1|e] eqn:E;
    try discriminate.
  - unfold ret. intros H. injection H as <- _.
    apply for_each_some in E. destruct E as (j & task & wj & Hin & Hb).
    rewrite Forall_forall in Hitems.
    exact (assign_body_well_formed self task_id (py "description") (PStr d)
             _ j task wj found w1 Hs (Hitems task Hin) eq_refl Hb).
  - unfold bind at 1. destruct (print _ w1) as [[] w2|e]; [|discriminate].
    unfold ret. intros H. now injection H as <- _.
Qed.

Lemma update_status_well_formed (self : TaskManager) (task_id : Z)
  (status : str) (w : world) (self' : TaskManager) (w' : world) :
  well_formed (tasks self) = true ->
  update_status self task_id status w = Ok self' w' ->
  well_formed (tasks self') = true.
Proof.
  intros Hs. unfold update_status.
  destruct (negb (str_in status valid_statuses)).
  { unfold bind at 1. destruct (print _ w) as [[] w2|e]; [|discriminate].
    unfold ret. intros H. now injection H as <- _. }
  unfold bind at 1. unfold lift at 1.
  destruct (py_iter (tasks self)) as [e|items] eqn:Ei; [discriminate|].
  pose proof (iter_well_formed _ _ Hs Ei) as Hitems.
  unfold bind at 1.
  destruct (for_each _ 0%nat items w) as [[found|] w1|e] eqn:E;
    try discriminate.
  - unfold ret. intros H. injection H as <- _.
    apply for_each_some in E. destruct E as (j & task & wj & Hin & Hb).
    rewrite Forall_forall in Hitems.
    exact (assign_body_well_formed self task_id (py "status") (PStr status)
             _ j task wj found w1 Hs (Hitems task Hin) eq_refl Hb).
  - unfold bind at 1. destruct (print _ w1) as [[] w2|e]; [|discriminate].
    unfold ret. intros H. now injection H as <- _.
Qed.

Lemma delete_task_well_formed (self : TaskManager) (task_id : Z)
  (w : world) (self' : TaskManager) (w' : world) :
  well_formed (tasks self) = true ->
  delete_task self task_id w = Ok self' w' ->
  well_formed (tasks self') = true.
Proof.
  intros Hs. unfold delete_task. unfold bind at 1. unfold lift at 1.
  destruct (py_iter (tasks self)) as [e|items] eqn:Ei; [discriminate|].
  unfold bind at 1.
  destruct (for_each _ 0%nat items w) as [[found|] w1|e] eqn:E;
    try discriminate.
  - unfold ret. intros H. injection H as <- _.
    apply for_each_some in E. destruct E as (j & task & wj & Hin & Hb).
    revert Hb. unfold bind at 1. unfold lift at 1.
    destruct (getitem task (py "id")) as [e|id]; [discriminate|].
    destruct (eq_int id task_id); [|discriminate].
    unfold bind at 1. unfold lift at 1.
    destruct (delitem (tasks self) j) as [e|v'] eqn:Ed; [discriminate|].
    cbv zeta. unfold bind at 1.
    destruct (save_tasks _ _) as [[] w2|e]; [|discriminate].
    unfold bind at 1. destruct (print _ w2) as [[] w3|e]; [|discriminate].
    unfold ret. intros H. injection H as <- _. cbn [tasks].
    exact (delitem_well_formed _ _ _ Hs Ed).
  - unfold bind at 1. destruct (print _ w1) as [[] w2|e]; [|discriminate].
    unfold ret. intros H. now injection H as <- _.
Qed.

(** Every operation leaves a well-formed store well formed. *)
Lemma step_well_formed (self : TaskManager) (o : op) (w : world)
  (self' : TaskManager) (w' : world) :
  well_formed (tasks self) = true ->
  step self o w = Ok self' w' ->
  well_formed (tasks self') = true.
Proof.
  destruct o; cbn [step].
  - apply add_task_well_formed.
  - apply update_task_well_formed.
  - apply update_status_well_formed.
  - apply delete_task_well_formed.
Qed.

Lemma run_well_formed (ops : list op) :
  forall self w self' w',
    well_formed (tasks self) = true ->
    run ops self w = Ok self' w' ->
    well_formed (tasks self') = true.
Proof.
  induction ops as [|o ops IH]; intros self w self' w' Hs H.
  - cbn in H. unfold ret in H. now injection H as <- _.
  - cbn [run] in H. unfold bind at 1 in H.
    destruct (step self o w) as [self1 w1|e] eqn:E; [|discriminate].
    apply (IH self1 w1 self' w'); [|assumption].
    exact (step_well_formed self o w self1 w1 Hs E).
Qed.

Lemma load_tasks_well_formed (w : world) (v : pyval) (w' : world) :
  load_tasks w = Ok v w' -> well_formed v = true.
Proof.
  rewrite load_tasks_spec.
  destruct (disk w) as [| | |t]; try discriminate.
  - intros H. now injection H as <- _.
  - destruct (json_loads t) as [e|v'] eqn:E.
    + destruct (caught_by_load e); [|discriminate].
      intros H. now injection H as <- _.
    + intros H. injection H as <- _. exact (json_loads_well_formed t v' E).
Qed.

(** Whatever the file held at the start and whatever operations followed,
    the collection that [save_tasks] writes is the one [load_tasks] reads
    back. *)
Theorem reachable_store_round_trips (ops : list op) (w0 w1 w2 w3 : world)
  (self0 self : TaskManager) :
  init w0 = Ok self0 w1 ->
  run ops self0 w1 = Ok self w2 ->
  save_tasks self w2 = Ok tt w3 ->
  load_tasks w3 = Ok (tasks self) w3.
Proof.
  intros Hinit Hrun Hsave.
  assert (well_formed (tasks self0) = true) as H0.
  { revert Hinit. unfold init, bind.
    destruct (load_tasks w0) as [v w|e] eqn:E; [|discriminate].
    unfold ret. intros H. injection H as <- _. cbn [tasks].
    exact (load_tasks_well_formed w0 v w E). }
  pose proof (run_well_formed ops self0 w1 self w2 H0 Hrun) as Hwf.
  rewrite save_tasks_spec in Hsave.
  destruct (writable w2); [|discriminate].
  destruct (forallb encodable (json_dumps (tasks self))); [|discriminate].
  injection Hsave as <-.
  rewrite load_tasks_spec. cbn [disk saved].
  now rewrite json_loads_dumps.
Qed.

(** ** The ids under the operations other than [add_task] *)

Lemma replace_nth_middle (pre post : list pyval) (task x : pyval) :
  replace_nth (pre ++ task :: post) (length pre) x = pre ++ x :: post.
Proof. induction pre as [|y pre IH]; cbn; [reflexivity | now rewrite IH]. Qed.

Lemma del_nth_middle (pre post : list pyval) (task : pyval) :
  del_nth (pre ++ task :: post) (length pre) = pre ++ post.
Proof. induction pre as [|y pre IH]; cbn; [reflexivity | now rewrite IH]. Qed.

Lemma dict_get_set_other (d : list (str * pyval)) (k k' : str) (x : pyval) :
  str_eqb k' k = false -> dict_get (dict_set d k' x) k = dict_get d k.
Proof.
  intros Hk. induction d as [|[k0 v0] d IH]; cbn [dict_set dict_get].
  - now rewrite Hk.
  - destruct (str_eqb k0 k') eqn:E0; cbn [dict_get].
    + apply str_eqb_eq in E0. subst k0. now rewrite Hk.
    + destruct (str_eqb k0 k); [reflexivity | exact IH].
Qed.

Lemma setitem_keeps_id (task : pyval) (k : str) (x task' : pyval) :
  str_eqb k (py "id") = false ->
  setitem task k x = inr task' -> id_of task' = id_of task.
Proof.
  destruct task as [| | | | |d]; try discriminate. cbn [setitem].
  intros Hk E. injection E as <-. unfold id_of, getitem.
  now rewrite dict_get_set_other.
Qed.

Lemma assign_body_ids (self : TaskManager) (task_id : Z) (key : str)
  (x : pyval) (l : line) (pre post : list pyval) (task : pyval) (w : world)
  (self' : TaskManager) (w' : world) :
  tasks self = PList (pre ++ task :: post) ->
  str_eqb key (py "id") = false ->
  (id <- lift (getitem task (py "id")) ;;
   if eq_int id task_id then
     task1 <- lift (setitem task key x) ;;
     t <- now ;;
     task2 <- lift (setitem task1 (py "updated_at") (PStr t)) ;;
     let self' := {| tasks := assigned (tasks self) (0 + length pre) task2 |} in
     save_tasks self' ;;;
     print l ;;;
     ret (Some self')
   else ret None) w = Ok (Some self') w' ->
  store_ids self' = store_ids self.
Proof.
  intros Hl Hk. unfold bind at 1. unfold lift at 1.
  destruct (getitem task (py "id")) as [e|id]; [discriminate|].
  destruct (eq_int id task_id); [|discriminate].
  unfold bind at 1. unfold lift at 1.
  destruct (setitem task key x) as [e|task1] eqn:E1; [discriminate|].
  unfold bind at 1. cbn [now]. unfold bind at 1. unfold lift at 1.
  destruct (setitem task1 (py "updated_at") _) as [e|task2] eqn:E2;
    [discriminate|].
  cbv zeta. unfold bind at 1.
  destruct (save_tasks _ _) as [[] w1|e]; [|discriminate].
  unfold bind at 1. destruct (print l w1) as [[] w2|e]; [|discriminate].
  unfold ret. intros H. injection H as <- _.
  unfold store_ids. cbn [tasks]. rewrite Hl. cbn [assigned Nat.add].
  rewrite replace_nth_middle, !map_app. cbn [map].
  rewrite (setitem_keeps_id task1 (py "updated_at") _ task2 eq_refl E2).
  rewrite (setitem_keeps_id task key x task1 Hk E1). reflexivity.
Qed.

(** A loop over the keys of a dict or the characters of a string never
    returns from a body that starts with [task["id"]]. *)
Lemma items_of_list (v : pyval) (items pre post : list pyval) (task id : pyval) :
  py_iter v = inr items ->
  items = pre ++ task :: post ->
  getitem task (py "id") = inr id ->
  v = PList items.
Proof.
  intros Hi -> Hg.
  destruct v as [| | |s|l|d]; try discriminate; cbn [py_iter] in Hi;
    injection Hi as Hi.
  - assert (In task (map (fun c => PStr [c]) s)) as Hin
        by (rewrite Hi; apply in_elt).
    apply in_map_iff in Hin. destruct Hin as (c & <- & _). discriminate.
  - now subst.
  - assert (In task (map (fun kv => PStr (fst kv)) d)) as Hin
        by (rewrite Hi; apply in_elt).
    apply in_map_iff in Hin. destruct Hin as (c & <- & _). discriminate.
Qed.

Lemma update_task_ids (self : TaskManager) (task_id : Z) (d : str)
  (w : world) (self' : TaskManager) (w' : world) :
  update_task self task_id d w = Ok self' w' ->
  store_ids self' = store_ids self.
Proof.
  unfold update_task. unfold bind at 1. unfold lift at 1.
  destruct (py_iter (tasks self)) as [e|items] eqn:Ei; [discriminate|].
  unfold bind at 1.
  destruct (for_each _ 0%nat items w) as [[found|] w1|e] eqn:E;
    try discriminate.
  - unfold ret. intros H. injection H as <- _.
    apply for_each_found in E.
    destruct E as (pre & task & post & wj & Hitems & Hb). cbv beta in Hb.
    assert (exists id, getitem task (py "id") = inr id) as [id Eg].
    { destruct (getitem task (py "id")) as [e|id] eqn:Eg;
        [|now exists id].
      revert Hb. unfold bind at 1. unfold lift at 1. discriminate. }
    pose proof (items_of_list _ _ _ _ _ _ Ei Hitems Eg) as Hl.
    rewrite Hitems in Hl.
    exact (assign_body_ids self task_id (py "description") (PStr d) _
             pre post task wj found w1 Hl eq_refl Hb).
  - unfold bind at 1. destruct (print _ w1) as [[] w2|e]; [|discriminate].
    unfold ret. intros H. now injection H as <- _.
Qed.

Lemma update_status_ids (self : TaskManager) (task_id : Z) (status : str)
  (w : world) (self' : TaskManager) (w' : world) :
  update_status self task_id status w = Ok self' w' ->
  store_ids self' = store_ids self.
Proof.
  unfold update_status.
  destruct (negb (str_in status valid_statuses)).
  { unfold bind at 1. destruct (print _ w) as [[] w2|e]; [|discriminate].
    unfold ret. intros H. now injection H as <- _. }
  unfold bind at 1. unfold lift at 1.
  destruct (py_iter (tasks self)) as [e|items] eqn:Ei; [discriminate|].
  unfold bind at 1.
  destruct (for_each _ 0%nat items w) as [[found|] w1|e] eqn:E;
    try discriminate.
  - unfold ret. intros H. injection H as <- _.
    apply for_each_found in E.
    destruct E as (pre & task & post & wj & Hitems & Hb). cbv beta in Hb.
    assert (exists id, getitem task (py "id") = inr id) as [id Eg].
    { destruct (getitem task (py "id")) as [e|id] eqn:Eg;
        [|now exists id].
      revert Hb. unfold bind at 1. unfold lift at 1. discriminate. }
    pose proof (items_of_list _ _ _ _ _ _ Ei Hitems Eg) as Hl.
    rewrite Hitems in Hl.
    exact (assign_body_ids self task_id (py "status") (PStr status) _
             pre post task wj found w1 Hl eq_refl Hb).
  - unfold bind at 1. destruct (print _ w1) as [[] w2|e]; [|discriminate].
    unfold ret. intros H. now injection H as <- _.
Qed.

Lemma delete_task_ids (self : TaskManager) (task_id : Z) (w : world)
  (self' : TaskManager) (w' : world) :
  delete_task self task_id w = Ok self' w' ->
  store_ids self' = store_ids self
  \/ exists pre id post,
       store_ids self = pre ++ id :: post /\ store_ids self' = pre ++ post.
Proof.
  unfold delete_task. unfold bind at 1. unfold lift at 1.
  destruct (py_iter (tasks self)) as [e|items] eqn:Ei; [discriminate|].
  unfold bind at 1.
  destruct (for_each _ 0%nat items w) as [[found|] w1|e] eqn:E;
    try discriminate.
  - unfold ret. intros H. injection H as <- _. right.
    apply for_each_found in E.
    destruct E as (pre & task & post & wj & Hitems & Hb). cbv beta in Hb.
    assert (exists id, getitem task (py "id") = inr id) as [id Eg].
    { destruct (getitem task (py "id")) as [e|id] eqn:Eg;
        [|now exists id].
      revert Hb. unfold bind at 1. unfold lift at 1. discriminate. }
    pose proof (items_of_list _ _ _ _ _ _ Ei Hitems Eg) as Hl.
    rewrite Hitems in Hl.
    revert Hb. unfold bind at 1. unfold lift at 1. rewrite Eg.
    destruct (eq_int id task_id); [|discriminate].
    unfold bind at 1. unfold lift at 1. rewrite Hl.
    cbn [delitem Nat.add]. rewrite del_nth_middle.
    cbv zeta. unfold bind at 1.
    destruct (save_tasks _ _) as [[] w2|e]; [|discriminate].
    unfold bind at 1. destruct (print _ w2) as [[] w3|e]; [|discriminate].
    unfold ret. intros H. injection H as <- _.
    exists (map id_of pre), (id_of task), (map id_of post).
    unfold store_ids. cbn [tasks]. rewrite Hl, !map_app. split; reflexivity.
  - left. revert H. unfold bind at 1.
    destruct (print _ w1) as [[] w2|e]; [|discriminate].
    unfold ret. intros H. now injection H as <- _.
Qed.

(** * The claims about the store *)

(** ** Identifiers *)

(** C1. From the empty store, [add_task] called for N descriptions in a
    row (on a file that can be written, with text that UTF-8 encodes)
    completes, and the ids of the tasks, in the store and in the lines
    printed, are 1, ..., N in the order of creation. *)
Theorem add_task_ids_sequential (ds : list str) (w : world) :
  writable w = true ->
  forallb str_ok ds = true ->
  (forall n, str_ok (clock w n) = true) ->
  exists self' w',
    run (map Add ds) empty_store w = Ok self' w'
    /\ store_ids self' = map (fun i => Some (PInt i)) (ids_upto (length ds))
    /\ stdout w' = stdout w ++ map TaskAdded (ids_upto (length ds)).
Proof.
  intros Hw Hds Hclk.
  destruct (run_adds ds [] w Hw eq_refl Hds Hclk) as (w' & Hrun & Hout & _).
  eexists. exists w'. split; [exact Hrun|]. split.
  - unfold store_ids. cbn [tasks app length]. rewrite added_ids.
    rewrite <- seq_succ, map_map. reflexivity.
  - rewrite Hout. cbn [length]. rewrite <- seq_succ, map_map. reflexivity.
Qed.

(** C1 at two descriptions, with no file yet. *)
Lemma add_task_ids_sequential_witness :
  exists self' w',
    run (map Add [py "buy milk"; py "walk the dog"]) empty_store
      (world_with Missing) = Ok self' w'
    /\ store_ids self' = [Some (PInt 1); Some (PInt 2)]
    /\ stdout w' = [TaskAdded 1; TaskAdded 2].
Proof.
  apply (add_task_ids_sequential [py "buy milk"; py "walk the dog"]
           (world_with Missing)).
  - reflexivity.
  - reflexivity.
  - intros n. unfold world_with, clock, counting_clock, str_ok.
    rewrite forallb_app, int_repr_ok. reflexivity.
Defined.

(** C2. The ids of the store do not stay distinct: [add_task] takes the
    id from the length of the list, so after three tasks are added and the
    second is deleted, the next task gets the id 3 that the third task
    still holds. *)
Theorem id_reused_after_delete :
  match run reuse_ops empty_store (world_with Missing) with
  | Ok self' _ =>
      store_ids self' = [Some (PInt 1); Some (PInt 3); Some (PInt 3)]
      /\ ~ NoDup (store_ids self')
  | Raise _ => False
  end.
Proof.
  vm_compute. split; [reflexivity|].
  intros H. apply NoDup_cons_iff in H. destruct H as [_ H].
  apply NoDup_cons_iff in H. destruct H as [Hin _]. apply Hin. now left.
Qed.

(** ** The backing file *)

(** C3. Round trip: [save_tasks] succeeds on a file that can be written
    when the text of the collection encodes as UTF-8, and whenever it
    succeeds, [load_tasks] on the file it left returns the collection it
    was given, the same in content and order. *)
Theorem save_then_load_round_trip (self : TaskManager) (w : world) :
  well_formed (tasks self) = true ->
  (writable w = true -> storable (tasks self) = true ->
   exists w', save_tasks self w = Ok tt w')
  /\ (forall w', save_tasks self w = Ok tt w' ->
                 load_tasks w' = Ok (tasks self) w').
Proof.
  intros Hwf. split.
  - intros Hw Hs. eexists. now apply save_tasks_ok.
  - intros w' Hsave. rewrite save_tasks_spec in Hsave.
    destruct (writable w); [|discriminate].
    destruct (forallb encodable (json_dumps (tasks self))); [|discriminate].
    injection Hsave as <-.
    rewrite load_tasks_spec. cbn [disk saved].
    now rewrite json_loads_dumps.
Qed.

(** C3 for a store of one task, with no file yet. *)
Lemma save_then_load_round_trip_witness :
  exists w',
    save_tasks sample_store (world_with Missing) = Ok tt w'
    /\ load_tasks w' = Ok (tasks sample_store) w'.
Proof.
  destruct (save_then_load_round_trip sample_store (world_with Missing)
              eq_refl) as [Hsave Hload].
  destruct (Hsave eq_refl eq_refl) as [w' Hw'].
  exists w'. split; [exact Hw' | exact (Hload w' Hw')].
Defined.

(** C4, as stated, fails: [load_tasks] lets the error through when the
    file cannot be opened and when its bytes are not UTF-8. *)
Lemma load_tasks_raises :
  load_tasks (world_with Denied) = Raise PermissionError
  /\ load_tasks (world_with Garbled) = Raise UnicodeDecodeError.
Proof. split; reflexivity. Qed.

(** C4, amended. [load_tasks] returns the empty list, without raising, when
    there is no file and when the text of the file is not a JSON document;
    it returns the decoded value when the text decodes; the errors that
    [except (json.JSONDecodeError, FileNotFoundError)] does not name
    reach the caller. *)
Theorem load_tasks_fail_open (w : world) :
  (disk w = Missing -> load_tasks w = Ok (PList []) w)
  /\ (forall t, disk w = Content t -> json_loads t = inl JSONDecodeError ->
                load_tasks w = Ok (PList []) w)
  /\ (forall t v, disk w = Content t -> json_loads t = inr v ->
                  load_tasks w = Ok v w)
  /\ (disk w = Denied -> load_tasks w = Raise PermissionError)
  /\ (disk w = Garbled -> load_tasks w = Raise UnicodeDecodeError).
Proof.
  rewrite load_tasks_spec. repeat split.
  - intros ->. reflexivity.
  - intros t -> ->. reflexivity.
  - intros t v -> ->. reflexivity.
  - intros ->. reflexivity.
  - intros ->. reflexivity.
Qed.

(** C4, amended, with no file, with a file that is not JSON and with a
    file that holds a list of two numbers. *)
Lemma load_tasks_fail_open_witness :
  load_tasks (world_with Missing) = Ok (PList []) (world_with Missing)
  /\ load_tasks (world_with (Content (py "{not json"))) =
       Ok (PList []) (world_with (Content (py "{not json")))
  /\ load_tasks (world_with (Content (py "[1, 2]"))) =
       Ok (PList [PInt 1; PInt 2]) (world_with (Content (py "[1, 2]"))).
Proof.
  split; [|split].
  - exact (proj1 (load_tasks_fail_open (world_with Missing)) eq_refl).
  - exact (proj1 (proj2 (load_tasks_fail_open
                           (world_with (Content (py "{not json")))))
             (py "{not json") eq_refl eq_refl).
  - exact (proj1 (proj2 (proj2 (load_tasks_fail_open
                                  (world_with (Content (py "[1, 2]"))))))
             (py "[1, 2]") (PList [PInt 1; PInt 2]) eq_refl eq_refl).
Defined.

(** C10. [load_tasks] checks nothing about the value it decodes: whatever
    the text of the file decodes to becomes [self.tasks] as it is.  A dict,
    a list of values that are no task records and two records with the
    same id are all adopted. *)
Theorem load_tasks_adopts_unvalidated :
  (forall w t v,
      disk w = Content t -> json_loads t = inr v ->
      load_tasks w = Ok v w /\ init w = Ok {| tasks := v |} w)
  /\ init (world_with (Content (py "{}"))) =
       Ok {| tasks := PDict [] |} (world_with (Content (py "{}")))
  /\ init (world_with (Content (py "[1, null]"))) =
       Ok {| tasks := PList [PInt 1; PNone] |}
          (world_with (Content (py "[1, null]")))
  /\ init (world_with (Content (json_dumps twin_tasks))) =
       Ok {| tasks := twin_tasks |}
          (world_with (Content (json_dumps twin_tasks)))
  /\ store_ids {| tasks := twin_tasks |} = [Some (PInt 1); Some (PInt 1)].
Proof.
  split; [|repeat split; vm_compute; reflexivity].
  intros w t v Hd Hv.
  assert (load_tasks w = Ok v w) as Hl.
  { rewrite load_tasks_spec, Hd, Hv. reflexivity. }
  split; [exact Hl|]. unfold init, bind. rewrite Hl. reflexivity.
Qed.

(** C10 for a file that holds one number. *)
Lemma load_tasks_adopts_unvalidated_witness :
  load_tasks (world_with (Content (py "42"))) =
    Ok (PInt 42) (world_with (Content (py "42")))
  /\ init (world_with (Content (py "42"))) =
       Ok {| tasks := PInt 42 |} (world_with (Content (py "42"))).
Proof.
  exact (proj1 load_tasks_adopts_unvalidated
           (world_with (Content (py "42"))) (py "42") (PInt 42)
           eq_refl eq_refl).
Defined.

(** ** Errors reported by the operations *)

(** C5. For a store of task records none of which has the id given,
    [update_task], [update_status] with a valid status and [delete_task]
    return with the store as it was and a world that differs only by the
    line that reports the task as not found: the file is not written. *)
Theorem missing_id_changes_nothing (l : list pyval) (task_id : Z)
  (description status : str) (w : world) :
  forallb is_task l = true ->
  existsb (has_id task_id) l = false ->
  str_in status valid_statuses = true ->
  update_task {| tasks := PList l |} task_id description w =
    Ok {| tasks := PList l |} (printed w (TaskNotFound task_id))
  /\ update_status {| tasks := PList l |} task_id status w =
       Ok {| tasks := PList l |} (printed w (TaskNotFound task_id))
  /\ delete_task {| tasks := PList l |} task_id w =
       Ok {| tasks := PList l |} (printed w (TaskNotFound task_id))
  /\ disk (printed w (TaskNotFound task_id)) = disk w.
Proof.
  intros Ht Hid Hs. repeat split.
  - now apply update_task_missing.
  - now apply update_status_missing.
  - now apply delete_task_missing.
Qed.

(** C5 for the store of one task and the id 7. *)
Lemma missing_id_changes_nothing_witness :
  update_task sample_store 7 (py "buy bread") (world_with Missing) =
    Ok sample_store (printed (world_with Missing) (TaskNotFound 7))
  /\ update_status sample_store 7 (py "terminada") (world_with Missing) =
       Ok sample_store (printed (world_with Missing) (TaskNotFound 7))
  /\ delete_task sample_store 7 (world_with Missing) =
       Ok sample_store (printed (world_with Missing) (TaskNotFound 7))
  /\ disk (printed (world_with Missing) (TaskNotFound 7)) = Missing.
Proof.
  apply (missing_id_changes_nothing
           [new_task 0 (py "buy milk") (counting_clock 0) (counting_clock 1)]
           7 (py "buy bread") (py "terminada") (world_with Missing));
    reflexivity.
Defined.

(** C6. For every store, id and status outside [valid_statuses],
    [update_status] prints the line that rejects the status and returns
    with the store as it was: no task is changed, the file is not written
    and the clock is not read. *)
Theorem invalid_status_rejected (self : TaskManager) (task_id : Z)
  (status : str) (w : world) :
  str_in status valid_statuses = false ->
  update_status self task_id status w =
    Ok self (printed w (InvalidStatus valid_statuses))
  /\ disk (printed w (InvalidStatus valid_statuses)) = disk w
  /\ ticks (printed w (InvalidStatus valid_statuses)) = ticks w.
Proof.
  intros Hs. repeat split. now apply update_status_invalid.
Qed.

(** C6 for the status [done], which is not one of the three. *)
Lemma invalid_status_rejected_witness :
  update_status sample_store 1 (py "done") (world_with Missing) =
    Ok sample_store
      (printed (world_with Missing) (InvalidStatus valid_statuses))
  /\ disk (printed (world_with Missing) (InvalidStatus valid_statuses))
     = Missing
  /\ ticks (printed (world_with Missing) (InvalidStatus valid_statuses))
     = 0%nat.
Proof.
  apply (invalid_status_rejected sample_store 1 (py "done")
           (world_with Missing)).
  reflexivity.
Defined.

(** C9. [update_status] checks the status before it looks the id up: with
    a status outside [valid_statuses] the one line printed is the rejection
    of the status, whatever the store holds, so also when no task has the
    id; the line for a task not found is not printed, and the store and
    the file are as before. *)
Theorem invalid_status_checked_before_lookup (self : TaskManager)
  (task_id : Z) (status : str) (w : world) :
  str_in status valid_statuses = false ->
  exists w',
    update_status self task_id status w = Ok self w'
    /\ stdout w' = stdout w ++ [InvalidStatus valid_statuses]
    /\ ~ In (TaskNotFound task_id) [InvalidStatus valid_statuses]
    /\ disk w' = disk w.
Proof.
  intros Hs. exists (printed w (InvalidStatus valid_statuses)).
  rewrite update_status_invalid by assumption.
  repeat split. intros [H|[]]. discriminate.
Qed.

(** C9 for the id 7, which the store of one task does not hold. *)
Lemma invalid_status_checked_before_lookup_witness :
  exists w',
    update_status sample_store 7 (py "done") (world_with Missing)
      = Ok sample_store w'
    /\ stdout w' = [InvalidStatus valid_statuses]
    /\ ~ In (TaskNotFound 7) [InvalidStatus valid_statuses]
    /\ disk w' = Missing.
Proof.
  apply (invalid_status_checked_before_lookup sample_store 7 (py "done")
           (world_with Missing)).
  reflexivity.
Defined.

(** ** Listings *)

(** C7. For a store of task records whose text can be printed, each of the
    three listings by status prints the tasks of the store that have its
    status, in the order of the store, and [list_all_tasks] prints a row
    for every task: the lines of a listing by status are the rows of
    [list_all_tasks] with that status, in the same order.  A listing
    changes the output only: the file is not written. *)
Theorem listing_by_status_is_filter (l : list pyval) (w : world) :
  forallb is_task l = true ->
  storable (PList l) = true ->
  list_pending_tasks {| tasks := PList l |} w =
    Ok tt (output w (listing Hourglass Hourglass
                       (map (item_line Hourglass)
                          (filter (has_status (py "pendiente")) l))))
  /\ list_in_progress_tasks {| tasks := PList l |} w =
       Ok tt (output w (listing Cycle Cycle
                          (map (item_line Cycle)
                             (filter (has_status (py "en_progreso")) l))))
  /\ list_completed_tasks {| tasks := PList l |} w =
       Ok tt (output w (listing CheckMark CheckMark
                          (map (item_line CheckMark)
                             (filter (has_status (py "terminada")) l))))
  /\ list_all_tasks {| tasks := PList l |} w =
       Ok tt (output w (listing Memo Clipboard (map row_line l)))
  /\ (forall status i,
        map (item_line i) (filter (has_status status) l) =
        map (row_as_item i) (filter (row_status_is status) (map row_line l)))
  /\ (forall ls, disk (output w ls) = disk w).
Proof.
  intros Ht Hs. repeat split.
  - now apply list_tasks_with_spec.
  - now apply list_tasks_with_spec.
  - now apply list_tasks_with_spec.
  - now apply list_all_tasks_spec.
  - intros status i. now apply rows_with_status.
Qed.

(** C7 for four tasks: two pending, one in progress, one done. *)
Lemma listing_by_status_is_filter_witness :
  list_pending_tasks {| tasks := PList mixed_tasks |} (world_with Missing) =
    Ok tt (output (world_with Missing)
             [Banner Hourglass;
              Item Hourglass (PInt 1) (PStr (py "buy milk"));
              Item Hourglass (PInt 4) (PStr (py "call home"));
              Blank])
  /\ list_in_progress_tasks {| tasks := PList mixed_tasks |}
       (world_with Missing) =
       Ok tt (output (world_with Missing)
                [Banner Cycle;
                 Item Cycle (PInt 2) (PStr (py "walk the dog"));
                 Blank])
  /\ list_completed_tasks {| tasks := PList mixed_tasks |}
       (world_with Missing) =
       Ok tt (output (world_with Missing)
                [Banner CheckMark;
                 Item CheckMark (PInt 3) (PStr (py "pay rent"));
                 Blank])
  /\ list_all_tasks {| tasks := PList mixed_tasks |} (world_with Missing) =
       Ok tt (output (world_with Missing)
                (listing Memo Clipboard (map row_line mixed_tasks)))
  /\ (forall status i,
        map (item_line i) (filter (has_status status) mixed_tasks) =
        map (row_as_item i)
          (filter (row_status_is status) (map row_line mixed_tasks)))
  /\ (forall ls, disk (output (world_with Missing) ls) = Missing).
Proof.
  apply (listing_by_status_is_filter mixed_tasks (world_with Missing));
    reflexivity.
Defined.

(** ** Creation *)

(** C8, as stated, fails: [add_task] reads the clock once for
    [created_at] and once more for [updated_at], so with a clock that
    advances between the two readings the new task has two different
    time stamps. *)
Lemma add_task_reads_clock_twice :
  match add_task empty_store (py "buy milk") (world_with Missing) with
  | Ok self' _ =>
      match tasks self' with
      | PList [task] =>
          field task "created_at" = PStr (py "2025-01-01T09:00:00.100000")
          /\ field task "updated_at" = PStr (py "2025-01-01T09:00:00.100001")
          /\ field task "created_at" <> field task "updated_at"
      | _ => False
      end
  | Raise _ => False
  end.
Proof. vm_compute. repeat split. discriminate. Qed.

(** C8, amended. For a store that is a list of n items, [add_task] (on a
    file that can be written, with text that UTF-8 encodes) builds a task
    with id n + 1, the description given, the status [pendiente],
    [created_at] the reading of the clock and [updated_at] the reading
    after it; it appends the task at the end of the list, replaces the
    file by the document of the new list and prints the id. *)
Theorem add_task_appends (l : list pyval) (description : str) (w : world) :
  writable w = true ->
  storable (PList l) = true ->
  str_ok description = true ->
  str_ok (clock w (ticks w)) = true ->
  str_ok (clock w (S (ticks w))) = true ->
  exists task w',
    add_task {| tasks := PList l |} description w =
      Ok {| tasks := PList (l ++ [task]) |} w'
    /\ field task "id" = PInt (Z.of_nat (length l) + 1)
    /\ field task "description" = PStr description
    /\ field task "status" = PStr (py "pendiente")
    /\ field task "created_at" = PStr (clock w (ticks w))
    /\ field task "updated_at" = PStr (clock w (S (ticks w)))
    /\ disk w' = Content (json_dumps (PList (l ++ [task])))
    /\ stdout w' = stdout w ++ [TaskAdded (Z.of_nat (length l) + 1)]
    /\ ticks w' = S (S (ticks w)).
Proof.
  intros Hw Hl Hd Hc Hu.
  eexists. eexists. split; [now apply add_task_ok|].
  repeat split.
Qed.

(** C8, amended, for a second task added to the store of one task. *)
Lemma add_task_appends_witness :
  exists task w',
    add_task sample_store (py "walk the dog") (world_with Missing) =
      Ok {| tasks := PList ([new_task 0 (py "buy milk") (counting_clock 0)
                               (counting_clock 1)] ++ [task]) |} w'
    /\ field task "id" = PInt 2
    /\ field task "description" = PStr (py "walk the dog")
    /\ field task "status" = PStr (py "pendiente")
    /\ field task "created_at" = PStr (counting_clock 0)
    /\ field task "updated_at" = PStr (counting_clock 1)
    /\ disk w' =
         Content (json_dumps
                    (PList ([new_task 0 (py "buy milk") (counting_clock 0)
                               (counting_clock 1)] ++ [task])))
    /\ stdout w' = [TaskAdded 2]
    /\ ticks w' = 2%nat.
Proof.
  apply (add_task_appends
           [new_task 0 (py "buy milk") (counting_clock 0) (counting_clock 1)]
           (py "walk the dog") (world_with Missing)); reflexivity.
Defined.

(** * Further proofs *)

(** ** The loop that looks a task up by its id *)

Lemma update_task_assign (self : TaskManager) (task_id : Z) (d : str) :
  update_task self task_id d =
  assign_to_task self task_id (py "description") (PStr d) (TaskUpdated task_id).
Proof. reflexivity. Qed.

Lemma update_status_assign (self : TaskManager) (task_id : Z) (status : str) :
  str_in status valid_statuses = true ->
  update_status self task_id status =
  assign_to_task self task_id (py "status") (PStr status)
    (TaskMarked task_id status).
Proof. intros H. unfold update_status. rewrite H. reflexivity. Qed.

(** The loop passes the tasks that have another id. *)
Lemma for_each_skip {R : Type} (task_id : Z)
  (hit : nat -> pyval -> M (option R)) (pre rest : list pyval) :
  forallb is_task pre = true ->
  existsb (has_id task_id) pre = false ->
  forall i w,
    for_each (fun i task =>
                id <- lift (getitem task (py "id")) ;;
                if eq_int id task_id then hit i task else ret None)
      i (pre ++ rest) w =
    for_each (fun i task =>
                id <- lift (getitem task (py "id")) ;;
                if eq_int id task_id then hit i task else ret None)
      (i + length pre) rest w.
Proof.
  induction pre as [|task pre IH]; intros Ht Hid i w.
  - cbn [app length]. now rewrite Nat.add_0_r.
  - cbn [forallb existsb] in Ht, Hid.
    apply andb_true_iff in Ht. destruct Ht as [Htask Hpre].
    apply orb_false_iff in Hid. destruct Hid as [Hid Hids].
    destruct (is_task_id task Htask) as [z Hz].
    unfold has_id in Hid. rewrite Hz in Hid.
    cbn [app for_each length]. unfold bind at 1. unfold bind at 1.
    unfold lift at 1. rewrite Hz, Hid. unfold ret at 1.
    rewrite IH by assumption. now rewrite Nat.add_succ_r.
Qed.

(** A loop that ends without an exception passed every item, none of which
    has the id, or stopped at the first item that has it. *)
Lemma for_each_lookup {R : Type} (task_id : Z)
  (hit : nat -> pyval -> M (option R)) :
  (forall i task w w', hit i task w <> Ok None w') ->
  forall items i w r w',
    for_each (fun i task =>
                id <- lift (getitem task (py "id")) ;;
                if eq_int id task_id then hit i task else ret None)
      i items w = Ok r w' ->
    (r = None /\ w' = w /\ existsb (has_id task_id) items = false)
    \/ exists pre task post,
         items = pre ++ task :: post
         /\ existsb (has_id task_id) pre = false
         /\ has_id task_id task = true
         /\ hit (i + length pre)%nat task w = Ok r w'.
Proof.
  intros Hhit. induction items as [|task items IH]; intros i w r w' H.
  - cbn in H. unfold ret in H. injection H as <- <-. left. auto.
  - cbn [for_each] in H. unfold bind at 1 in H. unfold bind at 1 in H.
    unfold lift at 1 in H.
    destruct (getitem task (py "id")) as [e|id] eqn:Eg; [discriminate|].
    destruct (eq_int id task_id) eqn:Eid.
    + destruct (hit i task w) as [[x|] w1|e] eqn:Eh; try discriminate.
      * unfold ret in H. injection H as <- <-. right.
        exists [], task, items. cbn [app length existsb].
        rewrite Nat.add_0_r. unfold has_id. rewrite Eg.
        repeat split; assumption.
      * now destruct (Hhit i task w w1).
    + unfold ret at 1 in H. apply IH in H.
      destruct H as [(-> & -> & Hno)|(pre & t & post & -> & Hpre & Ht & Hh)].
      * left. cbn [existsb]. unfold has_id at 1. rewrite Eg, Eid, Hno. auto.
      * right. exists (task :: pre), t, post. cbn [app length existsb].
        unfold has_id at 1. rewrite Eg, Eid, Hpre, Nat.add_succ_r.
        repeat split; assumption.
Qed.

Lemma for_each_raises {R : Type} (task_id : Z)
  (hit : nat -> pyval -> M (option R)) (pre post : list pyval) (x : pyval)
  (e : exn) (w : world) :
  forallb is_task pre = true ->
  existsb (has_id task_id) pre = false ->
  getitem x (py "id") = inl e ->
  for_each (fun i task =>
              id <- lift (getitem task (py "id")) ;;
              if eq_int id task_id then hit i task else ret None)
    0 (pre ++ x :: post) w = Raise e.
Proof.
  intros Hpre Hno Hx. rewrite for_each_skip by assumption.
  cbn [for_each]. unfold bind at 1. unfold bind at 1. unfold lift at 1.
  now rewrite Hx.
Qed.

(** What the body of the two updates does with the task it found. *)
Lemma assign_hit_spec (self : TaskManager) (key : str) (x : pyval)
  (done : line) (i : nat) (task : pyval) (w : world) :
  (task1 <- lift (setitem task key x) ;;
   t <- now ;;
   task2 <- lift (setitem task1 (py "updated_at") (PStr t)) ;;
   let self' := {| tasks := assigned (tasks self) i task2 |} in
   save_tasks self' ;;;
   print done ;;;
   ret (Some self')) w =
  match task with
  | PDict d =>
      let task2 := PDict (dict_set (dict_set d key x) (py "updated_at")
                            (PStr (clock w (ticks w)))) in
      let v := assigned (tasks self) i task2 in
      if writable w
      then if forallb encodable (json_dumps v)
           then if line_ok done
                then Ok (Some {| tasks := v |})
                       (printed (saved (later w 1) v) done)
                else Raise UnicodeEncodeError
           else Raise UnicodeEncodeError
      else Raise PermissionError
  | _ => Raise TypeError
  end.
Proof.
  destruct task as [| | | | |d]; try reflexivity.
  unfold bind at 1. cbn [setitem lift]. unfold bind at 1. cbn [now].
  unfold bind at 1. cbn [setitem lift]. cbv zeta. unfold bind at 1.
  rewrite save_tasks_spec. cbn [tasks].
  destruct w as [[| | |doc] c n out]; cbn [writable disk clock ticks];
    try reflexivity;
    match goal with
    | |- context [forallb encodable ?t] => destruct (forallb encodable t)
    end; try reflexivity;
    unfold bind, print, ret, saved, printed, later; cbn;
    destruct (line_ok done); reflexivity.
Qed.

(** What the body of [delete_task] does with the task it found. *)
Lemma delete_hit_spec (self : TaskManager) (task_id : Z) (i : nat) (w : world) :
  (tasks' <- lift (delitem (tasks self) i) ;;
   let self' := {| tasks := tasks' |} in
   save_tasks self' ;;;
   print (TaskDeleted task_id) ;;;
   ret (Some self')) w =
  match delitem (tasks self) i with
  | inr v =>
      if writable w
      then if forallb encodable (json_dumps v)
           then Ok (Some {| tasks := v |})
                  (printed (saved w v) (TaskDeleted task_id))
           else Raise UnicodeEncodeError
      else Raise PermissionError
  | inl e => Raise e
  end.
Proof.
  unfold bind at 1. unfold lift at 1.
  destruct (delitem (tasks self) i) as [e|v]; [reflexivity|].
  cbv zeta. unfold bind at 1. rewrite save_tasks_spec. cbn [tasks].
  destruct (writable w); [|reflexivity].
  destruct (forallb encodable (json_dumps v)); reflexivity.
Qed.

Lemma has_id_dict (task_id : Z) (task : pyval) :
  has_id task_id task = true -> exists d, task = PDict d.
Proof.
  destruct task as [| | | | |d]; try discriminate. intros _. now exists d.
Qed.

(** A loop over a string or over the keys of a dict yields no dict. *)
Lemma iter_dict (v : pyval) (items pre post : list pyval)
  (d : list (str * pyval)) :
  py_iter v = inr items -> items = pre ++ PDict d :: post -> v = PList items.
Proof.
  intros Hi ->.
  destruct v as [| | |s|l|e]; try discriminate; cbn [py_iter] in Hi;
    injection Hi as Hi.
  - assert (In (PDict d) (map (fun c => PStr [c]) s)) as Hin
        by (rewrite Hi; apply in_elt).
    apply in_map_iff in Hin. destruct Hin as (c & E & _). discriminate.
  - now subst.
  - assert (In (PDict d) (map (fun kv => PStr (fst kv)) e)) as Hin
        by (rewrite Hi; apply in_elt).
    apply in_map_iff in Hin. destruct Hin as (c & E & _). discriminate.
Qed.

(** The two outcomes of an update that returns: no item has the id and the
    store is as it was, or the first item with the id has the new value and
    the new time stamp, and the store is saved. *)
Lemma assign_to_task_inv (self : TaskManager) (task_id : Z) (key : str)
  (x : pyval) (done : line) (w : world) (self' : TaskManager) (w' : world) :
  assign_to_task self task_id key x done w = Ok self' w' ->
  (self' = self /\ w' = printed w (TaskNotFound task_id)
   /\ exists items, py_iter (tasks self) = inr items
                    /\ existsb (has_id task_id) items = false)
  \/ exists pre d post,
       tasks self = PList (pre ++ PDict d :: post)
       /\ existsb (has_id task_id) pre = false
       /\ has_id task_id (PDict d) = true
       /\ self' =
            {| tasks := PList (pre ++ PDict (dict_set (dict_set d key x)
                                               (py "updated_at")
                                               (PStr (clock w (ticks w))))
                                 :: post) |}
       /\ w' = printed (saved (later w 1) (tasks self')) done.
Proof.
  unfold assign_to_task. unfold bind at 1. unfold lift at 1.
  destruct (py_iter (tasks self)) as [e|items] eqn:Ei; [discriminate|].
  unfold bind at 1.
  destruct (for_each _ 0%nat items w) as [r w1|e] eqn:E; [|discriminate].
  apply for_each_lookup in E.
  2:{ intros i task w0 w0'. rewrite assign_hit_spec.
      destruct task; try discriminate. cbv zeta.
      destruct (writable w0); [|discriminate].
      destruct (forallb encodable _); [|discriminate].
      destruct (line_ok done); discriminate. }
  destruct E as [(-> & -> & Hno)|(pre & task & post & Hitems & Hpre & Ht & Hh)].
  - intros H. left. revert H. unfold bind, print, ret. cbn [line_ok].
    intros H. injection H as <- <-. repeat split. now exists items.
  - right. rewrite assign_hit_spec in Hh.
    destruct (has_id_dict _ _ Ht) as [d ->].
    pose proof (iter_dict _ _ _ _ _ Ei Hitems) as Hv. cbv zeta in Hh.
    destruct (writable w); [|discriminate].
    destruct (forallb encodable _); [|discriminate].
    destruct (line_ok done); [|discriminate].
    injection Hh as <- <-. unfold ret in H. injection H as <- <-.
    exists pre, d, post. rewrite Hv, Hitems. cbn [assigned Nat.add tasks].
    rewrite replace_nth_middle. repeat split; assumption.
Qed.

(** The two outcomes of a [delete_task] that returns. *)
Lemma delete_task_inv (self : TaskManager) (task_id : Z) (w : world)
  (self' : TaskManager) (w' : world) :
  delete_task self task_id w = Ok self' w' ->
  (self' = self /\ w' = printed w (TaskNotFound task_id)
   /\ exists items, py_iter (tasks self) = inr items
                    /\ existsb (has_id task_id) items = false)
  \/ exists pre task post,
       tasks self = PList (pre ++ task :: post)
       /\ existsb (has_id task_id) pre = false
       /\ has_id task_id task = true
       /\ self' = {| tasks := PList (pre ++ post) |}
       /\ w' = printed (saved w (PList (pre ++ post))) (TaskDeleted task_id).
Proof.
  unfold delete_task. unfold bind at 1. unfold lift at 1.
  destruct (py_iter (tasks self)) as [e|items] eqn:Ei; [discriminate|].
  unfold bind at 1.
  destruct (for_each _ 0%nat items w) as [r w1|e] eqn:E; [|discriminate].
  apply for_each_lookup in E.
  2:{ intros i task w0 w0'. rewrite delete_hit_spec.
      destruct (delitem (tasks self) i); [discriminate|].
      destruct (writable w0); [|discriminate].
      destruct (forallb encodable _); discriminate. }
  destruct E as [(-> & -> & Hno)|(pre & task & post & Hitems & Hpre & Ht & Hh)].
  - intros H. left. revert H. unfold bind, print, ret. cbn [line_ok].
    intros H. injection H as <- <-. repeat split. now exists items.
  - intros H. right. rewrite delete_hit_spec in Hh.
    destruct (has_id_dict _ _ Ht) as [d ->].
    pose proof (iter_dict _ _ _ _ _ Ei Hitems) as Hv.
    rewrite Hv, Hitems in Hh. cbn [delitem Nat.add] in Hh.
    rewrite del_nth_middle in Hh.
    destruct (writable w); [|discriminate].
    destruct (forallb encodable _); [|discriminate].
    injection Hh as <- <-. unfold ret in H. injection H as <- <-.
    exists pre, (PDict d), post. rewrite Hv, Hitems.
    repeat split; assumption.
Qed.

(** An [add_task] that returns was given a list. *)
Lemma add_task_inv (self : TaskManager) (d : str) (w : world)
  (self' : TaskManager) (w' : world) :
  add_task self d w = Ok self' w' ->
  exists l,
    tasks self = PList l
    /\ self' = {| tasks := PList (l ++ [new_task (length l) d (clock w (ticks w))
                                          (clock w (S (ticks w)))]) |}
    /\ w' = printed (saved (later w 2) (tasks self'))
              (TaskAdded (Z.of_nat (length l) + 1)).
Proof.
  destruct self as [v]. destruct v as [| | |s|l|e]; try discriminate.
  pose proof (add_task_spec l d w) as E. cbv zeta in E. rewrite E.
  destruct (writable w); [|discriminate].
  destruct (forallb encodable _); [|discriminate].
  intros H. injection H as <- <-. exists l. repeat split.
Qed.

(** ** Keys of a task and what can be written *)

Lemma dict_get_set_same (d : list (str * pyval)) (k : str) (x : pyval) :
  dict_get (dict_set d k x) k = Some x.
Proof.
  induction d as [|[k0 v0] d IH]; cbn [dict_set dict_get].
  - now rewrite str_eqb_refl.
  - destruct (str_eqb k0 k) eqn:E; cbn [dict_get]; rewrite E;
      [reflexivity | exact IH].
Qed.

Lemma str_eqb_neq (a b : str) : a <> b -> str_eqb a b = false.
Proof.
  intros H. destruct (str_eqb a b) eqn:E; [|reflexivity].
  apply str_eqb_eq in E. contradiction.
Qed.

Lemma dict_get_set (d : list (str * pyval)) (k k0 : str) (x : pyval) :
  dict_get (dict_set d k x) k0 =
  if str_eqb k k0 then Some x else dict_get d k0.
Proof.
  destruct (str_eqb k k0) eqn:E.
  - apply str_eqb_eq in E. subst k0. apply dict_get_set_same.
  - now apply dict_get_set_other.
Qed.

Lemma getitem_dict_set_same (d : list (str * pyval)) (k : str) (x : pyval) :
  getitem (PDict (dict_set d k x)) k = inr x.
Proof. unfold getitem. now rewrite dict_get_set_same. Qed.

Lemma getitem_dict_set_other (d : list (str * pyval)) (k k' : str) (x : pyval) :
  k' <> k -> getitem (PDict (dict_set d k' x)) k = getitem (PDict d) k.
Proof.
  intros H. unfold getitem. rewrite dict_get_set_other; [reflexivity|].
  now apply str_eqb_neq.
Qed.

Lemma storable_dict_set (d : list (str * pyval)) (k : str) (x : pyval) :
  storable (PDict d) = true -> str_ok k = true -> storable x = true ->
  storable (PDict (dict_set d k x)) = true.
Proof.
  change (storable (PDict ?e))
    with (forallb (fun kv => str_ok (fst kv) && storable (snd kv)) e).
  intros Hd Hk Hx.
  induction d as [|[k0 v0] d IH]; cbn [dict_set forallb fst snd].
  - now rewrite Hk, Hx.
  - cbn [forallb fst snd] in Hd. apply andb_true_iff in Hd.
    destruct Hd as [H0 Hd]. apply andb_true_iff in H0. destruct H0 as [Hk0 Hv0].
    destruct (str_eqb k0 k); cbn [forallb fst snd].
    + now rewrite Hk0, Hx, Hd.
    + now rewrite Hk0, Hv0, IH.
Qed.

Lemma storable_middle (pre post : list pyval) (task : pyval) :
  storable (PList (pre ++ task :: post)) = true <->
  storable (PList pre) = true /\ storable task = true
  /\ storable (PList post) = true.
Proof.
  change (storable (PList ?x)) with (forallb storable x).
  rewrite forallb_app. cbn [forallb]. rewrite !andb_true_iff. tauto.
Qed.

Lemma valid_status_ok (status : str) :
  str_in status valid_statuses = true -> str_ok status = true.
Proof.
  intros H. apply str_in_In in H.
  repeat (destruct H as [<-|H]; [reflexivity|]). destruct H.
Qed.

(** A character the encoder writes as it is, or one below the
    surrogates. *)
Lemma escape_char_encodable (c : N) :
  forallb encodable (escape_char c) = true -> encodable c = true.
Proof.
  unfold escape_char.
  repeat match goal with
         | |- context [if N.eqb c ?k then _ else _] =>
             let H := fresh "H" in
             destruct (N.eqb c k) eqn:H;
             [apply N.eqb_eq in H; subst c; reflexivity|]
         end.
  destruct (N.ltb c 32) eqn:E.
  - intros _. apply N.ltb_lt in E. unfold encodable.
    apply orb_true_iff. left. apply N.ltb_lt. lia.
  - cbn [forallb]. now rewrite andb_true_r.
Qed.

Lemma encode_basestring_encodable (s : str) :
  forallb encodable (encode_basestring s) = true -> str_ok s = true.
Proof.
  unfold str_ok, encode_basestring.
  change (34 :: ?t) with ([34] ++ t). rewrite !forallb_app.
  intros H. apply andb_true_iff in H. destruct H as [_ H].
  apply andb_true_iff in H. destruct H as [H _].
  induction s as [|c s IH]; [reflexivity|].
  cbn [flat_map] in H. rewrite forallb_app in H.
  apply andb_true_iff in H. destruct H as [Hc Hs].
  cbn [forallb]. now rewrite (escape_char_encodable c Hc), IH.
Qed.

Lemma join_encodable (sep : text) (chunks : list text) :
  forallb encodable (join sep chunks) = true ->
  Forall (fun c => forallb encodable c = true) chunks.
Proof.
  induction chunks as [|c cs IH]; intros H; [constructor|].
  destruct cs as [|c' cs].
  - repeat constructor. exact H.
  - rewrite join_cons2, !forallb_app in H.
    apply andb_true_iff in H. destruct H as [Hc H].
    apply andb_true_iff in H. destruct H as [_ H].
    constructor; [exact Hc | exact (IH H)].
Qed.

(** Every string of a value is in the text the encoder writes for it. *)
Lemma encode_encodable (v : pyval) :
  forall level,
    forallb encodable (encode level v) = true -> storable v = true.
Proof.
  induction v as [| b | z | s | l IH | d IH] using pyval_ind';
    intros level H; try reflexivity.
  - now apply encode_basestring_encodable.
  - destruct l as [|x l]; [reflexivity|].
    rewrite encode_list_cons in H.
    change (91 :: ?t) with ([91] ++ t) in H. rewrite !forallb_app in H.
    apply andb_true_iff in H. destruct H as [_ H].
    apply andb_true_iff in H. destruct H as [_ H].
    apply andb_true_iff in H. destruct H as [H _].
    apply join_encodable in H.
    change (storable (PList (x :: l))) with (forallb storable (x :: l)).
    apply forallb_forall. intros y Hy.
    rewrite Forall_forall in IH, H.
    apply (IH y Hy (S level)). apply H. now apply in_map.
  - destruct d as [|kv d]; [reflexivity|].
    rewrite encode_dict_cons in H.
    change (123 :: ?t) with ([123] ++ t) in H. rewrite !forallb_app in H.
    apply andb_true_iff in H. destruct H as [_ H].
    apply andb_true_iff in H. destruct H as [_ H].
    apply andb_true_iff in H. destruct H as [H _].
    apply join_encodable in H.
    change (storable (PDict (kv :: d)))
      with (forallb (fun kv => str_ok (fst kv) && storable (snd kv)) (kv :: d)).
    apply forallb_forall. intros y Hy.
    rewrite Forall_forall in IH, H.
    specialize (H _ (in_map (fun kv => encode_basestring (fst kv) ++ py ": "
                                         ++ encode (S level) (snd kv)) _ y Hy)).
    cbv beta in H. rewrite !forallb_app in H.
    apply andb_true_iff in H. destruct H as [Hk H].
    apply andb_true_iff in H. destruct H as [_ Hv].
    rewrite (encode_basestring_encodable _ Hk).
    now rewrite (IH y Hy (S level) Hv).
Qed.

Lemma json_dumps_encodable (v : pyval) :
  forallb encodable (json_dumps v) = storable v.
Proof.
  destruct (storable v) eqn:E; [now apply json_dumps_ok|].
  destruct (forallb encodable (json_dumps v)) eqn:E'; [|reflexivity].
  apply encode_encodable in E'. congruence.
Qed.

(** ** The file and the store of a process *)

Lemma skip_ws_blank (t : text) : forallb is_ws t = true -> skip_ws t = [].
Proof.
  induction t as [|c t IH]; [reflexivity|]. cbn [forallb skip_ws].
  intros H. apply andb_true_iff in H. destruct H as [-> Ht]. auto.
Qed.

Lemma load_tasks_world (w : world) (v : pyval) (w' : world) :
  load_tasks w = Ok v w' -> w' = w.
Proof.
  rewrite load_tasks_spec. destruct (disk w) as [| | |t]; try discriminate.
  - intros H. now injection H.
  - destruct (json_loads t) as [e|v0]; [destruct (caught_by_load e)|];
      try discriminate; intros H; now injection H.
Qed.

Lemma load_tasks_same_disk (w w' : world) (v : pyval) :
  disk w' = disk w -> load_tasks w = Ok v w -> load_tasks w' = Ok v w'.
Proof.
  intros Hd. rewrite !load_tasks_spec, Hd.
  destruct (disk w) as [| | |t]; try discriminate.
  - intros H. injection H as <-. reflexivity.
  - destruct (json_loads t) as [e|v0]; [destruct (caught_by_load e)|];
      try discriminate; intros H; injection H as <-; reflexivity.
Qed.

Lemma init_inv (w : world) (self : TaskManager) (w' : world) :
  init w = Ok self w' -> w' = w /\ load_tasks w = Ok (tasks self) w.
Proof.
  unfold init, bind. destruct (load_tasks w) as [v w1|e] eqn:E; [|discriminate].
  unfold ret. intros H. injection H as <- <-.
  pose proof (load_tasks_world w v w1 E) as ->. auto.
Qed.

Lemma init_of_load (self : TaskManager) (w : world) :
  load_tasks w = Ok (tasks self) w -> init w = Ok self w.
Proof. intros H. unfold init, bind. rewrite H. now destruct self. Qed.

Lemma init_content (w : world) (t : text) :
  disk w = Content t ->
  init w = match json_loads t with
           | inr v => Ok {| tasks := v |} w
           | inl e => if caught_by_load e then Ok empty_store w else Raise e
           end.
Proof.
  intros Hd. unfold init, bind. rewrite load_tasks_spec, Hd.
  destruct (json_loads t) as [e|v]; [destruct (caught_by_load e)|];
    reflexivity.
Qed.

(** An operation that returns left the store as it was, and the file with
    it, or saved the store it returns. *)
Lemma step_persists (self : TaskManager) (o : op) (w : world)
  (self' : TaskManager) (w' : world) :
  step self o w = Ok self' w' ->
  (self' = self /\ disk w' = disk w)
  \/ disk w' = Content (json_dumps (tasks self')).
Proof.
  destruct o as [d|i d|i s|i]; cbn [step]; intros H.
  - apply add_task_inv in H. destruct H as (l & _ & _ & ->). now right.
  - rewrite update_task_assign in H. apply assign_to_task_inv in H.
    destruct H as [(-> & -> & _)|(pre & d0 & post & _ & _ & _ & _ & ->)];
      [now left | now right].
  - destruct (str_in s valid_statuses) eqn:Es.
    + rewrite update_status_assign in H by assumption.
      apply assign_to_task_inv in H.
      destruct H as [(-> & -> & _)|(pre & d0 & post & _ & _ & _ & _ & ->)];
        [now left | now right].
    + rewrite update_status_invalid in H by assumption.
      injection H as <- <-. now left.
  - apply delete_task_inv in H.
    destruct H as [(-> & -> & _)|(pre & t & post & _ & _ & _ & -> & ->)];
      [now left | now right].
Qed.

Lemma step_keeps_file (self : TaskManager) (o : op) (w : world)
  (self' : TaskManager) (w' : world) :
  well_formed (tasks self) = true ->
  load_tasks w = Ok (tasks self) w ->
  step self o w = Ok self' w' ->
  load_tasks w' = Ok (tasks self') w'.
Proof.
  intros Hwf Hl E.
  pose proof (step_well_formed self o w self' w' Hwf E) as Hwf'.
  destruct (step_persists self o w self' w' E) as [[-> Hd]|Hd].
  - now apply (load_tasks_same_disk w).
  - rewrite load_tasks_spec, Hd. now rewrite json_loads_dumps.
Qed.

Lemma run_persists (ops : list op) :
  forall self w self' w',
    well_formed (tasks self) = true ->
    load_tasks w = Ok (tasks self) w ->
    run ops self w = Ok self' w' ->
    load_tasks w' = Ok (tasks self') w'.
Proof.
  induction ops as [|o ops IH]; intros self w self' w' Hwf Hl H.
  - cbn in H. unfold ret in H. now injection H as <- <-.
  - cbn [run] in H. unfold bind at 1 in H.
    destruct (step self o w) as [self1 w1|e] eqn:E; [|discriminate].
    apply (IH self1 w1 self' w'); [| |assumption].
    + exact (step_well_formed self o w self1 w1 Hwf E).
    + exact (step_keeps_file self o w self1 w1 Hwf Hl E).
Qed.

(** ** Tasks of the data model *)

Lemma is_task_set (d : list (str * pyval)) (k s : str) :
  is_task (PDict d) = true ->
  str_eqb k (py "id") = false ->
  is_task (PDict (dict_set d k (PStr s))) = true.
Proof.
  unfold is_task. intros H Hk. rewrite !dict_get_set, Hk.
  repeat (apply andb_true_iff in H; destruct H as [H ?]).
  repeat (apply andb_true_iff; split);
    try match goal with
        | |- context [if ?c then _ else _] => destruct c
        end; auto.
Qed.

Lemma valid_status_set_other (d : list (str * pyval)) (k : str) (x : pyval) :
  str_eqb k (py "status") = false ->
  valid_status (PDict (dict_set d k x)) = valid_status (PDict d).
Proof.
  intros Hk. unfold valid_status, has_status, getitem.
  now rewrite dict_get_set, Hk.
Qed.

Lemma valid_status_set (d : list (str * pyval)) (status : str) :
  str_in status valid_statuses = true ->
  valid_status (PDict (dict_set d (py "status") (PStr status))) = true.
Proof.
  intros H. apply str_in_In in H.
  unfold valid_status, has_status, getitem. rewrite dict_get_set_same.
  repeat (destruct H as [<-|H]; [reflexivity|]). destruct H.
Qed.

Lemma valid_status_inv (task : pyval) :
  valid_status task = true ->
  exists s, getitem task (py "status") = inr (PStr s)
            /\ In s valid_statuses.
Proof.
  unfold valid_status, has_status. intros H.
  apply existsb_exists in H. destruct H as (s & Hin & Hs).
  destruct (getitem task (py "status")) as [e|[| | |s'| |]]; try discriminate.
  cbn [eq_str] in Hs. apply str_eqb_eq in Hs. subst s'. now exists s.
Qed.

Lemma task_list_middle (pre post : list pyval) (task : pyval) :
  task_list (PList (pre ++ task :: post)) = true <->
  task_list (PList pre) = true
  /\ (is_task task = true /\ valid_status task = true)
  /\ task_list (PList post) = true.
Proof.
  unfold task_list. rewrite forallb_app. cbn [forallb].
  rewrite !andb_true_iff. tauto.
Qed.

Lemma assign_to_task_list (self : TaskManager) (task_id : Z) (key : str)
  (s : str) (done : line) (w : world) (self' : TaskManager) (w' : world) :
  (key = py "description"
   \/ key = py "status" /\ str_in s valid_statuses = true) ->
  task_list (tasks self) = true ->
  assign_to_task self task_id key (PStr s) done w = Ok self' w' ->
  task_list (tasks self') = true.
Proof.
  intros Hkey Hl H. apply assign_to_task_inv in H.
  destruct H as [(-> & _)|(pre & d & post & E & _ & _ & -> & _)];
    [assumption|].
  rewrite E in Hl. cbn [tasks].
  apply task_list_middle in Hl. destruct Hl as (Hpre & [Ht Hv] & Hpost).
  apply task_list_middle. repeat split; try assumption.
  - apply is_task_set; [|reflexivity].
    apply is_task_set; [assumption|].
    destruct Hkey as [->|[-> _]]; reflexivity.
  - rewrite valid_status_set_other by reflexivity.
    destruct Hkey as [->|[-> Hs]].
    + now rewrite valid_status_set_other by reflexivity.
    + now apply valid_status_set.
Qed.

Lemma step_task_list (self : TaskManager) (o : op) (w : world)
  (self' : TaskManager) (w' : world) :
  task_list (tasks self) = true ->
  step self o w = Ok self' w' ->
  task_list (tasks self') = true.
Proof.
  intros Hl. destruct o as [d|i d|i s|i]; cbn [step]; intros H.
  - apply add_task_inv in H. destruct H as (l & E & -> & _).
    rewrite E in Hl. cbn [tasks]. unfold task_list in *.
    rewrite forallb_app, Hl. reflexivity.
  - rewrite update_task_assign in H.
    refine (assign_to_task_list self i _ d _ w self' w' _ Hl H). now left.
  - destruct (str_in s valid_statuses) eqn:Es.
    + rewrite update_status_assign in H by assumption.
      refine (assign_to_task_list self i _ s _ w self' w' _ Hl H). now right.
    + rewrite update_status_invalid in H by assumption.
      now injection H as <- _.
  - apply delete_task_inv in H.
    destruct H as [(-> & _)|(pre & t & post & E & _ & _ & -> & _)];
      [assumption|].
    rewrite E in Hl. apply task_list_middle in Hl.
    destruct Hl as (Hpre & _ & Hpost). cbn [tasks]. unfold task_list in *.
    now rewrite forallb_app, Hpre, Hpost.
Qed.

(** ** Ids *)

Lemma NoDup_snoc {A : Type} (a : list A) (x : A) :
  NoDup (a ++ [x]) <-> NoDup a /\ ~ In x a.
Proof.
  split.
  - intros H. apply NoDup_remove in H. rewrite app_nil_r in H. exact H.
  - intros [Ha Hx]. apply NoDup_rev in Ha.
    rewrite <- (rev_involutive (a ++ [x])). apply NoDup_rev.
    rewrite rev_app_distr. cbn. constructor; [|assumption].
    now rewrite <- in_rev.
Qed.

Lemma is_task_has_id (task : pyval) (z : Z) :
  is_task task = true ->
  (has_id z task = true <-> id_of task = Some (PInt z)).
Proof.
  intros Ht. destruct (is_task_id task Ht) as [z' Hz].
  unfold has_id, id_of. rewrite Hz. cbn [eq_int].
  rewrite Z.eqb_eq. split; [now intros -> | congruence].
Qed.

Lemma has_id_in_ids (l : list pyval) (z : Z) :
  forallb is_task l = true ->
  (existsb (has_id z) l = true <-> In (Some (PInt z)) (map id_of l)).
Proof.
  intros Hl. rewrite forallb_forall in Hl.
  rewrite existsb_exists, in_map_iff. split.
  - intros (t & Hin & Hid). exists t. split; [|assumption].
    now apply is_task_has_id; auto.
  - intros (t & Hid & Hin). exists t. split; [assumption|].
    now apply is_task_has_id; auto.
Qed.

(** ** Ids within bounds *)

Lemma id_within_mono (n m : nat) (task : pyval) :
  (n <= m)%nat -> id_within n task = true -> id_within m task = true.
Proof.
  unfold id_within. intros Hnm.
  destruct (id_of task) as [[| |z| | |]|]; try discriminate.
  rewrite !andb_true_iff, !Z.leb_le. lia.
Qed.

Lemma ids_within_mono (n m : nat) (v : pyval) :
  (n <= m)%nat -> ids_within n v = true -> ids_within m v = true.
Proof.
  intros Hnm. destruct v as [| | | |l|]; try discriminate. unfold ids_within.
  rewrite !andb_true_iff, !Nat.leb_le, !forallb_forall. intros [Hl Hi].
  split; [lia|]. intros x Hx. apply (id_within_mono n); auto.
Qed.

Lemma ids_within_middle (n : nat) (pre post : list pyval) (task : pyval) :
  ids_within n (PList (pre ++ task :: post)) = true <->
  (length (pre ++ task :: post) <= n)%nat
  /\ forallb (id_within n) pre = true /\ id_within n task = true
  /\ forallb (id_within n) post = true.
Proof.
  unfold ids_within. rewrite forallb_app. cbn [forallb].
  rewrite !andb_true_iff, Nat.leb_le. tauto.
Qed.

Lemma id_within_set (n : nat) (d : list (str * pyval)) (k : str) (x y : pyval) :
  str_eqb k (py "id") = false ->
  id_within n (PDict (dict_set (dict_set d k x) (py "updated_at") y)) =
  id_within n (PDict d).
Proof.
  intros Hk. unfold id_within, id_of, getitem.
  now rewrite !dict_get_set_other.
Qed.

Lemma assign_to_task_ids_within (n : nat) (self : TaskManager) (task_id : Z)
  (key : str) (x : pyval) (done : line) (w : world) (self' : TaskManager)
  (w' : world) :
  str_eqb key (py "id") = false ->
  ids_within n (tasks self) = true ->
  assign_to_task self task_id key x done w = Ok self' w' ->
  ids_within n (tasks self') = true.
Proof.
  intros Hk Hn H. apply assign_to_task_inv in H.
  destruct H as [(-> & _)|(pre & d & post & E & _ & _ & -> & _)];
    [assumption|].
  rewrite E in Hn. cbn [tasks].
  apply ids_within_middle in Hn. destruct Hn as (Hl & Hpre & Ht & Hpost).
  apply ids_within_middle. rewrite id_within_set by assumption.
  rewrite length_app in *. cbn [length] in *. auto.
Qed.

Lemma step_ids_within (n : nat) (self : TaskManager) (o : op) (w : world)
  (self' : TaskManager) (w' : world) :
  ids_within n (tasks self) = true ->
  step self o w = Ok self' w' ->
  ids_within (adds [o] + n) (tasks self') = true.
Proof.
  intros Hn. destruct o as [d|i d|i s|i]; cbn [step adds filter is_add length];
    intros H.
  - apply add_task_inv in H. destruct H as (l & E & -> & _).
    rewrite E in Hn. cbn [tasks]. unfold ids_within in *.
    apply andb_true_iff in Hn. destruct Hn as [Hl Hi].
    apply Nat.leb_le in Hl.
    rewrite length_app, forallb_app. cbn [length forallb Nat.add].
    apply andb_true_iff. split; [apply Nat.leb_le; lia|].
    apply andb_true_iff. split.
    + rewrite forallb_forall in *. intros t Ht.
      apply (id_within_mono n); auto.
    + unfold id_within.
      change (id_of (new_task _ _ _ _))
        with (Some (PInt (Z.of_nat (length l) + 1))).
      rewrite !andb_true_iff, !Z.leb_le. lia.
  - rewrite update_task_assign in H.
    exact (assign_to_task_ids_within n self i (py "description") _ _ w self'
             w' eq_refl Hn H).
  - destruct (str_in s valid_statuses) eqn:Es.
    + rewrite update_status_assign in H by assumption.
      exact (assign_to_task_ids_within n self i (py "status") _ _ w self' w'
               eq_refl Hn H).
    + rewrite update_status_invalid in H by assumption.
      now injection H as <- _.
  - apply delete_task_inv in H.
    destruct H as [(-> & _)|(pre & t & post & E & _ & _ & -> & _)];
      [assumption|].
    rewrite E in Hn. apply ids_within_middle in Hn.
    destruct Hn as (Hl & Hpre & _ & Hpost). cbn [tasks Nat.add].
    unfold ids_within. rewrite forallb_app, Hpre, Hpost.
    rewrite length_app in *. cbn [length] in Hl.
    rewrite andb_true_r. apply Nat.leb_le. lia.
Qed.

Lemma run_ids_within (ops : list op) :
  forall (n : nat) (self : TaskManager) (w : world) (self' : TaskManager)
         (w' : world),
    ids_within n (tasks self) = true ->
    run ops self w = Ok self' w' ->
    ids_within (adds ops + n) (tasks self') = true.
Proof.
  induction ops as [|o ops IH]; intros n self w self' w' Hn H.
  - cbn in H. unfold ret in H. now injection H as <- _.
  - cbn [run] in H. unfold bind at 1 in H.
    destruct (step self o w) as [self1 w1|e] eqn:E; [|discriminate].
    pose proof (step_ids_within n self o w self1 w1 Hn E) as H1.
    pose proof (IH _ self1 w1 self' w' H1 H) as H2.
    replace (adds (o :: ops) + n)%nat with (adds ops + (adds [o] + n))%nat;
      [exact H2|].
    unfold adds. cbn [filter]. destruct (is_add o); cbn [length]; lia.
Qed.

(** ** Output *)

Lemma output_output (w : world) (a b : list line) :
  output (output w a) b = output w (a ++ b).
Proof. unfold output. cbn. now rewrite app_assoc. Qed.

Lemma print_inv (l : line) (w w' : world) :
  print l w = Ok tt w' -> w' = output w [l].
Proof.
  unfold print. destruct (line_ok l); [|discriminate].
  intros H. now injection H as <-.
Qed.

Lemma lift_inv {A : Type} (r : exn + A) (w : world) (a : A) (w' : world) :
  lift r w = Ok a w' -> r = inr a /\ w' = w.
Proof.
  unfold lift. destruct r as [e|a0]; [discriminate|].
  intros H. now injection H as <- <-.
Qed.

Lemma for_all_output (body : pyval -> M unit) (l : list pyval) :
  (forall x w w', body x w = Ok tt w' -> exists ls, w' = output w ls) ->
  forall w w', for_all body l w = Ok tt w' -> exists ls, w' = output w ls.
Proof.
  intros Hb. induction l as [|x l IH]; intros w w' H.
  - cbn in H. unfold ret in H. injection H as <-. exists [].
    now rewrite output_nil.
  - cbn [for_all] in H. unfold bind at 1 in H.
    destruct (body x w) as [[] w1|e] eqn:E; [|discriminate].
    apply Hb in E. destruct E as [ls1 ->].
    apply IH in H. destruct H as [ls2 ->].
    exists (ls1 ++ ls2). apply output_output.
Qed.

Lemma for_all_app (body : pyval -> M unit) (a b : list pyval) (w : world) :
  for_all body (a ++ b) w = (for_all body a ;;; for_all body b) w.
Proof.
  revert w. induction a as [|x a IH]; intros w; [reflexivity|].
  cbn [app for_all]. unfold bind.
  destruct (body x w) as [[] w1|e]; [|reflexivity].
  rewrite IH. reflexivity.
Qed.

Lemma list_all_tasks_output (self : TaskManager) (w w' : world) :
  list_all_tasks self w = Ok tt w' -> exists ls, w' = output w ls.
Proof.
  unfold list_all_tasks. destruct (negb (truthy (tasks self))).
  { intros H. apply print_inv in H. now exists [NothingToShow Memo]. }
  unfold bind at 1.
  destruct (print (Banner Clipboard) w) as [[] w1|e] eqn:E1; [|discriminate].
  apply print_inv in E1. subst w1.
  unfold bind at 1.
  destruct (lift (py_iter (tasks self)) _) as [items w1|e] eqn:E2;
    [|discriminate].
  apply lift_inv in E2. destruct E2 as [_ ->].
  unfold bind at 1.
  destruct (for_all _ items _) as [[] w1|e] eqn:E3; [|discriminate].
  apply for_all_output in E3.
  - destruct E3 as [ls ->]. intros H. apply print_inv in H. subst w'.
    rewrite !output_output. eauto.
  - clear. intros task w w'.
    unfold bind at 1.
    destruct (lift (getitem task (py "status")) w) as [s w1|e] eqn:E;
      [|discriminate].
    apply lift_inv in E. destruct E as [_ ->].
    unfold bind at 1.
    destruct (lift (_get_status_icon s) w) as [ic w1|e] eqn:E;
      [|discriminate].
    apply lift_inv in E. destruct E as [_ ->].
    unfold bind at 1.
    destruct (lift (getitem task (py "id")) w) as [id w1|e] eqn:E;
      [|discriminate].
    apply lift_inv in E. destruct E as [_ ->].
    unfold bind at 1.
    destruct (lift (getitem task (py "description")) w) as [de w1|e] eqn:E;
      [|discriminate].
    apply lift_inv in E. destruct E as [_ ->].
    unfold bind at 1.
    destruct (lift (getitem task (py "status")) w) as [s' w1|e] eqn:E;
      [|discriminate].
    apply lift_inv in E. destruct E as [_ ->].
    intros H. apply print_inv in H. eauto.
Qed.

Lemma list_tasks_with_output (status : str) (i : icon) (self : TaskManager)
  (w w' : world) :
  list_tasks_with status i self w = Ok tt w' -> exists ls, w' = output w ls.
Proof.
  unfold list_tasks_with. unfold bind at 1.
  destruct (lift (py_iter (tasks self)) w) as [items w1|e] eqn:E;
    [|discriminate].
  apply lift_inv in E. destruct E as [_ ->].
  unfold bind at 1.
  destruct (lift (with_status status items) w) as [found w1|e] eqn:E;
    [|discriminate].
  apply lift_inv in E. destruct E as [_ ->].
  destruct (negb (truthy (PList found))).
  { intros H. apply print_inv in H. eauto. }
  unfold bind at 1.
  destruct (print (Banner i) w) as [[] w1|e] eqn:E1; [|discriminate].
  apply print_inv in E1. subst w1.
  unfold bind at 1.
  destruct (for_all _ found _) as [[] w1|e] eqn:E3; [|discriminate].
  apply for_all_output in E3.
  - destruct E3 as [ls ->]. intros H. apply print_inv in H. subst w'.
    rewrite !output_output. eauto.
  - clear. intros task w w'.
    unfold bind at 1.
    destruct (lift (getitem task (py "id")) w) as [id w1|e] eqn:E;
      [|discriminate].
    apply lift_inv in E. destruct E as [_ ->].
    unfold bind at 1.
    destruct (lift (getitem task (py "description")) w) as [de w1|e] eqn:E;
      [|discriminate].
    apply lift_inv in E. destruct E as [_ ->].
    intros H. apply print_inv in H. eauto.
Qed.

Lemma with_status_raises (status : str) (pre post : list pyval) (x : pyval)
  (e : exn) :
  forallb is_task pre = true ->
  getitem x (py "status") = inl e ->
  with_status status (pre ++ x :: post) = inl e.
Proof.
  intros Hpre Hx. induction pre as [|task pre IH]; cbn [app with_status].
  - now rewrite Hx.
  - cbn [forallb] in Hpre. apply andb_true_iff in Hpre.
    destruct Hpre as [Ht Hpre].
    destruct (is_task_fields task Ht) as (z & d & s & _ & _ & Hs).
    now rewrite Hs, (IH Hpre).
Qed.

(** ** One process per command *)

Lemma estado_valid (e : estado) : str_in (estado_str e) valid_statuses = true.
Proof. destruct e; reflexivity. Qed.

Lemma main_step (c : command) (o : op) (w : world) :
  op_of c = Some o ->
  main c w = (self <- init ;; step self o ;;; ret tt) w.
Proof.
  destruct c; try discriminate; intros H; injection H as <-; reflexivity.
Qed.

Lemma invoke_as_run (cmds : list command) :
  forall (ops : list op) (self : TaskManager) (w : world)
         (self' : TaskManager) (w' : world),
    map op_of cmds = map Some ops ->
    well_formed (tasks self) = true ->
    load_tasks w = Ok (tasks self) w ->
    run ops self w = Ok self' w' ->
    invoke cmds w = Ok tt w'.
Proof.
  induction cmds as [|c cmds IH]; intros ops self w self' w' Hm Hwf Hl H.
  - destruct ops; [|discriminate]. cbn in H. unfold ret in H.
    injection H as _ <-. reflexivity.
  - destruct ops as [|o ops]; [discriminate|]. cbn [map] in Hm.
    injection Hm as Hc Hm.
    cbn [run] in H. unfold bind at 1 in H.
    destruct (step self o w) as [self1 w1|e] eqn:E; [|discriminate].
    cbn [invoke]. unfold bind at 1. rewrite (main_step c o w Hc).
    unfold bind at 1. rewrite (init_of_load self w Hl).
    unfold bind at 1. rewrite E. unfold ret at 1.
    apply (IH ops self1 w1 self' w' Hm); [| |assumption].
    + exact (step_well_formed self o w self1 w1 Hwf E).
    + exact (step_keeps_file self o w self1 w1 Hwf Hl E).
Qed.

(** * Further properties of the program *)

(** ** The lookup by id *)

(** The update that finds its task. *)
Lemma assign_to_task_found (pre post : list pyval) (d : list (str * pyval))
  (task_id : Z) (key : str) (x : pyval) (done : line) (w : world) :
  forallb is_task pre = true ->
  existsb (has_id task_id) pre = false ->
  has_id task_id (PDict d) = true ->
  writable w = true ->
  line_ok done = true ->
  storable (PList (pre ++ PDict d :: post)) = true ->
  str_ok key = true -> storable x = true ->
  str_ok (clock w (ticks w)) = true ->
  assign_to_task {| tasks := PList (pre ++ PDict d :: post) |} task_id key x
    done w =
  Ok {| tasks := PList (pre ++ PDict (dict_set (dict_set d key x)
                                        (py "updated_at")
                                        (PStr (clock w (ticks w)))) :: post) |}
     (printed
        (saved (later w 1)
           (PList (pre ++ PDict (dict_set (dict_set d key x) (py "updated_at")
                                   (PStr (clock w (ticks w)))) :: post)))
        done).
Proof.
  intros Hpre Hno Hid Hw Hdone Hs Hk Hx Hc.
  set (self := {| tasks := PList (pre ++ PDict d :: post) |}).
  unfold assign_to_task. unfold bind at 1.
  change (py_iter (tasks self)) with (@inr exn _ (pre ++ PDict d :: post)).
  cbn [lift]. unfold bind at 1. rewrite for_each_skip by assumption.
  cbn [for_each]. unfold bind at 1. unfold bind at 1. unfold lift at 1.
  unfold has_id in Hid.
  destruct (getitem (PDict d) (py "id")) as [e|id]; [discriminate|].
  rewrite Hid. rewrite assign_hit_spec. cbv zeta. subst self.
  cbn [tasks assigned Nat.add].
  rewrite replace_nth_middle, Hw, json_dumps_ok, Hdone; [reflexivity|].
  apply storable_middle in Hs. destruct Hs as (Hp & Hd & Hpost).
  apply storable_middle. repeat split; try assumption.
  apply storable_dict_set; [|reflexivity|exact Hc].
  now apply storable_dict_set.
Qed.

(** X1. [update_task] changes the first task that has the id, and only
    that one: in a store where the tasks before it are task records with
    other ids, it gives the task the new description and the reading of
    the clock as [updated_at], leaves its other keys and every other item
    of the list (also a later task with the same id) as they were, in the
    same order, replaces the file by the document of the new list, reads
    the clock once and prints the line that confirms the update. *)
Theorem update_task_changes_first_match (pre post : list pyval) (task : pyval)
  (task_id : Z) (description : str) (w : world) :
  forallb is_task pre = true ->
  existsb (has_id task_id) pre = false ->
  has_id task_id task = true ->
  writable w = true ->
  storable (PList (pre ++ task :: post)) = true ->
  str_ok description = true ->
  str_ok (clock w (ticks w)) = true ->
  exists task',
    update_task {| tasks := PList (pre ++ task :: post) |} task_id
      description w =
      Ok {| tasks := PList (pre ++ task' :: post) |}
         (printed (saved (later w 1) (PList (pre ++ task' :: post)))
            (TaskUpdated task_id))
    /\ getitem task' (py "description") = inr (PStr description)
    /\ getitem task' (py "updated_at") = inr (PStr (clock w (ticks w)))
    /\ (forall k, k <> py "description" -> k <> py "updated_at" ->
                  getitem task' k = getitem task k).
Proof.
  intros Hpre Hno Hid Hw Hs Hd Hc.
  destruct (has_id_dict _ _ Hid) as [d ->].
  eexists. split; [|split; [|split]].
  - rewrite update_task_assign. now apply assign_to_task_found.
  - rewrite getitem_dict_set_other by discriminate.
    apply getitem_dict_set_same.
  - apply getitem_dict_set_same.
  - intros k Hk1 Hk2. rewrite !getitem_dict_set_other by congruence.
    reflexivity.
Qed.

(** X1 for the second of four tasks. *)
Lemma update_task_changes_first_match_witness :
  exists task',
    update_task {| tasks := PList mixed_tasks |} 2 (py "walk the cat")
      (world_with Missing) =
      Ok {| tasks := PList (firstn 1 mixed_tasks ++ task'
                              :: skipn 2 mixed_tasks) |}
         (printed
            (saved (later (world_with Missing) 1)
               (PList (firstn 1 mixed_tasks ++ task' :: skipn 2 mixed_tasks)))
            (TaskUpdated 2))
    /\ getitem task' (py "description") = inr (PStr (py "walk the cat"))
    /\ getitem task' (py "updated_at") = inr (PStr (counting_clock 0))
    /\ (forall k, k <> py "description" -> k <> py "updated_at" ->
                  getitem task' k = getitem (nth 1 mixed_tasks PNone) k).
Proof.
  apply (update_task_changes_first_match (firstn 1 mixed_tasks)
           (skipn 2 mixed_tasks) (nth 1 mixed_tasks PNone) 2
           (py "walk the cat") (world_with Missing)); reflexivity.
Defined.

(** X2. [update_status] with a valid status changes the first task that
    has the id, and only that one: it gives the task the new status and
    the reading of the clock as [updated_at], leaves its other keys and
    every other item of the list as they were, replaces the file by the
    document of the new list, reads the clock once and prints the line
    that confirms the status. *)
Theorem update_status_changes_first_match (pre post : list pyval)
  (task : pyval) (task_id : Z) (status : str) (w : world) :
  str_in status valid_statuses = true ->
  forallb is_task pre = true ->
  existsb (has_id task_id) pre = false ->
  has_id task_id task = true ->
  writable w = true ->
  storable (PList (pre ++ task :: post)) = true ->
  str_ok (clock w (ticks w)) = true ->
  exists task',
    update_status {| tasks := PList (pre ++ task :: post) |} task_id status w =
      Ok {| tasks := PList (pre ++ task' :: post) |}
         (printed (saved (later w 1) (PList (pre ++ task' :: post)))
            (TaskMarked task_id status))
    /\ getitem task' (py "status") = inr (PStr status)
    /\ getitem task' (py "updated_at") = inr (PStr (clock w (ticks w)))
    /\ (forall k, k <> py "status" -> k <> py "updated_at" ->
                  getitem task' k = getitem task k).
Proof.
  intros Hst Hpre Hno Hid Hw Hs Hc.
  destruct (has_id_dict _ _ Hid) as [d ->].
  pose proof (valid_status_ok status Hst) as Hok.
  eexists. split; [|split; [|split]].
  - rewrite update_status_assign by assumption.
    now apply assign_to_task_found.
  - rewrite getitem_dict_set_other by discriminate.
    apply getitem_dict_set_same.
  - apply getitem_dict_set_same.
  - intros k Hk1 Hk2. rewrite !getitem_dict_set_other by congruence.
    reflexivity.
Qed.

(** X2 for the second of four tasks, marked as done. *)
Lemma update_status_changes_first_match_witness :
  exists task',
    update_status {| tasks := PList mixed_tasks |} 2 (py "terminada")
      (world_with Missing) =
      Ok {| tasks := PList (firstn 1 mixed_tasks ++ task'
                              :: skipn 2 mixed_tasks) |}
         (printed
            (saved (later (world_with Missing) 1)
               (PList (firstn 1 mixed_tasks ++ task' :: skipn 2 mixed_tasks)))
            (TaskMarked 2 (py "terminada")))
    /\ getitem task' (py "status") = inr (PStr (py "terminada"))
    /\ getitem task' (py "updated_at") = inr (PStr (counting_clock 0))
    /\ (forall k, k <> py "status" -> k <> py "updated_at" ->
                  getitem task' k = getitem (nth 1 mixed_tasks PNone) k).
Proof.
  apply (update_status_changes_first_match (firstn 1 mixed_tasks)
           (skipn 2 mixed_tasks) (nth 1 mixed_tasks PNone) 2
           (py "terminada") (world_with Missing)); reflexivity.
Defined.

(** X3. [delete_task] removes the first task that has the id, and only
    that one: the items before and after it stay as they were, in the same
    order and with the ids they had; the file is replaced by the document
    of the shorter list, the clock is not read and the line that confirms
    the deletion is printed. *)
Theorem delete_task_removes_first_match (pre post : list pyval) (task : pyval)
  (task_id : Z) (w : world) :
  forallb is_task pre = true ->
  existsb (has_id task_id) pre = false ->
  has_id task_id task = true ->
  writable w = true ->
  storable (PList (pre ++ post)) = true ->
  delete_task {| tasks := PList (pre ++ task :: post) |} task_id w =
    Ok {| tasks := PList (pre ++ post) |}
       (printed (saved w (PList (pre ++ post))) (TaskDeleted task_id)).
Proof.
  intros Hpre Hno Hid Hw Hs.
  set (self := {| tasks := PList (pre ++ task :: post) |}).
  unfold delete_task. unfold bind at 1.
  change (py_iter (tasks self)) with (@inr exn _ (pre ++ task :: post)).
  cbn [lift]. unfold bind at 1. rewrite for_each_skip by assumption.
  cbn [for_each]. unfold bind at 1. unfold bind at 1. unfold lift at 1.
  unfold has_id in Hid.
  destruct (getitem task (py "id")) as [e|id]; [discriminate|].
  rewrite Hid. rewrite delete_hit_spec. subst self.
  cbn [tasks delitem Nat.add].
  rewrite del_nth_middle, Hw, json_dumps_ok by assumption. reflexivity.
Qed.

(** X3 for the second of four tasks. *)
Lemma delete_task_removes_first_match_witness :
  delete_task {| tasks := PList mixed_tasks |} 2 (world_with Missing) =
    Ok {| tasks := PList (firstn 1 mixed_tasks ++ skipn 2 mixed_tasks) |}
       (printed
          (saved (world_with Missing)
             (PList (firstn 1 mixed_tasks ++ skipn 2 mixed_tasks)))
          (TaskDeleted 2)).
Proof.
  apply (delete_task_removes_first_match (firstn 1 mixed_tasks)
           (skipn 2 mixed_tasks) (nth 1 mixed_tasks PNone) 2
           (world_with Missing)); reflexivity.
Defined.

(** X4. The lookup by id reads ["id"] of every item it passes: when the
    tasks before an item are task records with other ids and the item has
    no ["id"], [update_task], [update_status] with a valid status and
    [delete_task] raise, [KeyError] for a dict without the key and
    [TypeError] for an item that is no dict, whatever follows the item
    (also a task with the id). *)
Theorem lookup_stops_at_item_without_id (pre post : list pyval) (x : pyval)
  (e : exn) (task_id : Z) (description status : str) (w : world) :
  forallb is_task pre = true ->
  existsb (has_id task_id) pre = false ->
  getitem x (py "id") = inl e ->
  str_in status valid_statuses = true ->
  update_task {| tasks := PList (pre ++ x :: post) |} task_id description w
    = Raise e
  /\ update_status {| tasks := PList (pre ++ x :: post) |} task_id status w
     = Raise e
  /\ delete_task {| tasks := PList (pre ++ x :: post) |} task_id w = Raise e
  /\ e = match x with PDict _ => KeyError | _ => TypeError end.
Proof.
  intros Hpre Hno Hx Hs. repeat split.
  - unfold update_task. unfold bind at 1. cbn [tasks py_iter lift].
    unfold bind at 1. now rewrite (for_each_raises _ _ _ _ _ e).
  - unfold update_status. rewrite Hs. cbn [negb].
    unfold bind at 1. cbn [tasks py_iter lift].
    unfold bind at 1. now rewrite (for_each_raises _ _ _ _ _ e).
  - unfold delete_task. unfold bind at 1. cbn [tasks py_iter lift].
    unfold bind at 1. now rewrite (for_each_raises _ _ _ _ _ e).
  - destruct x as [| | | | |d]; try (now injection Hx as <-).
    unfold getitem in Hx. destruct (dict_get d (py "id")); [discriminate|].
    now injection Hx as <-.
Qed.

(** X4 for a [None] between the first task and the task with the id 2. *)
Lemma lookup_stops_at_item_without_id_witness :
  update_task {| tasks := PList (firstn 1 mixed_tasks ++ PNone
                                   :: skipn 1 mixed_tasks) |}
    2 (py "walk the cat") (world_with Missing) = Raise TypeError
  /\ update_status {| tasks := PList (firstn 1 mixed_tasks ++ PNone
                                        :: skipn 1 mixed_tasks) |}
       2 (py "terminada") (world_with Missing) = Raise TypeError
  /\ delete_task {| tasks := PList (firstn 1 mixed_tasks ++ PNone
                                      :: skipn 1 mixed_tasks) |}
       2 (world_with Missing) = Raise TypeError
  /\ TypeError = TypeError.
Proof.
  apply (lookup_stops_at_item_without_id (firstn 1 mixed_tasks)
           (skipn 1 mixed_tasks) PNone TypeError 2 (py "walk the cat")
           (py "terminada") (world_with Missing)); reflexivity.
Defined.

(** X5. The lookup by id needs a list: on a store that is [None], a
    boolean, an int, a string that is not empty or a dict that is not
    empty, [update_task], [update_status] with a valid status and
    [delete_task] raise [TypeError] (the store cannot be iterated, or its
    items are strings, which have no ["id"]); on the empty string and the
    empty dict they report the task as not found. *)
Theorem lookup_needs_a_list (v : pyval) (task_id : Z) (description status : str)
  (w : world) :
  (forall l, v <> PList l) ->
  str_in status valid_statuses = true ->
  update_task {| tasks := v |} task_id description w =
    match v with
    | PStr [] | PDict [] =>
        Ok {| tasks := v |} (printed w (TaskNotFound task_id))
    | _ => Raise TypeError
    end
  /\ update_status {| tasks := v |} task_id status w =
       match v with
       | PStr [] | PDict [] =>
           Ok {| tasks := v |} (printed w (TaskNotFound task_id))
       | _ => Raise TypeError
       end
  /\ delete_task {| tasks := v |} task_id w =
       match v with
       | PStr [] | PDict [] =>
           Ok {| tasks := v |} (printed w (TaskNotFound task_id))
       | _ => Raise TypeError
       end.
Proof.
  intros Hv Hs. unfold update_status. rewrite Hs. cbn [negb].
  destruct v as [| | |s|l|d]; try (repeat split; reflexivity).
  - destruct s; repeat split; reflexivity.
  - now destruct (Hv l).
  - destruct d; repeat split; reflexivity.
Qed.

(** X5 for a store that is a dict with an id, not a list. *)
Lemma lookup_needs_a_list_witness :
  update_task {| tasks := PDict [(py "id", PInt 1)] |} 1 (py "buy bread")
    (world_with Missing) = Raise TypeError
  /\ update_status {| tasks := PDict [(py "id", PInt 1)] |} 1 (py "terminada")
       (world_with Missing) = Raise TypeError
  /\ delete_task {| tasks := PDict [(py "id", PInt 1)] |} 1
       (world_with Missing) = Raise TypeError.
Proof.
  apply (lookup_needs_a_list (PDict [(py "id", PInt 1)]) 1 (py "buy bread")
           (py "terminada") (world_with Missing)).
  - intros l. discriminate.
  - reflexivity.
Defined.

(** ** Ids *)

(** X6. The operations other than [add_task] keep the ids of the store
    distinct, whatever the store holds: an update leaves the ids as they
    are and a deletion removes one of them. *)
Theorem other_operations_keep_ids_distinct (self : TaskManager) (o : op)
  (w : world) (self' : TaskManager) (w' : world) :
  (forall d, o <> Add d) ->
  NoDup (store_ids self) ->
  step self o w = Ok self' w' ->
  NoDup (store_ids self').
Proof.
  intros Ho Hn. destruct o as [d|i d|i s|i]; cbn [step]; intros H.
  - now destruct (Ho d).
  - now rewrite (update_task_ids self i d w self' w' H).
  - now rewrite (update_status_ids self i s w self' w' H).
  - destruct (delete_task_ids self i w self' w' H)
      as [E|(pre & id & post & E & E')].
    + now rewrite E.
    + rewrite E'. rewrite E in Hn. now apply NoDup_remove_1 in Hn.
Qed.

(** X6 for the deletion of the second of four tasks. *)
Lemma other_operations_keep_ids_distinct_witness :
  NoDup (store_ids {| tasks := PList (firstn 1 mixed_tasks
                                        ++ skipn 2 mixed_tasks) |}).
Proof.
  apply (other_operations_keep_ids_distinct {| tasks := PList mixed_tasks |}
           (Delete 2) (world_with Missing)
           {| tasks := PList (firstn 1 mixed_tasks ++ skipn 2 mixed_tasks) |}
           (printed
              (saved (world_with Missing)
                 (PList (firstn 1 mixed_tasks ++ skipn 2 mixed_tasks)))
              (TaskDeleted 2))).
  - intros d. discriminate.
  - repeat constructor; simpl; intuition discriminate.
  - reflexivity.
Defined.

(** X7. [add_task] on a list of n task records keeps the ids distinct
    exactly when they were distinct and none of the tasks has the id
    n + 1: the id comes from the length of the list, not from the ids in
    use, so a store that lost a task before its last one gets a second
    task with an id it already holds. *)
Theorem add_task_keeps_ids_distinct_iff (l : list pyval) (description : str)
  (w : world) (self' : TaskManager) (w' : world) :
  forallb is_task l = true ->
  add_task {| tasks := PList l |} description w = Ok self' w' ->
  (NoDup (store_ids self') <->
   NoDup (store_ids {| tasks := PList l |})
   /\ existsb (has_id (Z.of_nat (length l) + 1)) l = false).
Proof.
  intros Hl H. apply add_task_inv in H.
  destruct H as (l0 & E & -> & _). cbn [tasks] in E. injection E as <-.
  unfold store_ids. cbn [tasks]. rewrite map_app. cbn [map].
  change (id_of (new_task _ _ _ _))
    with (Some (PInt (Z.of_nat (length l) + 1))).
  rewrite NoDup_snoc, <- has_id_in_ids by assumption.
  destruct (existsb _ l); intuition congruence.
Qed.

(** X7 for the tasks with the ids 2, 3 and 4: the task added gets the id 4
    again. *)
Lemma add_task_keeps_ids_distinct_iff_witness :
  NoDup (store_ids
           {| tasks := PList (skipn 1 mixed_tasks
                                ++ [new_task 3 (py "feed the cat")
                                      (counting_clock 0) (counting_clock 1)]) |})
  <-> NoDup (store_ids {| tasks := PList (skipn 1 mixed_tasks) |})
      /\ existsb (has_id (Z.of_nat (length (skipn 1 mixed_tasks)) + 1))
           (skipn 1 mixed_tasks) = false.
Proof.
  apply (add_task_keeps_ids_distinct_iff (skipn 1 mixed_tasks)
           (py "feed the cat") (world_with Missing)
           {| tasks := PList (skipn 1 mixed_tasks
                                ++ [new_task 3 (py "feed the cat")
                                      (counting_clock 0) (counting_clock 1)]) |}
           (printed
              (saved (later (world_with Missing) 2)
                 (PList (skipn 1 mixed_tasks
                           ++ [new_task 3 (py "feed the cat")
                                 (counting_clock 0) (counting_clock 1)])))
              (TaskAdded 4)));
    reflexivity.
Defined.

(** X8. The ids stay within bounds: after any operations on the empty
    store that return, the store is a list of no more tasks than
    [add_task] was called, and every id in it is an int from 1 to that
    number of calls. *)
Theorem ids_bounded_by_adds (ops : list op) (w : world) (self : TaskManager)
  (w' : world) :
  run ops empty_store w = Ok self w' ->
  ids_within (adds ops) (tasks self) = true.
Proof.
  intros H. rewrite <- (Nat.add_0_r (adds ops)).
  now apply (run_ids_within ops 0 empty_store w self w').
Qed.

(** X8 for one task added. *)
Lemma ids_bounded_by_adds_witness :
  ids_within (adds [Add (py "buy milk")]) (tasks sample_store) = true.
Proof.
  apply (ids_bounded_by_adds [Add (py "buy milk")] (world_with Missing)
           sample_store
           (printed (saved (later (world_with Missing) 2) (tasks sample_store))
              (TaskAdded 1))).
  reflexivity.
Defined.

(** ** When [save_tasks] and [add_task] raise *)

(** X9. [save_tasks] has three outcomes, for every value of the store:
    [PermissionError] when the file cannot be opened for writing,
    [UnicodeEncodeError] when a string of the store (a key or a value, at
    any depth) holds a surrogate, and otherwise the file replaced by the
    document of the store, with nothing else changed. *)
Theorem save_tasks_outcome (self : TaskManager) (w : world) :
  save_tasks self w =
  if writable w
  then if storable (tasks self)
       then Ok tt (saved w (tasks self))
       else Raise UnicodeEncodeError
  else Raise PermissionError.
Proof.
  rewrite save_tasks_spec.
  destruct (writable w); [|reflexivity].
  now rewrite json_dumps_encodable.
Qed.

(** X10. [add_task] on a list has three outcomes: [PermissionError] when
    the file cannot be opened for writing; [UnicodeEncodeError] when the
    description, a reading of the clock or a string already in the list
    holds a surrogate; otherwise the task appended, the file replaced and
    the id printed. *)
Theorem add_task_outcome (l : list pyval) (description : str) (w : world) :
  add_task {| tasks := PList l |} description w =
  if writable w
  then if storable (PList l) && str_ok description
          && str_ok (clock w (ticks w)) && str_ok (clock w (S (ticks w)))
       then Ok {| tasks := PList (l ++ [new_task (length l) description
                                          (clock w (ticks w))
                                          (clock w (S (ticks w)))]) |}
              (printed
                 (saved (later w 2)
                    (PList (l ++ [new_task (length l) description
                                    (clock w (ticks w))
                                    (clock w (S (ticks w)))])))
                 (TaskAdded (Z.of_nat (length l) + 1)))
       else Raise UnicodeEncodeError
  else Raise PermissionError.
Proof.
  pose proof (add_task_spec l description w) as E. cbv zeta in E.
  rewrite E, json_dumps_encodable.
  change (storable (PList ?x)) with (forallb storable x).
  rewrite forallb_app. cbn [forallb storable new_task fst snd].
  change (str_ok (py "id")) with true.
  change (str_ok (py "description")) with true.
  change (str_ok (py "status")) with true.
  change (str_ok (py "created_at")) with true.
  change (str_ok (py "updated_at")) with true.
  change (str_ok (py "pendiente")) with true.
  cbn [andb]. rewrite !andb_true_r, !andb_assoc. reflexivity.
Qed.

(** X11. [add_task] needs a list: on a store that is a string or a dict it
    raises [AttributeError] at [append], on [None], a boolean or an int
    [TypeError] at [len], and so does the command [agregar] on a file whose
    document is such a value; nothing is saved. *)
Theorem add_task_needs_a_list (v : pyval) (d : str) (w : world) :
  (forall l, v <> PList l) ->
  add_task {| tasks := v |} d w =
    Raise (match v with
           | PStr _ | PDict _ => AttributeError
           | _ => TypeError
           end)
  /\ (forall t, disk w = Content t -> json_loads t = inr v ->
                main (Agregar d) w =
                  Raise (match v with
                         | PStr _ | PDict _ => AttributeError
                         | _ => TypeError
                         end)).
Proof.
  intros Hv.
  assert (add_task {| tasks := v |} d w =
            Raise (match v with
                   | PStr _ | PDict _ => AttributeError
                   | _ => TypeError
                   end)) as H.
  { destruct v as [| | | |l|]; try reflexivity. now destruct (Hv l). }
  split; [exact H|]. intros t Hd Hj. unfold main. unfold bind at 1.
  rewrite (init_content w t Hd), Hj. unfold bind at 1. now rewrite H.
Qed.

(** X11 for a file that holds an empty JSON object. *)
Lemma add_task_needs_a_list_witness :
  add_task {| tasks := PDict [] |} (py "buy milk")
    (world_with (Content (py "{}"))) = Raise AttributeError
  /\ (forall t, disk (world_with (Content (py "{}"))) = Content t ->
                json_loads t = inr (PDict []) ->
                main (Agregar (py "buy milk")) (world_with (Content (py "{}")))
                  = Raise AttributeError).
Proof.
  apply (add_task_needs_a_list (PDict []) (py "buy milk")
           (world_with (Content (py "{}")))).
  intros l. discriminate.
Defined.

(** ** The file, the store and the data model *)

(** X12. After the constructor and any operations that return, the file
    decodes to the store in memory: [load_tasks] on the world they leave
    returns [self.tasks], and a new [TaskManager] built there is the same
    object.  Every operation either saves the store it changed or leaves
    store and file as they were. *)
Theorem file_follows_store (ops : list op) (w0 w1 w2 : world)
  (self0 self : TaskManager) :
  init w0 = Ok self0 w1 ->
  run ops self0 w1 = Ok self w2 ->
  load_tasks w2 = Ok (tasks self) w2 /\ init w2 = Ok self w2.
Proof.
  intros Hinit Hrun.
  assert (load_tasks w2 = Ok (tasks self) w2) as Hl.
  { destruct (init_inv w0 self0 w1 Hinit) as [-> Hl].
    apply (run_persists ops self0 w0 self w2); try assumption.
    exact (load_tasks_well_formed w0 _ w0 Hl). }
  split; [exact Hl | now apply init_of_load].
Qed.

(** X12 for one task added with no file yet. *)
Lemma file_follows_store_witness :
  load_tasks
    (printed (saved (later (world_with Missing) 2) (tasks sample_store))
       (TaskAdded 1)) =
    Ok (tasks sample_store)
      (printed (saved (later (world_with Missing) 2) (tasks sample_store))
         (TaskAdded 1))
  /\ init
       (printed (saved (later (world_with Missing) 2) (tasks sample_store))
          (TaskAdded 1)) =
       Ok sample_store
         (printed (saved (later (world_with Missing) 2) (tasks sample_store))
            (TaskAdded 1)).
Proof.
  apply (file_follows_store [Add (py "buy milk")] (world_with Missing)
           (world_with Missing)
           (printed (saved (later (world_with Missing) 2) (tasks sample_store))
              (TaskAdded 1))
           empty_store sample_store); reflexivity.
Defined.

(** X13. An empty file, or one that holds white space only, is loaded as
    the empty list: the text is no JSON document, and [load_tasks] catches
    the [JSONDecodeError]. *)
Theorem blank_file_loads_empty (t : text) (w : world) :
  forallb is_ws t = true ->
  disk w = Content t ->
  load_tasks w = Ok (PList []) w /\ init w = Ok empty_store w.
Proof.
  intros Ht Hd.
  assert (load_tasks w = Ok (PList []) w) as H.
  { rewrite load_tasks_spec, Hd. unfold json_loads.
    now rewrite (skip_ws_blank t Ht). }
  split; [exact H|]. unfold init, bind. now rewrite H.
Qed.

(** X13 for the empty file. *)
Lemma blank_file_loads_empty_witness :
  load_tasks (world_with (Content [])) = Ok (PList []) (world_with (Content []))
  /\ init (world_with (Content [])) = Ok empty_store (world_with (Content [])).
Proof.
  apply (blank_file_loads_empty [] (world_with (Content []))); reflexivity.
Defined.

(** X14. The operations keep the data model: from a store that is a list
    of task records (an int id and four strings), each with one of the
    three statuses, every sequence of [add_task], [update_task],
    [update_status] and [delete_task] that returns leaves such a store. *)
Theorem operations_keep_task_list (ops : list op) :
  forall (self : TaskManager) (w : world) (self' : TaskManager) (w' : world),
    task_list (tasks self) = true ->
    run ops self w = Ok self' w' ->
    task_list (tasks self') = true.
Proof.
  induction ops as [|o ops IH]; intros self w self' w' Hl H.
  - cbn in H. unfold ret in H. now injection H as <- _.
  - cbn [run] in H. unfold bind at 1 in H.
    destruct (step self o w) as [self1 w1|e] eqn:E; [|discriminate].
    apply (IH self1 w1 self' w'); [|assumption].
    exact (step_task_list self o w self1 w1 Hl E).
Qed.

(** X14 for one task added to the empty store. *)
Lemma operations_keep_task_list_witness :
  task_list (tasks sample_store) = true.
Proof.
  apply (operations_keep_task_list [Add (py "buy milk")] empty_store
           (world_with Missing) sample_store
           (printed (saved (later (world_with Missing) 2) (tasks sample_store))
              (TaskAdded 1))); reflexivity.
Defined.

(** ** Listings *)

(** X15. The three listings by status split the store: when every task
    has one of the three statuses, the lists that [list_pending_tasks],
    [list_in_progress_tasks] and [list_completed_tasks] select hold,
    together, each task of the store exactly once. *)
Theorem status_listings_partition (l : list pyval) :
  forallb valid_status l = true ->
  exists pending in_progress completed,
    with_status (py "pendiente") l = inr pending
    /\ with_status (py "en_progreso") l = inr in_progress
    /\ with_status (py "terminada") l = inr completed
    /\ Permutation (pending ++ in_progress ++ completed) l.
Proof.
  induction l as [|task l IH]; intros H.
  - exists [], [], []. repeat split. constructor.
  - cbn [forallb] in H. apply andb_true_iff in H. destruct H as [Ht Hl].
    destruct (IH Hl) as (a & b & c & Ha & Hb & Hc & Hp).
    destruct (valid_status_inv task Ht) as (s & Hs & Hin).
    cbn [with_status]. rewrite Hs, Ha, Hb, Hc.
    destruct Hin as [<-|[<-|[<-|[]]]]; cbn [eq_str].
    + exists (task :: a), b, c. repeat split. cbn [app]. now constructor.
    + exists a, (task :: b), c. repeat split.
      apply Permutation_sym, Permutation_cons_app. now apply Permutation_sym.
    + exists a, b, (task :: c). repeat split.
      rewrite app_assoc. apply Permutation_sym, Permutation_cons_app.
      rewrite <- app_assoc. now apply Permutation_sym.
Qed.

(** X15 for four tasks: two pending, one in progress, one done. *)
Lemma status_listings_partition_witness :
  exists pending in_progress completed,
    with_status (py "pendiente") mixed_tasks = inr pending
    /\ with_status (py "en_progreso") mixed_tasks = inr in_progress
    /\ with_status (py "terminada") mixed_tasks = inr completed
    /\ Permutation (pending ++ in_progress ++ completed) mixed_tasks.
Proof.
  apply (status_listings_partition mixed_tasks). reflexivity.
Defined.

Ltac icon_cases :=
  repeat split; try (intros [?|?]); intros; try discriminate; auto.

(** X16. The icon of a task in [list_all_tasks] is the icon of the listing
    by status that shows the task: [_get_status_icon] gives the hourglass,
    the cycle or the check mark exactly when the status is the one
    [list_pending_tasks], [list_in_progress_tasks] or
    [list_completed_tasks] selects, and the memo (or [TypeError], for a
    status that cannot be hashed) exactly when none of the three shows the
    task. *)
Theorem icon_agrees_with_listing (task status : pyval) :
  getitem task (py "status") = inr status ->
  (_get_status_icon status = inr Hourglass
   <-> has_status (py "pendiente") task = true)
  /\ (_get_status_icon status = inr Cycle
      <-> has_status (py "en_progreso") task = true)
  /\ (_get_status_icon status = inr CheckMark
      <-> has_status (py "terminada") task = true)
  /\ (_get_status_icon status = inr Memo
      \/ _get_status_icon status = inl TypeError
      <-> valid_status task = false).
Proof.
  intros H. unfold valid_status, has_status. rewrite H.
  cbn [existsb valid_statuses].
  destruct status as [| | |s| |]; cbn [_get_status_icon eq_str];
    try (icon_cases; fail).
  destruct (str_eqb s (py "pendiente")) eqn:E1.
  { apply str_eqb_eq in E1. subst s. cbn. icon_cases. }
  destruct (str_eqb s (py "en_progreso")) eqn:E2.
  { apply str_eqb_eq in E2. subst s. cbn. icon_cases. }
  destruct (str_eqb s (py "terminada")) eqn:E3; cbn; icon_cases.
Qed.

(** X16 for a task in progress. *)
Lemma icon_agrees_with_listing_witness :
  (_get_status_icon (PStr (py "en_progreso")) = inr Hourglass
   <-> has_status (py "pendiente") (nth 1 mixed_tasks PNone) = true)
  /\ (_get_status_icon (PStr (py "en_progreso")) = inr Cycle
      <-> has_status (py "en_progreso") (nth 1 mixed_tasks PNone) = true)
  /\ (_get_status_icon (PStr (py "en_progreso")) = inr CheckMark
      <-> has_status (py "terminada") (nth 1 mixed_tasks PNone) = true)
  /\ (_get_status_icon (PStr (py "en_progreso")) = inr Memo
      \/ _get_status_icon (PStr (py "en_progreso")) = inl TypeError
      <-> valid_status (nth 1 mixed_tasks PNone) = false).
Proof.
  apply (icon_agrees_with_listing (nth 1 mixed_tasks PNone)
           (PStr (py "en_progreso"))).
  reflexivity.
Defined.

(** X17. An item without ["status"] stops every listing: when the tasks
    before it are task records that can be printed, the three listings by
    status and [list_all_tasks] raise, [KeyError] for a dict without the
    key and [TypeError] for an item that is no dict, whatever the status
    asked for. *)
Theorem listing_stops_at_item_without_status (pre post : list pyval)
  (x : pyval) (e : exn) (w : world) :
  forallb is_task pre = true ->
  storable (PList pre) = true ->
  getitem x (py "status") = inl e ->
  list_pending_tasks {| tasks := PList (pre ++ x :: post) |} w = Raise e
  /\ list_in_progress_tasks {| tasks := PList (pre ++ x :: post) |} w
     = Raise e
  /\ list_completed_tasks {| tasks := PList (pre ++ x :: post) |} w = Raise e
  /\ list_all_tasks {| tasks := PList (pre ++ x :: post) |} w = Raise e
  /\ e = match x with PDict _ => KeyError | _ => TypeError end.
Proof.
  intros Hpre Hs Hx.
  assert (forall status i,
             list_tasks_with status i
               {| tasks := PList (pre ++ x :: post) |} w = Raise e) as H.
  { intros status i. unfold list_tasks_with. unfold bind at 1.
    cbn [tasks py_iter lift]. unfold bind at 1.
    now rewrite (with_status_raises status pre post x e). }
  repeat split; try apply H.
  - unfold list_all_tasks. cbn [tasks].
    assert (truthy (PList (pre ++ x :: post)) = true) as ->
        by (now destruct pre).
    cbn [negb]. unfold bind at 1.
    change (print (Banner Clipboard) w)
      with (Ok tt (printed w (Banner Clipboard))).
    cbv beta iota. unfold bind at 1. cbn [py_iter lift].
    unfold bind at 1. rewrite for_all_app. unfold bind at 1.
    rewrite print_rows by assumption.
    cbn [for_all]. unfold bind at 1. unfold bind at 1. unfold lift at 1.
    now rewrite Hx.
  - destruct x as [| | | | |d]; try (now injection Hx as <-).
    unfold getitem in Hx. destruct (dict_get d (py "status")); [discriminate|].
    now injection Hx as <-.
Qed.

(** X17 for an empty dict after four tasks. *)
Lemma listing_stops_at_item_without_status_witness :
  list_pending_tasks {| tasks := PList (mixed_tasks ++ PDict [] :: []) |}
    (world_with Missing) = Raise KeyError
  /\ list_in_progress_tasks
       {| tasks := PList (mixed_tasks ++ PDict [] :: []) |}
       (world_with Missing) = Raise KeyError
  /\ list_completed_tasks
       {| tasks := PList (mixed_tasks ++ PDict [] :: []) |}
       (world_with Missing) = Raise KeyError
  /\ list_all_tasks {| tasks := PList (mixed_tasks ++ PDict [] :: []) |}
       (world_with Missing) = Raise KeyError
  /\ KeyError = KeyError.
Proof.
  apply (listing_stops_at_item_without_status mixed_tasks [] (PDict [])
           KeyError (world_with Missing)); reflexivity.
Defined.

(** ** The command line *)

(** X18. The commands that show something ([listar], [pendientes],
    [en-progreso], [terminadas] and the run without a command) change
    nothing but the output: whatever the file holds, a run that returns
    leaves the file as it was and has not read the clock. *)
Theorem showing_commands_only_print (c : command) (w w' : world) :
  shows_only c = true ->
  main c w = Ok tt w' ->
  exists ls, w' = output w ls.
Proof.
  intros Hc. unfold main. unfold bind at 1.
  destruct (init w) as [self w1|e] eqn:Ei; [|discriminate].
  destruct (init_inv w self w1 Ei) as [-> _].
  destruct c; try discriminate; intros H.
  - now apply list_all_tasks_output in H.
  - now apply list_tasks_with_output in H.
  - now apply list_tasks_with_output in H.
  - now apply list_tasks_with_output in H.
  - apply print_inv in H. eauto.
Qed.

(** X18 for [listar] on the file of four tasks. *)
Lemma showing_commands_only_print_witness :
  exists ls,
    output (world_with (Content (json_dumps (PList mixed_tasks))))
      (listing Memo Clipboard (map row_line mixed_tasks)) =
    output (world_with (Content (json_dumps (PList mixed_tasks)))) ls.
Proof.
  apply (showing_commands_only_print Listar
           (world_with (Content (json_dumps (PList mixed_tasks))))
           (output (world_with (Content (json_dumps (PList mixed_tasks))))
              (listing Memo Clipboard (map row_line mixed_tasks))));
    reflexivity.
Defined.

(** X19. [main] builds the [TaskManager] before it looks at the command:
    with a file that cannot be opened every command raises
    [PermissionError], and with a file that is not UTF-8
    [UnicodeDecodeError], the listings and the run without a command
    included. *)
Theorem unreadable_file_stops_every_command (c : command) (w : world) :
  (disk w = Denied -> main c w = Raise PermissionError)
  /\ (disk w = Garbled -> main c w = Raise UnicodeDecodeError).
Proof.
  split; intros Hd; unfold main; unfold bind at 1; unfold init, bind;
    rewrite load_tasks_spec, Hd; reflexivity.
Qed.

(** X19 for [listar] and for the run without a command. *)
Lemma unreadable_file_stops_every_command_witness :
  main Listar (world_with Denied) = Raise PermissionError
  /\ main NoCommand (world_with Garbled) = Raise UnicodeDecodeError.
Proof.
  split.
  - exact (proj1 (unreadable_file_stops_every_command Listar
                    (world_with Denied)) eq_refl).
  - exact (proj2 (unreadable_file_stops_every_command NoCommand
                    (world_with Garbled)) eq_refl).
Defined.

(** X20. The command [agregar] run once per description, each run a
    process of its own that loads the file the one before it left: the
    file ends with the tasks [add_task] builds, after the ones it held,
    and the ids printed are the next ones in order. *)
Theorem agregar_in_a_row (ds : list str) :
  forall (l : list pyval) (w : world),
    file_of l (disk w) ->
    well_formed (PList l) = true ->
    storable (PList l) = true ->
    forallb str_ok ds = true ->
    (forall n, str_ok (clock w n) = true) ->
    exists w',
      invoke (map Agregar ds) w = Ok tt w'
      /\ file_of (l ++ added (clock w) (length l) (ticks w) ds) (disk w')
      /\ stdout w' =
           stdout w ++ map (fun k => TaskAdded (Z.of_nat k + 1))
                         (seq (length l) (length ds)).
Proof.
  induction ds as [|d ds IH]; intros l w Hf Hwf Hs Hds Hclk.
  - exists w. cbn. rewrite !app_nil_r. auto.
  - cbn [forallb] in Hds. apply andb_true_iff in Hds. destruct Hds as [Hd Hds].
    cbn [map invoke]. unfold bind at 1.
    rewrite (main_agregar l d w) by auto.
    set (task := new_task (length l) d (clock w (ticks w))
                   (clock w (S (ticks w)))).
    set (w1 := printed _ _).
    destruct (IH (l ++ [task]) w1) as (w' & Hrun & Hfile & Hout).
    + right. reflexivity.
    + apply well_formed_snoc; [assumption | reflexivity].
    + apply storable_snoc; [assumption|]. now apply new_task_storable.
    + assumption.
    + intros n. apply Hclk.
    + exists w'. rewrite Hrun.
      rewrite length_app in *. cbn [length] in *.
      rewrite Nat.add_1_r in *.
      split; [reflexivity|]. split.
      * cbn [added]. rewrite <- app_assoc in Hfile. exact Hfile.
      * rewrite Hout. subst w1. cbn [stdout printed saved later seq map length].
        rewrite <- app_assoc. reflexivity.
Qed.

(** X20 for two descriptions, with no file yet. *)
Lemma agregar_in_a_row_witness :
  exists w',
    invoke (map Agregar [py "buy milk"; py "walk the dog"])
      (world_with Missing) = Ok tt w'
    /\ file_of ([] ++ added counting_clock 0 0
                        [py "buy milk"; py "walk the dog"])
         (disk w')
    /\ stdout w' = [TaskAdded 1; TaskAdded 2].
Proof.
  apply (agregar_in_a_row [py "buy milk"; py "walk the dog"] []
           (world_with Missing)).
  - left. split; reflexivity.
  - reflexivity.
  - reflexivity.
  - reflexivity.
  - intros n. unfold world_with, clock, counting_clock, str_ok.
    rewrite forallb_app, int_repr_ok. reflexivity.
Defined.

(** X21. The command [agregar] on a file whose text is not a JSON
    document starts over: [load_tasks] gives the empty list, so the task
    gets the id 1 and the file is replaced by the document of that one
    task; what the file held is gone. *)
Theorem agregar_replaces_unparsable_file (t : text) (d : str) (w : world) :
  disk w = Content t ->
  json_loads t = inl JSONDecodeError ->
  str_ok d = true ->
  str_ok (clock w (ticks w)) = true ->
  str_ok (clock w (S (ticks w))) = true ->
  main (Agregar d) w =
    Ok tt (printed
             (saved (later w 2)
                (PList [new_task 0 d (clock w (ticks w))
                          (clock w (S (ticks w)))]))
             (TaskAdded 1)).
Proof.
  intros Hd Hj Hs Hc Hu. unfold main. unfold bind at 1.
  rewrite (init_content w t Hd), Hj. cbn [caught_by_load].
  unfold bind at 1. unfold empty_store.
  rewrite add_task_ok; try assumption; try reflexivity.
  unfold writable. now rewrite Hd.
Qed.

(** X21 for a file cut off in the middle of a list. *)
Lemma agregar_replaces_unparsable_file_witness :
  main (Agregar (py "buy milk")) (world_with (Content (py "[1, 2"))) =
    Ok tt (printed
             (saved (later (world_with (Content (py "[1, 2"))) 2)
                (PList [new_task 0 (py "buy milk") (counting_clock 0)
                          (counting_clock 1)]))
             (TaskAdded 1)).
Proof.
  apply (agregar_replaces_unparsable_file (py "[1, 2") (py "buy milk")
           (world_with (Content (py "[1, 2")))); reflexivity.
Defined.

(** X22. The choices of the command [estado] are the statuses
    [update_status] accepts: a run of the command that returns printed
    one line, the confirmation of the status or the task not found, never
    the rejection of the status. *)
Theorem estado_reports_marked_or_not_found (i : Z) (e : estado)
  (w w' : world) :
  main (Estado i e) w = Ok tt w' ->
  str_in (estado_str e) valid_statuses = true
  /\ (stdout w' = stdout w ++ [TaskMarked i (estado_str e)]
      \/ stdout w' = stdout w ++ [TaskNotFound i]).
Proof.
  intros H. split; [apply estado_valid|].
  revert H. unfold main. unfold bind at 1.
  destruct (init w) as [self w1|ex] eqn:Ei; [|discriminate].
  destruct (init_inv w self w1 Ei) as [-> _].
  unfold bind at 1.
  rewrite update_status_assign by apply estado_valid.
  destruct (assign_to_task _ _ _ _ _ w) as [self' w1|ex] eqn:E;
    [|discriminate].
  unfold ret. intros H. injection H as <-.
  apply assign_to_task_inv in E.
  destruct E as [(_ & -> & _)|(pre & d & post & _ & _ & _ & _ & ->)];
    [now right | now left].
Qed.

(** X22 for the id 1 with no file yet. *)
Lemma estado_reports_marked_or_not_found_witness :
  str_in (estado_str Terminada) valid_statuses = true
  /\ (stdout (printed (world_with Missing) (TaskNotFound 1)) =
        stdout (world_with Missing) ++ [TaskMarked 1 (estado_str Terminada)]
      \/ stdout (printed (world_with Missing) (TaskNotFound 1)) =
           stdout (world_with Missing) ++ [TaskNotFound 1]).
Proof.
  apply (estado_reports_marked_or_not_found 1 Terminada (world_with Missing)
           (printed (world_with Missing) (TaskNotFound 1))).
  reflexivity.
Defined.

(** X23. Commands run one process after the other do what the same
    operations do on one object: when the operations of [agregar],
    [actualizar], [eliminar] and [estado] commands, applied in a row to
    the [TaskManager] built from the file, return, the commands run as
    processes of their own return with the same file and the same output,
    and the [TaskManager] built from that file is the object the
    operations left. *)
Theorem processes_behave_as_one_object (cmds : list command) (ops : list op)
  (w : world) (self0 self : TaskManager) (w' : world) :
  map op_of cmds = map Some ops ->
  init w = Ok self0 w ->
  run ops self0 w = Ok self w' ->
  invoke cmds w = Ok tt w' /\ init w' = Ok self w'.
Proof.
  intros Hm Hi H. destruct (init_inv w self0 w Hi) as [_ Hl].
  pose proof (load_tasks_well_formed w _ w Hl) as Hwf. split.
  - now apply (invoke_as_run cmds ops self0 w self w').
  - apply init_of_load. now apply (run_persists ops self0 w self w').
Qed.

(** X23 for two tasks added and the first deleted, with no file yet. *)
Lemma processes_behave_as_one_object_witness :
  invoke [Agregar (py "buy milk"); Agregar (py "walk the dog"); Eliminar 1]
    (world_with Missing) =
    Ok tt {| disk := Content (json_dumps
                                (PList [new_task 1 (py "walk the dog")
                                          (counting_clock 2)
                                          (counting_clock 3)]));
             clock := counting_clock;
             ticks := 4;
             stdout := [TaskAdded 1; TaskAdded 2; TaskDeleted 1] |}
  /\ init {| disk := Content (json_dumps
                                (PList [new_task 1 (py "walk the dog")
                                          (counting_clock 2)
                                          (counting_clock 3)]));
             clock := counting_clock;
             ticks := 4;
             stdout := [TaskAdded 1; TaskAdded 2; TaskDeleted 1] |} =
       Ok {| tasks := PList [new_task 1 (py "walk the dog")
                               (counting_clock 2) (counting_clock 3)] |}
          {| disk := Content (json_dumps
                                (PList [new_task 1 (py "walk the dog")
                                          (counting_clock 2)
                                          (counting_clock 3)]));
             clock := counting_clock;
             ticks := 4;
             stdout := [TaskAdded 1; TaskAdded 2; TaskDeleted 1] |}.
Proof.
  apply (processes_behave_as_one_object
           [Agregar (py "buy milk"); Agregar (py "walk the dog"); Eliminar 1]
           [Add (py "buy milk"); Add (py "walk the dog"); Delete 1]
           (world_with Missing) empty_store
           {| tasks := PList [new_task 1 (py "walk the dog")
                                (counting_clock 2) (counting_clock 3)] |});
    reflexivity.
Defined.
